(** * frp-web-lite: the resource guardian, the panel's caches and the
      monitor's memoising decorator

    A shallow embedding of the three Python modules of the repository:

    - [resource_guardian.py]: [ResourceGuardian] (configuration loading,
      restart policy, restart execution, the health check of one tick and
      the daemon loop);
    - [app.py]: [execute_command_internal], [execute_command] and
      [get_cached_data];
    - [performance_monitor.py]: the [lightweight_cache] decorator.

    Conventions of the embedding.

    - A Python [int] is a [Z].  A Python [float] is the rational it
      denotes, a [Q]: comparisons between a float and an int are exact in
      Python, and so they are here; the rounding of a float subtraction is
      not modelled.  [psutil] and the clocks never produce NaN or an
      infinity.
    - [datetime.now()] is an integer number of microseconds, which is the
      resolution of [datetime]; a [timedelta] is a difference of two such
      numbers.  [time.time()] is a [Q] number of seconds.
    - Every call that leaves the process (a subprocess, a [psutil] query, a
      file, the clock) takes its outcome from an explicit environment
      argument, and leaves an [Event] in the trace of the state.
    - An exception is a value [Raise e] of the result type [Res]; every
      exception of the model derives from Python's [Exception]
      (asynchronous interrupts are outside the model, except the stop
      signal of the daemon loop, which has an outcome of its own). *)

From Stdlib Require Import ZArith QArith Qabs Qround String Ascii List Bool Lia.
From Stdlib Require Import DecimalString.
From stdpp Require Import base gmap strings list sorting.

Set Warnings "-register-all".

Local Open Scope string_scope.
Local Open Scope list_scope.
Local Open Scope Z_scope.

(** ** Python values, exceptions and text formatting *)

Module Py.

(** The values [json.load] produces, which are also the values the
    panel's dictionaries hold. A JSON object has string keys. *)
Inductive PyVal : Type :=
| PNone
| PBool (b : bool)
| PInt (z : Z)
| PFloat (q : Q)
| PStr (s : string)
| PList (l : list PyVal)
| PDict (d : list (string * PyVal)).

Definition is_none (v : PyVal) : bool :=
  match v with PNone => true | _ => false end.

(** Exception classes the three modules tell apart, and the rest. *)
Inductive ExcClass : Type :=
| TimeoutExpired
| NoSuchProcess
| ZombieProcess
| TypeError
| ValueError
| OtherException (name : string).

Record PyExc : Type := mkExc { exc_class : ExcClass; exc_text : string }.

(** [except subprocess.TimeoutExpired] *)
Definition is_TimeoutExpired (e : PyExc) : bool :=
  match exc_class e with TimeoutExpired => true | _ => false end.

(** [except psutil.NoSuchProcess]; [ZombieProcess] is a subclass. *)
Definition is_NoSuchProcess (e : PyExc) : bool :=
  match exc_class e with NoSuchProcess | ZombieProcess => true | _ => false end.

Inductive Res (A : Type) : Type :=
| Ok (a : A)
| Raise (e : PyExc).
Arguments Ok {A} a.
Arguments Raise {A} e.

Definition raised {A} (r : Res A) : bool :=
  match r with Ok _ => false | Raise _ => true end.

(** What [subprocess.run(..., capture_output=True, text=True)] returns. *)
Record Completed : Type := mkCompleted {
  returncode : Z;
  stdout : string;
  stderr : string
}.

(** *** Comparisons on floats *)

Definition Qltb (x y : Q) : bool := (Qnum x * QDen y <? Qnum y * QDen x)%Z.
Definition Qgtb (x y : Q) : bool := Qltb y x.

(** *** [str(int)] and the [:.Nf] format *)

Definition str_int (z : Z) : string := NilZero.string_of_int (Z.to_int z).

(** Round to the nearest integer, ties to even: the rounding of
    Python's float formatting, which works on the exact value. *)
Definition round_half_even (x : Q) : Z :=
  let a := Qnum x in
  let b := Zpos (Qden x) in
  let f := a / b in
  let r := a mod b in
  match 2 * r ?= b with
  | Lt => f
  | Gt => f + 1
  | Eq => if Z.even f then f else f + 1
  end.

Fixpoint zero_pad (width : nat) (s : string) : string :=
  match width with
  | O => s
  | S w => if (String.length s <? width)%nat then zero_pad w ("0" +:+ s) else s
  end.

(** [format(x, '.<digits>f')]: the sign of [x], then [|x|] rounded to
    [digits] decimals. *)
Definition format_fixed (digits : nat) (x : Q) : string :=
  let scale := 10 ^ Z.of_nat digits in
  let n := round_half_even (Qabs x * inject_Z scale) in
  let sign := if Qltb x 0 then "-" else "" in
  let int_part := str_int (n / scale) in
  match digits with
  | O => sign +:+ int_part
  | _ => sign +:+ int_part +:+ "." +:+ zero_pad digits (str_int (n mod scale))
  end.

(** *** [str.strip()] and [str.split()] on ASCII text *)

(** The ASCII characters [str.isspace] accepts: 9 to 13, 28 to 32. *)
Definition isspace (c : ascii) : bool :=
  let n := nat_of_ascii c in
  ((9 <=? n) && (n <=? 13) || (28 <=? n) && (n <=? 32))%nat.

Fixpoint lstrip (s : string) : string :=
  match s with
  | String c rest => if isspace c then lstrip rest else s
  | EmptyString => EmptyString
  end.

Definition chars (s : string) : list ascii := list_ascii_of_string s.
Definition of_chars (l : list ascii) : string := string_of_list_ascii l.

Definition rstrip (s : string) : string :=
  of_chars (rev (chars (lstrip (of_chars (rev (chars s)))))).

Definition strip (s : string) : string := rstrip (lstrip s).

(** [s.split()]: the maximal runs of non-space characters. [word] is
    the run being read, reversed. *)
Fixpoint split_go (word : list ascii) (s : string) : list string :=
  let flush rest := match word with
                    | [] => rest
                    | _ => of_chars (rev word) :: rest
                    end in
  match s with
  | EmptyString => flush []
  | String c rest =>
      if isspace c then flush (split_go [] rest)
      else split_go (c :: word) rest
  end.

Definition split (s : string) : list string := split_go [] s.

End Py.

Import Py.

(** ** f-string literals

    How the compiler divides the text of an f-string (PEP 498, as
    CPython 3.6 to 3.11 scans it) into literal text and replacement
    fields [{expression=!conversion:format_spec}], and the errors it
    reports while doing so. The text is the literal as it stands between
    its quotes. The expression of a field is kept as text and not parsed
    in its turn, and so is a replacement field inside a format spec;
    strings inside an expression are read as single-quoted (the module
    has no backslash and no triple-quoted string inside an f-string). *)

Module FString.

Inductive FPart : Type :=
| FText (text : string)
| FField (expression : string) (debug : bool) (conversion : option ascii)
    (format_spec : string).

Definition syntax_error (message : string) : PyExc :=
  mkExc (OtherException "SyntaxError") message.

(** The replacement field being read. *)
Record Field : Type := mkField {
  expression : string;
  debug : bool;
  conversion : option ascii;
  format_spec : string
}.

Definition new_field : Field :=
  {| expression := ""; debug := false; conversion := None; format_spec := "" |}.

Definition snoc (s : string) (c : ascii) : string := s +:+ String c EmptyString.

Definition add_expression (c : ascii) (f : Field) : Field :=
  {| expression := snoc (expression f) c; debug := debug f;
     conversion := conversion f; format_spec := format_spec f |}.

Definition set_debug (f : Field) : Field :=
  {| expression := expression f; debug := true;
     conversion := conversion f; format_spec := format_spec f |}.

Definition set_conversion (c : ascii) (f : Field) : Field :=
  {| expression := expression f; debug := debug f;
     conversion := Some c; format_spec := format_spec f |}.

Definition add_spec (c : ascii) (f : Field) : Field :=
  {| expression := expression f; debug := debug f;
     conversion := conversion f; format_spec := snoc (format_spec f) c |}.

(** Where the scanner is. [outer] is the field whose format spec holds
    the field being read, if there is one. *)
Inductive FMode : Type :=
| InText (text : string)
| SawOpen (text : string)             (* "{" in the text: doubled, or a field *)
| SawClose (text : string)            (* "}" in the text: doubled, or an error *)
| InExpression (outer : option Field) (f : Field) (brackets : list ascii)
    (quote : option ascii)
| AfterAngle (outer : option Field) (f : Field)       (* "<" or ">" *)
| SawBang (outer : option Field) (f : Field)          (* "!" in the expression *)
| SawEquals (outer : option Field) (f : Field)        (* "=" in the expression *)
| AfterDebug (outer : option Field) (f : Field)       (* "=" and white space *)
| AfterBang (outer : option Field) (f : Field)        (* "!" after the "=" *)
| AfterConversion (outer : option Field) (f : Field)  (* "!" and its character *)
| InSpec (outer : option Field) (f : Field).

(** The double quote, and the two sets of white space the scanner
    knows: the blanks of an expression (space, tab, newline, form feed,
    carriage return) and [Py_ISSPACE]. *)
Definition double_quote : ascii := ascii_of_nat 34.

Definition is_blank_char (c : ascii) : bool :=
  let n := nat_of_ascii c in
  ((n =? 32) || (n =? 9) || (n =? 10) || (n =? 12) || (n =? 13))%nat.

Definition is_space_char (c : ascii) : bool :=
  let n := nat_of_ascii c in
  ((9 <=? n) && (n <=? 13) || (n =? 32))%nat.

Definition text_part (text : string) : list FPart :=
  if String.eqb text "" then [] else [FText text].

Definition is_blank (s : string) : bool := forallb is_blank_char (chars s).

Definition opening (c : ascii) : ascii :=
  if Ascii.eqb c ")" then "("%char
  else if Ascii.eqb c "]" then "["%char
  else "{"%char.

Definition quoted (c : ascii) : string := "'" +:+ String c EmptyString +:+ "'".

(** The character is also text of the format spec of [outer]. *)
Definition also_spec (c : ascii) (outer : option Field) : option Field :=
  option_map (add_spec c) outer.

(** A field is complete at its closing brace. *)
Definition close_field (outer : option Field) (f : Field) (parts : list FPart)
  : FMode * list FPart :=
  match outer with
  | None =>
      (InText "",
       parts ++ [FField (expression f) (debug f) (conversion f) (format_spec f)])
  | Some o => (InSpec None (add_spec "}" o), parts)
  end.

(** The expression is over at the character [c]: it must not be empty. *)
Definition blank_expression (c : ascii) : PyExc :=
  if Ascii.eqb c "}" then syntax_error "f-string: empty expression not allowed"
  else syntax_error ("f-string: expression required before " +:+ quoted c).

Definition end_expression (f : Field) (c : ascii) (next : Res (FMode * list FPart))
  : Res (FMode * list FPart) :=
  if is_blank (expression f) then Raise (blank_expression c) else next.

(** After the expression, its ["="] and its conversion: a format spec
    or the end. *)
Definition after_expression (outer : option Field) (f : Field) (c : ascii)
    (parts : list FPart) : Res (FMode * list FPart) :=
  if Ascii.eqb c "}" then Ok (close_field outer f parts)
  else if Ascii.eqb c ":" then Ok (InSpec (also_spec c outer) f, parts)
  else Raise (syntax_error "f-string: expecting '}'").

(** The character after ["!"]. *)
Definition conversion_step (outer : option Field) (f : Field) (c : ascii)
    (parts : list FPart) : Res (FMode * list FPart) :=
  if Ascii.eqb c "s" || Ascii.eqb c "r" || Ascii.eqb c "a"
  then Ok (AfterConversion (also_spec c outer) (set_conversion c f), parts)
  else Raise (syntax_error
                "f-string: invalid conversion character: expected 's', 'r', or 'a'").

(** One character of an expression outside a string. *)
Definition expression_step (outer : option Field) (f : Field) (brackets : list ascii)
    (c : ascii) (parts : list FPart) : Res (FMode * list FPart) :=
  let go_on bs := Ok (InExpression (also_spec c outer) (add_expression c f) bs None, parts) in
  if Ascii.eqb c "\" then
    Raise (syntax_error "f-string expression part cannot include a backslash")
  else if Ascii.eqb c "'" || Ascii.eqb c double_quote then
    Ok (InExpression (also_spec c outer) (add_expression c f) brackets (Some c), parts)
  else if Ascii.eqb c "[" || Ascii.eqb c "{" || Ascii.eqb c "(" then
    go_on (c :: brackets)
  else if Ascii.eqb c "#" then
    Raise (syntax_error "f-string expression part cannot include '#'")
  else
    match brackets with
    | [] =>
        if Ascii.eqb c "<" || Ascii.eqb c ">" then
          Ok (AfterAngle (also_spec c outer) (add_expression c f), parts)
        else if Ascii.eqb c "!" then Ok (SawBang (also_spec c outer) f, parts)
        else if Ascii.eqb c "=" then Ok (SawEquals (also_spec c outer) f, parts)
        else if Ascii.eqb c ":" || Ascii.eqb c "}"
        then end_expression f c (after_expression outer f c parts)
        else if Ascii.eqb c "]" || Ascii.eqb c ")" then
          Raise (syntax_error ("f-string: unmatched " +:+ quoted c))
        else go_on []
    | b :: bs =>
        if Ascii.eqb c "]" || Ascii.eqb c "}" || Ascii.eqb c ")" then
          if Ascii.eqb b (opening c) then go_on bs
          else Raise (syntax_error
                        ("f-string: closing parenthesis " +:+ quoted c
                           +:+ " does not match opening parenthesis " +:+ quoted b))
        else go_on brackets
    end.

(** One character of the literal. *)
Definition fstring_step (mode : FMode) (c : ascii) (parts : list FPart)
  : Res (FMode * list FPart) :=
  match mode with
  | InText text =>
      if Ascii.eqb c "{" then Ok (SawOpen text, parts)
      else if Ascii.eqb c "}" then Ok (SawClose text, parts)
      else Ok (InText (snoc text c), parts)
  | SawOpen text =>
      if Ascii.eqb c "{" then Ok (InText (snoc text c), parts)
      else expression_step None new_field [] c (parts ++ text_part text)
  | SawClose text =>
      if Ascii.eqb c "}" then Ok (InText (snoc text c), parts)
      else Raise (syntax_error "f-string: single '}' is not allowed")
  | InExpression outer f brackets (Some q) =>
      if Ascii.eqb c "\" then
        Raise (syntax_error "f-string expression part cannot include a backslash")
      else
        Ok (InExpression (also_spec c outer) (add_expression c f) brackets
              (if Ascii.eqb c q then None else Some q), parts)
  | InExpression outer f brackets None => expression_step outer f brackets c parts
  | AfterAngle outer f =>
      if Ascii.eqb c "="
      then Ok (InExpression (also_spec c outer) (add_expression c f) [] None, parts)
      else expression_step outer f [] c parts
  | SawBang outer f =>
      if Ascii.eqb c "=" then
        Ok (InExpression (also_spec c outer)
              (add_expression c (add_expression "!" f)) [] None, parts)
      else end_expression f "!" (conversion_step outer f c parts)
  | SawEquals outer f =>
      if Ascii.eqb c "=" then
        Ok (InExpression (also_spec c outer)
              (add_expression c (add_expression "=" f)) [] None, parts)
      else
        end_expression f "="
          (if is_space_char c
           then Ok (AfterDebug (also_spec c outer) (set_debug f), parts)
           else if Ascii.eqb c "!"
           then Ok (AfterBang (also_spec c outer) (set_debug f), parts)
           else after_expression outer (set_debug f) c parts)
  | AfterDebug outer f =>
      if is_space_char c then Ok (AfterDebug (also_spec c outer) f, parts)
      else if Ascii.eqb c "!" then Ok (AfterBang (also_spec c outer) f, parts)
      else after_expression outer f c parts
  | AfterBang outer f => conversion_step outer f c parts
  | AfterConversion outer f => after_expression outer f c parts
  | InSpec outer f =>
      if Ascii.eqb c "}" then Ok (close_field outer f parts)
      else if Ascii.eqb c "{" then
        match outer with
        | None => Ok (InExpression (Some (add_spec c f)) new_field [] None, parts)
        | Some _ => Raise (syntax_error "f-string: expressions nested too deeply")
        end
      else Ok (InSpec (also_spec c outer) (add_spec c f), parts)
  end.

(** The end of the literal. *)
Definition fstring_end (mode : FMode) (parts : list FPart) : Res (list FPart) :=
  let expecting := Raise (syntax_error "f-string: expecting '}'") in
  match mode with
  | InText text => Ok (parts ++ text_part text)
  | SawClose _ => Raise (syntax_error "f-string: single '}' is not allowed")
  | InExpression _ _ _ (Some _) => Raise (syntax_error "f-string: unterminated string")
  | InExpression _ _ (b :: _) None =>
      Raise (syntax_error ("f-string: unmatched " +:+ quoted b))
  | SawBang _ f =>
      if is_blank (expression f) then Raise (blank_expression "!") else expecting
  | SawEquals _ f =>
      if is_blank (expression f) then Raise (blank_expression "=") else expecting
  | _ => expecting
  end.

Fixpoint fstring_scan (text : list ascii) (mode : FMode) (parts : list FPart)
  : Res (list FPart) :=
  match text with
  | [] => fstring_end mode parts
  | c :: rest =>
      match fstring_step mode c parts with
      | Ok (mode', parts') => fstring_scan rest mode' parts'
      | Raise e => Raise e
      end
  end.

(** The parts of the f-string with the text [s] between its quotes. *)
Definition fstring_parts (s : string) : Res (list FPart) :=
  fstring_scan (chars s) (InText "") [].

End FString.

(** ** resource_guardian.py *)

Module Guardian.

Inductive Level : Type := INFO | WARNING | ERROR.

(** What one call of the guardian does to the outside world, in the
    order it does it. [EvLog] stands for one call of [log]: the line
    printed and appended to the log file (the timestamp prefix is left
    out, and a failed write to the file is swallowed by [log] itself). *)
Inductive Event : Type :=
| EvLog (level : Level) (message : string)
| EvRun (argv : list string)
| EvProcess (pid : Z)
| EvSystem
| EvOpen (path : string)
| EvSleep (seconds : Z).

(** The dictionary [get_process_stats] builds. *)
Record ProcessStats : Type := mkProcessStats {
  memory_mb : Q;
  memory_percent : Q;
  cpu_percent : Q;
  num_threads : Z;
  status : string
}.

(** The dictionary [get_system_stats] builds. *)
Record SystemStats : Type := mkSystemStats {
  sys_memory_total_mb : Q;
  sys_memory_available_mb : Q;
  sys_memory_percent : Q;
  sys_cpu_percent : Q;
  sys_disk_free_gb : Q;
  sys_disk_percent : Q
}.

(** The attributes of a [ResourceGuardian]. The first three fields are
    the keys of [self.config] that the methods read after [__init__];
    every key carries the type its default has ([load_config] always
    returns a dictionary with all of them, see [load_config_has_defaults]). *)
Record ResourceGuardian : Type := mkGuardian {
  max_restarts_per_hour : Z;
  enable_auto_restart : bool;
  enable_memory_cleanup : bool;
  service_name : string;
  memory_limit_mb : Z;
  cpu_limit_percent : Z;
  check_interval : Z;
  restart_cooldown : Z;
  last_restart : option Z;
  restart_count : Z
}.

Definition with_restart (last : option Z) (count : Z) (g : ResourceGuardian)
  : ResourceGuardian :=
  {| max_restarts_per_hour := max_restarts_per_hour g;
     enable_auto_restart := enable_auto_restart g;
     enable_memory_cleanup := enable_memory_cleanup g;
     service_name := service_name g;
     memory_limit_mb := memory_limit_mb g;
     cpu_limit_percent := cpu_limit_percent g;
     check_interval := check_interval g;
     restart_cooldown := restart_cooldown g;
     last_restart := last;
     restart_count := count |}.

(** *** The configuration file *)

Definition default_config : gmap string PyVal :=
  <["service_name" := PStr "frp-web-lite"]>
  (<["memory_limit_mb" := PInt 400]>
  (<["cpu_limit_percent" := PInt 80]>
  (<["check_interval" := PInt 30]>
  (<["restart_cooldown" := PInt 300]>
  (<["max_restarts_per_hour" := PInt 3]>
  (<["enable_auto_restart" := PBool true]>
  (<["enable_memory_cleanup" := PBool true]> ∅))))))).

Definition config_keys : list string :=
  ["service_name"; "memory_limit_mb"; "cpu_limit_percent"; "check_interval";
   "restart_cooldown"; "max_restarts_per_hour"; "enable_auto_restart";
   "enable_memory_cleanup"].

(** [d.update(other)] for [other] a dict. *)
Definition update_items (d : gmap string PyVal) (items : list (string * PyVal))
  : gmap string PyVal :=
  fold_left (fun acc kv => <[fst kv := snd kv]> acc) items d.

Definition element_error (i : nat) : PyExc :=
  mkExc TypeError
    ("cannot convert dictionary update sequence element #"
       +:+ str_int (Z.of_nat i) +:+ " to a sequence").

Definition length_error (i n : nat) : PyExc :=
  mkExc ValueError
    ("dictionary update sequence element #" +:+ str_int (Z.of_nat i)
       +:+ " has length " +:+ str_int (Z.of_nat n) +:+ "; 2 is required").

(** One element of [d.update(sequence)]: it must be a sequence of
    length two, key then value. The dictionary of the model holds the
    string keys only: a pair whose key is hashable and not a string
    leaves it as it is. *)
Definition update_element (i : nat) (d : gmap string PyVal) (elem : PyVal)
  : Res unit * gmap string PyVal :=
  match elem with
  | PList [PStr k; v] => (Ok tt, <[k := v]> d)
  | PList [PList _; _] => (Raise (mkExc TypeError "unhashable type: 'list'"), d)
  | PList [PDict _; _] => (Raise (mkExc TypeError "unhashable type: 'dict'"), d)
  | PList [_; _] => (Ok tt, d)
  | PList l => (Raise (length_error i (length l)), d)
  | PStr (String a (String b EmptyString)) =>
      (Ok tt, <[String a EmptyString := PStr (String b EmptyString)]> d)
  | PStr s => (Raise (length_error i (String.length s)), d)
  | PDict [(k1, _); (k2, _)] => (Ok tt, <[k1 := PStr k2]> d)
  | PDict l => (Raise (length_error i (length l)), d)
  | PNone | PBool _ | PInt _ | PFloat _ => (Raise (element_error i), d)
  end.

(** The elements in order; the first bad one raises, and the entries
    set before it stay. *)
Fixpoint update_sequence (i : nat) (d : gmap string PyVal) (elems : list PyVal)
  : Res unit * gmap string PyVal :=
  match elems with
  | [] => (Ok tt, d)
  | elem :: rest =>
      match update_element i d elem with
      | (Ok _, d') => update_sequence (S i) d' rest
      | (Raise e, d') => (Raise e, d')
      end
  end.

Definition not_iterable (type_name : string) : PyExc :=
  mkExc TypeError ("'" +:+ type_name +:+ "' object is not iterable").

(** [d.update(other)] for any value [json.load] can return: the outcome,
    and the dictionary as the call leaves it. *)
Definition dict_update (d : gmap string PyVal) (other : PyVal)
  : Res unit * gmap string PyVal :=
  match other with
  | PDict items => (Ok tt, update_items d items)
  | PList elems => update_sequence 0 d elems
  | PStr s => update_sequence 0 d (map (fun c => PStr (String c EmptyString)) (chars s))
  | PNone => (Raise (not_iterable "NoneType"), d)
  | PBool _ => (Raise (not_iterable "bool"), d)
  | PInt _ => (Raise (not_iterable "int"), d)
  | PFloat _ => (Raise (not_iterable "float"), d)
  end.

(** The file system as [load_config] meets it. *)
Record ConfigEnv : Type := mkConfigEnv {
  path_exists : bool;        (* os.path.exists(config_file) *)
  open_file : Res unit;      (* open(config_file, 'r') *)
  json_load : Res PyVal      (* json.load(f) *)
}.

(** The [try] block of [load_config]: how it ends, and [default_config]
    as it stands then. *)
Definition load_config_try (env : ConfigEnv) (config_file : string)
    (d : gmap string PyVal) (tr : list Event)
  : Res unit * gmap string PyVal * list Event :=
  if path_exists env then
    let tr1 := tr ++ [EvOpen config_file] in
    match open_file env with
    | Raise e => (Raise e, d, tr1)
    | Ok _ =>
        match json_load env with
        | Raise e => (Raise e, d, tr1)
        | Ok user_config =>
            let '(r, d') := dict_update d user_config in (r, d', tr1)
        end
    end
  else (Ok tt, d, tr).

Definition load_config (env : ConfigEnv) (config_file : string) (tr : list Event)
  : Res (gmap string PyVal) * list Event :=
  match load_config_try env config_file default_config tr with
  | (Ok _, d, tr1) => (Ok d, tr1)
  | (Raise e, d, tr1) =>
      (Ok d,
       tr1 ++ [EvLog INFO ("Error loading config: " +:+ exc_text e +:+ ", using defaults")])
  end.

(** [self.config.get(key, default)] for a key the rest of the class
    uses as an int, a bool or a string. *)
Definition get_int (d : gmap string PyVal) (key : string) (default : Z) : option Z :=
  match d !! key with
  | None => Some default
  | Some (PInt z) => Some z
  | Some _ => None
  end.

Definition get_bool (d : gmap string PyVal) (key : string) (default : bool)
  : option bool :=
  match d !! key with
  | None => Some default
  | Some (PBool b) => Some b
  | Some _ => None
  end.

Definition get_str (d : gmap string PyVal) (key : string) (default : string)
  : option string :=
  match d !! key with
  | None => Some default
  | Some (PStr s) => Some s
  | Some _ => None
  end.

(** [__init__] after [load_config]: the attributes, when every key has
    the type of its default. *)
Definition init (config : gmap string PyVal) : option ResourceGuardian :=
  name ← get_str config "service_name" "frp-web-lite";
  mem ← get_int config "memory_limit_mb" 400;
  cpu ← get_int config "cpu_limit_percent" 80;
  interval ← get_int config "check_interval" 30;
  cooldown ← get_int config "restart_cooldown" 300;
  budget ← get_int config "max_restarts_per_hour" 3;
  auto ← get_bool config "enable_auto_restart" true;
  cleanup ← get_bool config "enable_memory_cleanup" true;
  Some {| max_restarts_per_hour := budget;
          enable_auto_restart := auto;
          enable_memory_cleanup := cleanup;
          service_name := name;
          memory_limit_mb := mem;
          cpu_limit_percent := cpu;
          check_interval := interval;
          restart_cooldown := cooldown;
          last_restart := None;
          restart_count := 0 |}.

(** *** State, environment and the monad of the methods *)

Record State : Type := mkState {
  self : ResourceGuardian;
  trace : list Event
}.

(** The outside world during one tick of the daemon loop: one field for
    each call whose result the guardian does not decide. *)
Record TickEnv : Type := mkTickEnv {
  now_loop : Z;                      (* datetime.now() of the hourly test *)
  now_stamp : Z;                     (* datetime.now() after a reset *)
  main_pid : Res Z;                  (* systemctl show, then int(stdout.strip()) *)
  process_query : Z -> Res ProcessStats;   (* the psutil calls of get_process_stats *)
  system_query : Res SystemStats;    (* the psutil calls of get_system_stats *)
  now_policy : Z;                    (* datetime.now() in should_restart_service *)
  restart_run : Res Completed;       (* systemctl restart *)
  now_restart : Z;                   (* datetime.now() in restart_service *)
  start_run : Res Completed;         (* systemctl start *)
  sync_run : Res Completed;          (* sync *)
  drop_caches_open : Res unit;       (* open('/proc/sys/vm/drop_caches', 'w') *)
  drop_caches_run : Res Completed    (* echo 3 *)
}.

Definition M (A : Type) : Type := State -> Res A * State.

Definition ret {A} (a : A) : M A := fun s => (Ok a, s).

Definition bind {A B} (m : M A) (k : A -> M B) : M B :=
  fun s =>
    match m s with
    | (Ok a, s') => k a s'
    | (Raise e, s') => (Raise e, s')
    end.

Definition raise {A} (e : PyExc) : M A := fun s => (Raise e, s).

(** [try: body except Exception as e: handler e] *)
Definition try_except {A} (body : M A) (handler : PyExc -> M A) : M A :=
  fun s =>
    match body s with
    | (Ok a, s') => (Ok a, s')
    | (Raise e, s') => handler e s'
    end.

(** A call whose outcome the environment decides. *)
Definition extern {A} (r : Res A) : M A := fun s => (r, s).

Definition get_self : M ResourceGuardian := fun s => (Ok (self s), s).

Definition put_self (g : ResourceGuardian) : M unit :=
  fun s => (Ok tt, {| self := g; trace := trace s |}).

Definition emit (e : Event) : M unit :=
  fun s => (Ok tt, {| self := self s; trace := trace s ++ [e] |}).

Declare Scope guardian_scope.
Delimit Scope guardian_scope with M.
Notation "x <- m ;; k" := (bind m (fun x => k))
  (at level 100, m at next level, right associativity) : guardian_scope.
Notation "m ;; k" := (bind m (fun _ => k))
  (at level 100, right associativity) : guardian_scope.
Local Open Scope guardian_scope.

Definition log (message : string) (level : Level) : M unit :=
  emit (EvLog level message).

(** *** The methods *)

Definition get_service_pid (env : TickEnv) : M (option Z) :=
  g <- get_self ;;
  try_except
    (emit (EvRun ["systemctl"; "show"; "--property"; "MainPID"; "--value";
                  service_name g]) ;;
     pid <- extern (main_pid env) ;;
     ret (if pid >? 0 then Some pid else None))
    (fun _ => ret None).

Definition get_process_stats (env : TickEnv) (pid : Z) : M (option ProcessStats) :=
  try_except
    (emit (EvProcess pid) ;;
     stats <- extern (process_query env pid) ;;
     ret (Some stats))
    (fun e =>
       if is_NoSuchProcess e then ret None
       else (log ("Error getting process stats: " +:+ exc_text e) ERROR ;;
             ret None)).

Definition get_system_stats (env : TickEnv) : M (option SystemStats) :=
  try_except
    (emit EvSystem ;;
     stats <- extern (system_query env) ;;
     ret (Some stats))
    (fun e =>
       log ("Error getting system stats: " +:+ exc_text e) ERROR ;;
       ret None).

(** [time_since_restart.total_seconds()] *)
Definition total_seconds (microseconds : Z) : Q := microseconds # 1000000.

Definition cooldown_reason (cooldown : Z) (elapsed : Q) : string :=
  "Restart cooldown active ("
    +:+ format_fixed 0 (inject_Z cooldown - elapsed) +:+ "s remaining)".

Definition memory_reason (stats : ProcessStats) (limit : Z) : string :=
  "Memory usage (" +:+ format_fixed 1 (memory_mb stats)
    +:+ "MB) exceeds limit (" +:+ str_int limit +:+ "MB)".

Definition cpu_reason (stats : ProcessStats) (limit : Z) : string :=
  "CPU usage (" +:+ format_fixed 1 (cpu_percent stats)
    +:+ "%) exceeds limit (" +:+ str_int limit +:+ "%)".

(** [should_restart_service]: it reads the guardian and the clock and
    changes nothing. [now] is its [datetime.now()]. *)
Definition should_restart_service (g : ResourceGuardian) (now : Z)
    (process_stats : ProcessStats) : bool * string :=
  if negb (enable_auto_restart g) then (false, "Auto-restart disabled")
  else
    let cooling :=
      match last_restart g with
      | Some last =>
          let time_since_restart := total_seconds (now - last) in
          if Qltb time_since_restart (inject_Z (restart_cooldown g))
          then Some (cooldown_reason (restart_cooldown g) time_since_restart)
          else None
      | None => None
      end in
    match cooling with
    | Some reason => (false, reason)
    | None =>
        if restart_count g >=? max_restarts_per_hour g
        then (false, "Maximum restarts per hour reached")
        else if Qgtb (memory_mb process_stats) (inject_Z (memory_limit_mb g))
        then (true, memory_reason process_stats (memory_limit_mb g))
        else if Qgtb (cpu_percent process_stats) (inject_Z (cpu_limit_percent g))
        then (true, cpu_reason process_stats (cpu_limit_percent g))
        else (false, "All metrics within limits")
    end.

Definition restart_service (env : TickEnv) (reason : string) : M bool :=
  log ("Restarting service: " +:+ reason) WARNING ;;
  try_except
    (g <- get_self ;;
     emit (EvRun ["systemctl"; "restart"; service_name g]) ;;
     result <- extern (restart_run env) ;;
     if returncode result =? 0 then
       put_self (with_restart (Some (now_restart env)) (restart_count g + 1) g) ;;
       log "Service restarted successfully" INFO ;;
       ret true
     else
       (log ("Service restart failed: " +:+ stderr result) ERROR ;;
        ret false))
    (fun e =>
       log ("Error restarting service: " +:+ exc_text e) ERROR ;;
       ret false).

Definition cleanup_memory (env : TickEnv) : M unit :=
  g <- get_self ;;
  if negb (enable_memory_cleanup g) then ret tt
  else
    try_except
      (emit (EvRun ["sync"]) ;;
       extern (sync_run env) ;;
       emit (EvOpen "/proc/sys/vm/drop_caches") ;;
       extern (drop_caches_open env) ;;
       emit (EvRun ["echo"; "3"]) ;;
       extern (drop_caches_run env) ;;
       log "Memory cleanup performed" INFO)
      (fun e => log ("Memory cleanup failed: " +:+ exc_text e) ERROR).

(** The five f-string literals of the "Stats" log call, lines 200 to
    204, each as it stands between its quotes. *)
Definition stats_literals : list string :=
  ["Stats - Memory: {process_stats['memory_mb']:.1f}MB ";
   "({process_stats['memory_percent']:.1f}%), ";
   "CPU: {process_stats['cpu_percent']:.1f}%, ";
   "Threads: {process_stats['num_threads']}, ";
   "System Memory: {system_stats['memory_percent']:.1f}% if system_stats else 'N/A'}"].

Definition line_204 : string :=
  "System Memory: {system_stats['memory_percent']:.1f}% if system_stats else 'N/A'}".

(** What the compiler makes of the argument of the log call: the parts
    of the literals one after the other, or the error of the first
    literal it refuses. *)
Fixpoint scan_literals (literals : list string) : Res (list FString.FPart) :=
  match literals with
  | [] => Ok []
  | literal :: rest =>
      match FString.fstring_parts literal with
      | Raise e => Raise e
      | Ok parts =>
          match scan_literals rest with
          | Raise e => Raise e
          | Ok parts' => Ok (parts ++ parts')
          end
      end
  end.

Definition stats_call_parts : Res (list FString.FPart) := scan_literals stats_literals.

(** The message of the "Stats" log call under one reading of line 204.
    As shipped the line is not an f-string: its last brace closes
    nothing, and the compiler refuses it (and with it the module). Read
    with that brace as text (the literal with the brace doubled), the
    replacement field of the line is [{system_stats['memory_percent']:.1f}]
    and the words [% if system_stats else 'N/A'}] that follow are text,
    not a condition: the subscript is evaluated whether or not
    [system_stats] is [None]. [stats_message_guarded] is the other
    reading, and the methods that reach the line are also given with the
    message as a parameter ([check_service_health_with] and what
    follows). *)
Definition stats_message (process_stats : ProcessStats)
    (system_stats : option SystemStats) : Res string :=
  let head :=
    "Stats - Memory: " +:+ format_fixed 1 (memory_mb process_stats) +:+ "MB "
      +:+ "(" +:+ format_fixed 1 (memory_percent process_stats) +:+ "%), "
      +:+ "CPU: " +:+ format_fixed 1 (cpu_percent process_stats) +:+ "%, "
      +:+ "Threads: " +:+ str_int (num_threads process_stats) +:+ ", " in
  match system_stats with
  | None => Raise (mkExc TypeError "'NoneType' object is not subscriptable")
  | Some sys =>
      Ok (head +:+ "System Memory: " +:+ format_fixed 1 (sys_memory_percent sys)
            +:+ "% if system_stats else 'N/A'}")
  end.

(** [not pid] for the optional int [get_service_pid] returns. *)
Definition not_pid (pid : option Z) : bool :=
  match pid with
  | None => true
  | Some p => p =? 0
  end.

(** The branch of [check_service_health] taken when [not pid]. *)
Definition start_service (env : TickEnv) : M unit :=
  log "Service not running, attempting to start" WARNING ;;
  try_except
    (g <- get_self ;;
     emit (EvRun ["systemctl"; "start"; service_name g]) ;;
     extern (start_run env) ;;
     log "Service start attempted" INFO)
    (fun e => log ("Failed to start service: " +:+ exc_text e) ERROR).

(** The rest of [check_service_health], for a pid that is there. *)
Definition check_running (env : TickEnv) (pid : Z) : M unit :=
  process_stats <- get_process_stats env pid ;;
  match process_stats with
  | None => log "Could not get process statistics" ERROR
  | Some stats =>
      system_stats <- get_system_stats env ;;
      message <- extern (stats_message stats system_stats) ;;
      log message INFO ;;
      g <- get_self ;;
      let decision := should_restart_service g (now_policy env) stats in
      (if fst decision
       then (restart_service env (snd decision) ;; ret tt)
       else ret tt) ;;
      match system_stats with
      | Some sys =>
          if Qgtb (sys_memory_percent sys) 85 then cleanup_memory env else ret tt
      | None => ret tt
      end
  end.

Definition check_service_health (env : TickEnv) : M unit :=
  pid <- get_service_pid env ;;
  match pid with
  | Some p => if not_pid pid then start_service env else check_running env p
  | None => start_service env
  end.

Definition reset_restart_counter : M unit :=
  g <- get_self ;;
  put_self (with_restart (last_restart g) 0 g) ;;
  log "Restart counter reset" INFO.

(** [timedelta(hours=1)], in microseconds. *)
Definition one_hour : Z := 3600 * 1000000.

(** [time.sleep(seconds)] *)
Definition sleep (seconds : Z) : M unit :=
  if seconds <? 0
  then raise (mkExc ValueError "sleep length must be non-negative")
  else emit (EvSleep seconds).

(** One turn of the [while True] loop of [run_daemon]; the value is the
    local variable [last_counter_reset]. *)
Definition daemon_tick (env : TickEnv) (last_counter_reset : Z) : M Z :=
  last_counter_reset' <-
    (if now_loop env - last_counter_reset >? one_hour
     then (reset_restart_counter ;; ret (now_stamp env))
     else ret last_counter_reset) ;;
  check_service_health env ;;
  g <- get_self ;;
  sleep (check_interval g) ;;
  ret last_counter_reset'.

(** The loop, one environment for each turn; when the list is used up
    the stop signal ([KeyboardInterrupt]) arrives, which is the only way
    the loop ends without an exception. *)
Fixpoint daemon_loop (envs : list TickEnv) (last_counter_reset : Z) : M unit :=
  match envs with
  | [] => ret tt
  | env :: rest =>
      last_counter_reset' <- daemon_tick env last_counter_reset ;;
      daemon_loop rest last_counter_reset'
  end.

Inductive DaemonEnd : Type :=
| StoppedByUser
| Exit (code : Z).

(** [run_daemon]; [now_start] is the [datetime.now()] that initialises
    [last_counter_reset]. It ends with the process status. *)
Definition run_daemon (now_start : Z) (envs : list TickEnv) : M DaemonEnd :=
  g <- get_self ;;
  log ("Resource Guardian started for service: " +:+ service_name g) INFO ;;
  log ("Memory limit: " +:+ str_int (memory_limit_mb g) +:+ "MB, CPU limit: "
         +:+ str_int (cpu_limit_percent g) +:+ "%") INFO ;;
  stopped <- try_except
               (daemon_loop envs now_start ;; ret None)
               (fun e => ret (Some e)) ;;
  match stopped with
  | None =>                     (* except KeyboardInterrupt *)
      log "Resource Guardian stopped by user" INFO ;;
      ret StoppedByUser
  | Some e =>                   (* except Exception as e *)
      log ("Resource Guardian error: " +:+ exc_text e) ERROR ;;
      ret (Exit 1)              (* sys.exit(1) *)
  end.

(** *** Line 204 read as the condition it spells

    The last field of the message is the percentage when there is a
    system snapshot and [N/A] when there is none. *)
Definition stats_message_guarded (process_stats : ProcessStats)
    (system_stats : option SystemStats) : Res string :=
  let head :=
    "Stats - Memory: " +:+ format_fixed 1 (memory_mb process_stats) +:+ "MB "
      +:+ "(" +:+ format_fixed 1 (memory_percent process_stats) +:+ "%), "
      +:+ "CPU: " +:+ format_fixed 1 (cpu_percent process_stats) +:+ "%, "
      +:+ "Threads: " +:+ str_int (num_threads process_stats) +:+ ", " in
  Ok (head +:+ "System Memory: "
        +:+ match system_stats with
            | Some sys => format_fixed 1 (sys_memory_percent sys) +:+ "%"
            | None => "N/A"
            end).

(** *** The methods that reach line 204, with its message as a parameter

    [message] is what the argument of the "Stats" log call evaluates to,
    from the process statistics and the system snapshot; the rest is the
    text of [check_service_health] and [run_daemon] as above. *)
Section StatsLine.

Variable message : ProcessStats -> option SystemStats -> Res string.

Definition check_running_with (env : TickEnv) (pid : Z) : M unit :=
  process_stats <- get_process_stats env pid ;;
  match process_stats with
  | None => log "Could not get process statistics" ERROR
  | Some stats =>
      system_stats <- get_system_stats env ;;
      line <- extern (message stats system_stats) ;;
      log line INFO ;;
      g <- get_self ;;
      let decision := should_restart_service g (now_policy env) stats in
      (if fst decision
       then (restart_service env (snd decision) ;; ret tt)
       else ret tt) ;;
      match system_stats with
      | Some sys =>
          if Qgtb (sys_memory_percent sys) 85 then cleanup_memory env else ret tt
      | None => ret tt
      end
  end.

Definition check_service_health_with (env : TickEnv) : M unit :=
  pid <- get_service_pid env ;;
  match pid with
  | Some p => if not_pid pid then start_service env else check_running_with env p
  | None => start_service env
  end.

Definition daemon_tick_with (env : TickEnv) (last_counter_reset : Z) : M Z :=
  last_counter_reset' <-
    (if now_loop env - last_counter_reset >? one_hour
     then (reset_restart_counter ;; ret (now_stamp env))
     else ret last_counter_reset) ;;
  check_service_health_with env ;;
  g <- get_self ;;
  sleep (check_interval g) ;;
  ret last_counter_reset'.

Fixpoint daemon_loop_with (envs : list TickEnv) (last_counter_reset : Z) : M unit :=
  match envs with
  | [] => ret tt
  | env :: rest =>
      last_counter_reset' <- daemon_tick_with env last_counter_reset ;;
      daemon_loop_with rest last_counter_reset'
  end.

Definition run_daemon_with (now_start : Z) (envs : list TickEnv) : M DaemonEnd :=
  g <- get_self ;;
  log ("Resource Guardian started for service: " +:+ service_name g) INFO ;;
  log ("Memory limit: " +:+ str_int (memory_limit_mb g) +:+ "MB, CPU limit: "
         +:+ str_int (cpu_limit_percent g) +:+ "%") INFO ;;
  stopped <- try_except
               (daemon_loop_with envs now_start ;; ret None)
               (fun e => ret (Some e)) ;;
  match stopped with
  | None =>                     (* except KeyboardInterrupt *)
      log "Resource Guardian stopped by user" INFO ;;
      ret StoppedByUser
  | Some e =>                   (* except Exception as e *)
      log ("Resource Guardian error: " +:+ exc_text e) ERROR ;;
      ret (Exit 1)              (* sys.exit(1) *)
  end.

End StatsLine.

End Guardian.

(** ** app.py *)

Module App.

(** The dictionary both branches of [execute_command_internal] build. *)
Definition result_dict (success : bool) (out err : string) (code : Z)
  : gmap string PyVal :=
  <["success" := PBool success]>
  (<["stdout" := PStr out]>
  (<["stderr" := PStr err]>
  (<["returncode" := PInt code]> ∅))).

(** The [try] block of [execute_command_internal]. [run] is
    [subprocess.run] with its keyword arguments: the environment's
    answer to an argument vector. *)
Definition execute_command_try (run : list string -> Res Completed)
    (command_str : string) (use_sudo : bool) : Res (gmap string PyVal) :=
  let cmd := if use_sudo then "sudo" :: split command_str else split command_str in
  match run cmd with
  | Ok result =>
      Ok (result_dict (returncode result =? 0) (strip (stdout result))
            (strip (stderr result)) (returncode result))
  | Raise e => Raise e
  end.

Definition execute_command_internal (run : list string -> Res Completed)
    (command_str : string) (use_sudo : bool) : Res (gmap string PyVal) :=
  match execute_command_try run command_str use_sudo with
  | Ok d => Ok d
  | Raise e =>
      if is_TimeoutExpired e
      then Ok (result_dict false "" "Timeout" (-1))
      else Ok (result_dict false "" (exc_text e) (-1))
  end.

(** [functools.lru_cache(maxsize=32)] around
    [get_cached_command_result]: the entries, most recently used first. *)
Definition LruKey : Type := string * bool.
Definition Lru : Type := list (LruKey * gmap string PyVal).

Definition lru_maxsize : nat := 32.

Definition key_eqb (a b : LruKey) : bool :=
  String.eqb (fst a) (fst b) && Bool.eqb (snd a) (snd b).

Fixpoint lru_find (key : LruKey) (cache : Lru) : option (gmap string PyVal) :=
  match cache with
  | [] => None
  | (k, v) :: rest => if key_eqb k key then Some v else lru_find key rest
  end.

Definition lru_remove (key : LruKey) (cache : Lru) : Lru :=
  filter (fun kv => negb (key_eqb (fst kv) key)) cache.

(** A hit returns the stored result and makes the entry the most
    recent; a miss runs the function, stores its result and drops the
    least recently used entry beyond [lru_maxsize]; an exception of the
    function passes through and stores nothing. *)
Definition get_cached_command_result (run : list string -> Res Completed)
    (cache : Lru) (command_str : string) (use_sudo : bool)
  : Res (gmap string PyVal) * Lru :=
  let key := (command_str, use_sudo) in
  match lru_find key cache with
  | Some v => (Ok v, (key, v) :: lru_remove key cache)
  | None =>
      match execute_command_internal run command_str use_sudo with
      | Ok v => (Ok v, take lru_maxsize ((key, v) :: cache))
      | Raise e => (Raise e, cache)
      end
  end.

Definition execute_command (run : list string -> Res Completed) (cache : Lru)
    (command_str : string) (use_sudo use_cache : bool)
  : Res (gmap string PyVal) * Lru :=
  if use_cache then get_cached_command_result run cache command_str use_sudo
  else (execute_command_internal run command_str use_sudo, cache).

(** One call of [execute_command], with the outside world it meets. *)
Record CommandCall : Type := mkCommandCall {
  call_run : list string -> Res Completed;
  call_command : string;
  call_sudo : bool;
  call_cache : bool
}.

(** The state of the [lru_cache] after a sequence of calls, and what the
    calls returned. *)
Fixpoint execute_commands (calls : list CommandCall) (cache : Lru)
  : list (Res (gmap string PyVal)) * Lru :=
  match calls with
  | [] => ([], cache)
  | c :: rest =>
      let '(r, cache1) :=
        execute_command (call_run c) cache (call_command c) (call_sudo c)
          (call_cache c) in
      let '(rs, cache2) := execute_commands rest cache1 in
      (r :: rs, cache2)
  end.

(** The module-level cache dictionaries [{'data', 'timestamp', 'ttl'}]. *)
Record CacheDict : Type := mkCacheDict {
  data : PyVal;
  timestamp : Q;
  ttl : Q
}.

Definition _status_cache : CacheDict := {| data := PNone; timestamp := 0; ttl := 5 |}.
Definition _logs_cache : CacheDict := {| data := PNone; timestamp := 0; ttl := 10 |}.

(** [cache_dict['data'] = None]: how [api_action] invalidates a cache
    after a start, stop or restart. *)
Definition invalidate (cache_dict : CacheDict) : CacheDict :=
  {| data := PNone; timestamp := timestamp cache_dict; ttl := ttl cache_dict |}.

(** [get_cached_data(cache_dict, fetch_func, *args)]. [fetch_func] with
    its arguments is a transition of the outside world [W] that yields a
    value or raises; [now] is [time.time()]. The result is the value
    returned, the dictionary and the world afterwards. *)
Definition get_cached_data {W : Type} (cache_dict : CacheDict)
    (fetch_func : W -> Res PyVal * W) (now : Q) (w : W)
  : Res PyVal * CacheDict * W :=
  if is_none (data cache_dict)
     || Qgtb (now - timestamp cache_dict) (ttl cache_dict)
  then
    match fetch_func w with
    | (Ok v, w') =>
        (Ok v, {| data := v; timestamp := now; ttl := ttl cache_dict |}, w')
    | (Raise e, w') => (Raise e, cache_dict, w')
    end
  else (Ok (data cache_dict), cache_dict, w).

(** *** The status and log fetchers, and the routes that use them *)

(** What the module reads from the process environment when it is
    imported. *)
Record Settings : Type := mkSettings {
  FRPS_SERVICE_NAME : string;
  USE_SYSTEMD : bool;
  LOGIN_REQUIRED : bool
}.

(** [d[key]] *)
Definition getitem (d : gmap string PyVal) (key : string) : Res PyVal :=
  match d !! key with
  | Some v => Ok v
  | None => Raise (mkExc (OtherException "KeyError") ("'" +:+ key +:+ "'"))
  end.

Definition and_then {A B} (r : Res A) (k : A -> Res B) : Res B :=
  match r with
  | Ok a => k a
  | Raise e => Raise e
  end.

(** The truth value of a value, as [if], [and] and [not] take it. *)
Definition truthy (v : PyVal) : bool :=
  match v with
  | PNone => false
  | PBool b => b
  | PInt z => negb (z =? 0)
  | PFloat q => negb (Qeq_bool q 0)
  | PStr s => negb (String.eqb s "")
  | PList l => match l with [] => false | _ => true end
  | PDict d => match d with [] => false | _ => true end
  end.

(** [v == s] for a string [s]. *)
Definition eq_str (v : PyVal) (s : string) : bool :=
  match v with
  | PStr s' => String.eqb s' s
  | _ => false
  end.

(** The three cache objects of the module. *)
Record Panel : Type := mkPanel {
  status_cache : CacheDict;
  logs_cache : CacheDict;
  command_cache : Lru
}.

(** The state at import. *)
Definition initial_panel : Panel :=
  {| status_cache := _status_cache; logs_cache := _logs_cache; command_cache := [] |}.

(** What a route returns: a JSON body and a status code. *)
Inductive Body : Type :=
| JsonDict (d : gmap string PyVal)
| JsonValue (v : PyVal).

Record Response : Type := mkResponse {
  status_code : Z;
  body : Body
}.

Definition error_response (code : Z) (message : string) : Response :=
  {| status_code := code; body := JsonValue (PDict [("error", PStr message)]) |}.

(** What a route reads of the request: the session flag
    [session.get('logged_in', False)]. *)
Record Request : Type := mkRequest {
  logged_in : bool
}.

Section Panel.

Variable settings : Settings.

(** [str(v)] for a float or a container, which the model leaves open;
    [execute_command] puts neither in its dictionaries. *)
Variable str_other : PyVal -> string.

(** [str(v)], as a replacement field of an f-string formats [v]. *)
Definition py_str (v : PyVal) : string :=
  match v with
  | PNone => "None"
  | PBool true => "True"
  | PBool false => "False"
  | PInt z => str_int z
  | PStr s => s
  | PFloat _ | PList _ | PDict _ => str_other v
  end.

(** The command [fetch_frps_status] runs, and whether under sudo. *)
Definition status_command : string * bool :=
  if USE_SYSTEMD settings
  then ("systemctl is-active " +:+ FRPS_SERVICE_NAME settings, true)
  else ("pgrep -f frps", false).

Definition status_dict (active status : PyVal) (details : string) : PyVal :=
  PDict [("active", active); ("status", status); ("details", PStr details)].

(** The dictionary [fetch_frps_status] builds from the command's result. *)
Definition status_of_result (result : gmap string PyVal) : Res PyVal :=
  if USE_SYSTEMD settings then
    and_then (getitem result "stdout") (fun out =>
    Ok (status_dict (PBool (eq_str out "active")) out
          ("Service: " +:+ FRPS_SERVICE_NAME settings +:+ " | Status: "
             +:+ py_str out)))
  else
    and_then (getitem result "success") (fun success =>
    and_then (if truthy success then getitem result "stdout" else Ok success)
      (fun is_active =>
    and_then (if truthy is_active
              then and_then (getitem result "stdout")
                     (fun out => Ok ("PID: " +:+ py_str out))
              else Ok "Not running") (fun details =>
    Ok (status_dict is_active
          (PStr (if truthy is_active then "active" else "inactive")) details)))).

(** [fetch_frps_status], on the [lru_cache] of the commands. *)
Definition fetch_frps_status (run : list string -> Res Completed) (cache : Lru)
  : Res PyVal * Lru :=
  let '(r, cache') :=
    execute_command run cache (fst status_command) (snd status_command) true in
  (and_then r status_of_result, cache').

Definition logs_command (lines : Z) : string :=
  "journalctl -u " +:+ FRPS_SERVICE_NAME settings +:+ " -n " +:+ str_int lines
    +:+ " --no-pager".

Definition fetch_frps_logs (run : list string -> Res Completed) (lines : Z)
    (cache : Lru) : Res PyVal * Lru :=
  if USE_SYSTEMD settings then
    let '(r, cache') := execute_command run cache (logs_command lines) true false in
    (and_then r (fun result =>
     and_then (getitem result "success") (fun success =>
     if truthy success then getitem result "stdout"
     else and_then (getitem result "stderr")
            (fun err => Ok (PStr ("Error: " +:+ py_str err))))),
     cache')
  else (Ok (PStr "Binary mode: logs not available via journalctl"), cache).

(** [get_frps_status()]: [now] is the [time.time()] of [get_cached_data]. *)
Definition get_frps_status (run : list string -> Res Completed) (now : Q)
    (p : Panel) : Res PyVal * Panel :=
  let '(r, c, cache) :=
    get_cached_data (status_cache p) (fetch_frps_status run) now (command_cache p) in
  (r, {| status_cache := c; logs_cache := logs_cache p; command_cache := cache |}).

Definition get_frps_logs (run : list string -> Res Completed) (now : Q)
    (lines : Z) (p : Panel) : Res PyVal * Panel :=
  let '(r, c, cache) :=
    get_cached_data (logs_cache p) (fetch_frps_logs run lines) now (command_cache p) in
  (r, {| status_cache := status_cache p; logs_cache := c; command_cache := cache |}).

Definition require_auth (req : Request) : bool :=
  if negb (LOGIN_REQUIRED settings) then true else logged_in req.

(** [/api/status] *)
Definition api_status (req : Request) (run : list string -> Res Completed)
    (now : Q) (p : Panel) : Res Response * Panel :=
  if negb (require_auth req) then (Ok (error_response 401 "Unauthorized"), p)
  else
    let '(r, p') := get_frps_status run now p in
    (and_then r (fun v => Ok {| status_code := 200; body := JsonValue v |}), p').

(** [/api/logs]; [lines_arg] is [int(request.args.get('lines', 50))]. *)
Definition api_logs (req : Request) (lines_arg : Res Z)
    (run : list string -> Res Completed) (now : Q) (p : Panel)
  : Res Response * Panel :=
  if negb (require_auth req) then (Ok (error_response 401 "Unauthorized"), p)
  else
    match lines_arg with
    | Raise e => (Raise e, p)
    | Ok n =>
        let lines := Z.min n 200 in
        let '(r, p') := get_frps_logs run now lines p in
        (and_then r (fun logs =>
           Ok {| status_code := 200;
                 body := JsonValue (PDict [("success", PBool true);
                                           ("stdout", logs)]) |}),
         p')
    end.

(** The caches as [api_action] leaves them before it runs its command. *)
Definition clear_caches (p : Panel) : Panel :=
  {| status_cache := invalidate (status_cache p);
     logs_cache := invalidate (logs_cache p);
     command_cache := [] |}.

Definition start_binary : string := "nohup ./frps -c ./frps.yaml > /dev/null 2>&1 &".
Definition stop_binary : string := "pkill -f frps".

(** [/api/<action>] *)
Definition api_action (req : Request) (action : string)
    (run : list string -> Res Completed) (p : Panel) : Res Response * Panel :=
  if negb (require_auth req) then (Ok (error_response 401 "Unauthorized"), p)
  else if negb (existsb (String.eqb action) ["start"; "stop"; "restart"])
  then (Ok (error_response 400 "Invalid action"), p)
  else
    let p1 := clear_caches p in
    let cache := command_cache p1 in
    let '(result, cache') :=
      if USE_SYSTEMD settings then
        execute_command run cache
          ("systemctl " +:+ action +:+ " " +:+ FRPS_SERVICE_NAME settings) true false
      else if String.eqb action "start" then
        execute_command run cache start_binary false false
      else if String.eqb action "stop" then
        execute_command run cache stop_binary false false
      else
        (* pkill, then [time.sleep(1)], then the start command *)
        match execute_command run cache stop_binary false false with
        | (Ok _, cache1) => execute_command run cache1 start_binary false false
        | (Raise e, cache1) => (Raise e, cache1)
        end in
    (and_then result (fun d => Ok {| status_code := 200; body := JsonDict d |}),
     {| status_cache := status_cache p1; logs_cache := logs_cache p1;
        command_cache := cache' |}).

(** The handler of status 500: what the client sees when a route raises. *)
Definition respond (r : Res Response) : Response :=
  match r with
  | Ok response => response
  | Raise _ => error_response 500 "Internal server error"
  end.

End Panel.

End App.

(** ** performance_monitor.py: [lightweight_cache] *)

Module Monitor.

Section LightweightCache.

(** The results of the decorated function. *)
Context {V : Type}.

(** The arguments of the decorator. *)
Variable maxsize : Z.
Variable ttl : Q.

(** The closure's [cache]: a dict from the key string to
    [(result, timestamp)], in insertion order. *)
Definition Cache : Type := list (string * (V * Q)).

Definition keys (cache : Cache) : list string := fst <$> cache.

Fixpoint cache_get (key : string) (cache : Cache) : option (V * Q) :=
  match cache with
  | [] => None
  | (k, entry) :: rest => if String.eqb k key then Some entry else cache_get key rest
  end.

(** [del cache[key]] *)
Definition cache_del (key : string) (cache : Cache) : Cache :=
  filter (fun kv => negb (String.eqb (fst kv) key)) cache.

(** [cache[key] = entry]: in place for a key that is there, at the end
    for a new one. *)
Fixpoint cache_set (key : string) (entry : V * Q) (cache : Cache) : Cache :=
  match cache with
  | [] => [(key, entry)]
  | (k, e) :: rest =>
      if String.eqb k key then (k, entry) :: rest
      else (k, e) :: cache_set key entry rest
  end.

(** [cache[k][1]] *)
Definition cached_time (cache : Cache) (k : string) : Q :=
  match cache_get k cache with
  | Some (_, t) => t
  | None => 0
  end.

(** [sorted(l, key=f)]: ascending and stable. *)
Fixpoint insert_sorted {A} (f : A -> Q) (x : A) (l : list A) : list A :=
  match l with
  | [] => [x]
  | y :: rest =>
      if Qle_bool (f x) (f y) then x :: y :: rest
      else y :: insert_sorted f x rest
  end.

Fixpoint sorted {A} (f : A -> Q) (l : list A) : list A :=
  match l with
  | [] => []
  | x :: rest => insert_sorted f x (sorted f rest)
  end.

(** [l[:n]] *)
Definition slice_to {A} (n : Z) (l : list A) : list A :=
  if n <? 0 then take (Z.to_nat (Z.of_nat (length l) + n)) l
  else take (Z.to_nat n) l.

Definition delete_keys (ks : list string) (cache : Cache) : Cache :=
  fold_left (fun c k => cache_del k c) ks cache.

(** The block under "Limit cache size". *)
Definition limit_cache_size (cache : Cache) : Cache :=
  if Z.of_nat (length cache) >? maxsize then
    let oldest_keys :=
      slice_to (Z.of_nat (length cache) - maxsize + 1)
        (sorted (cached_time cache) (keys cache)) in
    delete_keys oldest_keys cache
  else cache.

(** One call of the wrapper: its key
    [str(args) + str(sorted(kwargs.items()))], its [time.time()], and
    what the decorated function does if it is run. *)
Record Call : Type := mkCall {
  call_key : string;
  call_time : Q;
  call_func : Res V
}.

(** The lookup at the head of [wrapper]: the cached result when it is
    still valid, else the cache with an expired entry deleted. *)
Definition cache_lookup (c : Call) (cache : Cache) : V + Cache :=
  match cache_get (call_key c) cache with
  | Some (result, timestamp) =>
      if Qltb (call_time c - timestamp) ttl then inl result
      else inr (cache_del (call_key c) cache)
  | None => inr cache
  end.

Definition wrapper (c : Call) (cache : Cache) : Res V * Cache :=
  match cache_lookup c cache with
  | inl result => (Ok result, cache)
  | inr cache1 =>
      match call_func c with
      | Raise e => (Raise e, cache1)
      | Ok result =>
          let cache2 := cache_set (call_key c) (result, call_time c) cache1 in
          (Ok result, limit_cache_size cache2)
      end
  end.

(** [wrapper.cache_clear()] *)
Definition cache_clear (cache : Cache) : Cache := [].

(** [wrapper.cache_info()['size']] *)
Definition cache_size (cache : Cache) : Z := Z.of_nat (length cache).

(** What a client can do with the decorated function. *)
Inductive Op : Type :=
| OpCall (c : Call)
| OpClear.

Definition step (cache : Cache) (op : Op) : Cache :=
  match op with
  | OpCall c => snd (wrapper c cache)
  | OpClear => cache_clear cache
  end.

(** The cache after a sequence of operations on a fresh decorator. *)
Definition run_ops (ops : list Op) : Cache := fold_left step ops [].

End LightweightCache.

End Monitor.

(** ** performance_monitor.py: [PerformanceMonitor] and
    [memory_usage_decorator] *)

Module Performance.

(** The dictionary [get_system_stats] returns. *)
Record SystemStats : Type := mkSystemStats {
  memory_total : Z;
  memory_available : Z;
  memory_percent : Q;
  cpu_percent : Q;
  timestamp : string
}.

(** The two dictionaries appended to [stats['warnings']]. *)
Inductive Warning : Type :=
| memory_warning (message : string) (timestamp : string) (memory_mb : Q)
| function_memory_warning (function : string) (memory_increase_mb : Q)
    (timestamp : string).

(** [self.stats] *)
Record Stats : Type := mkStats {
  memory_usage : list Q;
  cpu_usage : list Q;
  warnings : list Warning
}.

Record PerformanceMonitor : Type := mkMonitor {
  memory_limit : Z;
  start_time : Q;
  stats : Stats
}.

(** [__init__]; [now] is its [time.time()]. *)
Definition init (memory_limit_mb : Z) (now : Q) : PerformanceMonitor :=
  {| memory_limit := memory_limit_mb * 1024 * 1024;
     start_time := now;
     stats := {| memory_usage := []; cpu_usage := []; warnings := [] |} |}.

(** [n / 1024 / 1024] for an int [n] *)
Definition megabytes (n : Z) : Q := (inject_Z n / 1024 / 1024)%Q.

(** [rss] is the outcome of
    [psutil.Process(os.getpid()).memory_info().rss]. *)
Definition get_current_memory (rss : Res Z) : Z :=
  match rss with
  | Ok n => n
  | Raise _ => 0
  end.

(** [query] is the outcome of the [try] block. *)
Definition get_system_stats (query : Res SystemStats) : option SystemStats :=
  match query with
  | Ok system_stats => Some system_stats
  | Raise _ => None
  end.

(** [self.stats['warnings'].append(warning)] *)
Definition append_warning (warning : Warning) (self : PerformanceMonitor)
  : PerformanceMonitor :=
  {| memory_limit := memory_limit self;
     start_time := start_time self;
     stats := {| memory_usage := memory_usage (stats self);
                 cpu_usage := cpu_usage (stats self);
                 warnings := warnings (stats self) ++ [warning] |} |}.

(** [now_iso] is [datetime.now().isoformat()]. *)
Definition check_memory_usage (rss : Res Z) (now_iso : string)
    (self : PerformanceMonitor) : bool * PerformanceMonitor :=
  let current_memory := get_current_memory rss in
  if current_memory >? memory_limit self then
    let warning :=
      memory_warning
        ("Memory usage (" +:+ format_fixed 1 (megabytes current_memory)
           +:+ "MB) exceeds limit ("
           +:+ format_fixed 1 (megabytes (memory_limit self)) +:+ "MB)")
        now_iso (megabytes current_memory) in
    (false, append_warning warning self)
  else (true, self).

(** [l[-n:]] for a positive [n] *)
Definition slice_last {A} (n : nat) (l : list A) : list A :=
  drop (length l - n) l.

Definition log_stats (query : Res SystemStats) (self : PerformanceMonitor)
  : PerformanceMonitor :=
  match get_system_stats query with
  | Some system_stats =>
      let memory_usage1 := memory_usage (stats self) ++ [memory_percent system_stats] in
      let cpu_usage1 := cpu_usage (stats self) ++ [cpu_percent system_stats] in
      if (100 <? length memory_usage1)%nat then
        {| memory_limit := memory_limit self;
           start_time := start_time self;
           stats := {| memory_usage := slice_last 50 memory_usage1;
                       cpu_usage := slice_last 50 cpu_usage1;
                       warnings := warnings (stats self) |} |}
      else
        {| memory_limit := memory_limit self;
           start_time := start_time self;
           stats := {| memory_usage := memory_usage1;
                       cpu_usage := cpu_usage1;
                       warnings := warnings (stats self) |} |}
  | None => self
  end.

(** [x // y] and [x % y] on floats *)
Definition floor_div (x y : Q) : Q := inject_Z (Qfloor (x / y)%Q).
Definition float_mod (x y : Q) : Q := (x - y * floor_div x y)%Q.

(** [sum(l)] *)
Definition sum (l : list Q) : Q := fold_left Qplus l 0%Q.

(** [sum(l) / len(l)] *)
Definition average (l : list Q) : Res Q :=
  match l with
  | [] => Raise (mkExc (OtherException "ZeroDivisionError") "division by zero")
  | _ => Ok (sum l / inject_Z (Z.of_nat (length l)))%Q
  end.

(** The dictionary [get_performance_report] returns; the two averages
    are keys it sets only when there is a history. *)
Record Report : Type := mkReport {
  uptime_seconds : Q;
  uptime_formatted : string;
  current_memory_mb : Q;
  memory_limit_mb : Q;
  memory_usage_ok : bool;
  system_stats : option SystemStats;
  warnings_count : Z;
  recent_warnings : list Warning;
  avg_memory_percent : option Q;
  avg_cpu_percent : option Q
}.

(** [now] is [time.time()]. *)
Definition get_performance_report (now : Q) (rss : Res Z) (query : Res SystemStats)
    (self : PerformanceMonitor) : Res Report :=
  let uptime := (now - start_time self)%Q in
  let current_memory := get_current_memory rss in
  let report avg_memory avg_cpu :=
    {| uptime_seconds := uptime;
       uptime_formatted :=
         format_fixed 0 (floor_div uptime 3600%Q) +:+ "h "
           +:+ format_fixed 0 (floor_div (float_mod uptime 3600%Q) 60%Q) +:+ "m";
       current_memory_mb := megabytes current_memory;
       memory_limit_mb := megabytes (memory_limit self);
       memory_usage_ok := current_memory <? memory_limit self;
       system_stats := get_system_stats query;
       warnings_count := Z.of_nat (length (warnings (stats self)));
       recent_warnings :=
         match warnings (stats self) with
         | [] => []
         | _ => slice_last 5 (warnings (stats self))
         end;
       avg_memory_percent := avg_memory;
       avg_cpu_percent := avg_cpu |} in
  match memory_usage (stats self) with
  | [] => Ok (report None None)
  | _ =>
      match average (memory_usage (stats self)) with
      | Raise e => Raise e
      | Ok avg_memory =>
          match average (cpu_usage (stats self)) with
          | Raise e => Raise e
          | Ok avg_cpu => Ok (report (Some avg_memory) (Some avg_cpu))
          end
      end
  end.

(** One call of a function under [memory_usage_decorator]: its
    [__name__], what it does to the global monitor and how it ends, the
    two memory readings and the [datetime.now().isoformat()] of a
    warning. *)
Record Decorated (V : Type) : Type := mkDecorated {
  func_name : string;
  func : PerformanceMonitor -> Res V * PerformanceMonitor;
  rss_before : Res Z;
  rss_after : Res Z;
  warning_time : string
}.

Arguments func_name {V}.
Arguments func {V}.
Arguments rss_before {V}.
Arguments rss_after {V}.
Arguments warning_time {V}.

(** The [wrapper] of [memory_usage_decorator], on the global [monitor]. *)
Definition memory_usage_wrapper {V} (c : Decorated V) (monitor : PerformanceMonitor)
  : Res V * PerformanceMonitor :=
  let memory_before := get_current_memory (rss_before c) in
  match func c monitor with
  | (Raise e, monitor1) => (Raise e, monitor1)
  | (Ok result, monitor1) =>
      let memory_after := get_current_memory (rss_after c) in
      let memory_diff := memory_after - memory_before in
      if memory_diff >? 10 * 1024 * 1024 then
        (Ok result,
         append_warning
           (function_memory_warning (func_name c) (megabytes memory_diff)
              (warning_time c))
           monitor1)
      else (Ok result, monitor1)
  end.

End Performance.

(** * Vocabulary of the statements *)

Import Guardian App Monitor.

(** *** The restart decision *)

(** The conditions of the rules of [should_restart_service], as
    propositions on the numbers. *)
Definition disabled (g : ResourceGuardian) : Prop := enable_auto_restart g = false.

Definition cooling_down (g : ResourceGuardian) (now : Z) : Prop :=
  exists last, last_restart g = Some last /\
    (total_seconds (now - last) < inject_Z (restart_cooldown g))%Q.

Definition budget_spent (g : ResourceGuardian) : Prop :=
  max_restarts_per_hour g <= restart_count g.

Definition memory_exceeded (g : ResourceGuardian) (stats : ProcessStats) : Prop :=
  (inject_Z (memory_limit_mb g) < memory_mb stats)%Q.

Definition cpu_exceeded (g : ResourceGuardian) (stats : ProcessStats) : Prop :=
  (inject_Z (cpu_limit_percent g) < cpu_percent stats)%Q.

(** *** Commands and the restart state *)

Definition command_succeeded (r : Res Completed) : Prop :=
  exists result, r = Ok result /\ returncode result = 0.

Definition command_failed (r : Res Completed) : Prop :=
  (exists result, r = Ok result /\ returncode result <> 0) \/ (exists e, r = Raise e).

(** A step of the restart state: nothing, or one restart recorded at
    instant [now]. *)
Definition restart_step (now : Z) (g g' : ResourceGuardian) : Prop :=
  g' = g \/ g' = with_restart (Some now) (restart_count g + 1) g.

(** The rest of a turn of the loop once the hourly test is done. *)
Definition health_then_sleep (env : TickEnv) (last_counter_reset : Z) : M Z :=
  bind (check_service_health env) (fun _ =>
  bind get_self (fun g =>
  bind (sleep (check_interval g)) (fun _ =>
  ret last_counter_reset))).

(** The events [start_service] leaves. *)
Definition start_events (env : TickEnv) (name : string) : list Event :=
  [EvLog WARNING "Service not running, attempting to start";
   EvRun ["systemctl"; "start"; name];
   match start_run env with
   | Ok _ => EvLog INFO "Service start attempted"
   | Raise e => EvLog ERROR ("Failed to start service: " +:+ exc_text e)
   end].

(** An event of a step that comes after PID resolution when the service
    runs: a statistics query, the "Stats" line, a restart, a cleanup. *)
Definition later_step_event (e : Event) : bool :=
  match e with
  | EvProcess _ | EvSystem | EvOpen _ | EvSleep _ => true
  | EvRun argv =>
      match argv with
      | ["systemctl"; "restart"; _] | ["sync"] | ["echo"; "3"] => true
      | _ => false
      end
  | EvLog _ message =>
      String.prefix "Stats - " message
      || String.prefix "Could not get process statistics" message
      || String.prefix "Error getting" message
      || String.prefix "Restarting service" message
      || String.prefix "Service restart" message
      || String.prefix "Error restarting service" message
      || String.prefix "Memory cleanup" message
  end.

(** *** The panel *)

Definition result_keys : gset string :=
  {["success"; "stdout"; "stderr"; "returncode"]}.

(** A dictionary with the four keys and these values under them. *)
Definition is_result (d : gmap string PyVal) (success : bool) (out err : string)
    (code : Z) : Prop :=
  dom d = result_keys
  /\ d !! "success" = Some (PBool success)
  /\ d !! "stdout" = Some (PStr out)
  /\ d !! "stderr" = Some (PStr err)
  /\ d !! "returncode" = Some (PInt code).

(** [subprocess.run]'s argument vector. *)
Definition argv (command_str : string) (use_sudo : bool) : list string :=
  if use_sudo then "sudo" :: split command_str else split command_str.

(** Every result the [lru_cache] holds was returned by
    [execute_command_internal]. *)
Definition lru_ok (cache : Lru) : Prop :=
  Forall (fun kv => dom (snd kv) = result_keys) cache.

(** "Within the TTL window": the test [(now - timestamp) > ttl] fails. *)
Definition fresh (c : CacheDict) (now : Q) : Prop :=
  (now - timestamp c <= ttl c)%Q.

Definition expired (c : CacheDict) (now : Q) : Prop :=
  (ttl c < now - timestamp c)%Q.

(** *** The monitor's cache *)

(** The order [sorted] sorts by. *)
Definition by_time {A} (f : A -> Q) (a b : A) : Prop := (f a <= f b)%Q.

(** The keys [limit_cache_size] deletes from a cache over the limit. *)
Definition oldest_keys {V : Type} (maxsize : Z) (cache : @Cache V) : list string :=
  take (Z.to_nat (cache_size cache - maxsize + 1))
    (sorted (cached_time cache) (keys cache)).

(** The invariant of the wrapper: distinct keys, and no more than
    [maxsize] of them. *)
Definition bounded {V : Type} (maxsize : Z) (cache : @Cache V) : Prop :=
  NoDup (keys cache) /\ cache_size cache <= maxsize.

(** The eviction in the words of the specification: as long as the
    cache is over the limit, the entry with the oldest timestamp goes. *)
Fixpoint evict_until_bound {V : Type} (rounds : nat) (maxsize : Z) (cache : @Cache V)
  : @Cache V :=
  match rounds with
  | O => cache
  | S n =>
      if cache_size cache >? maxsize then
        match sorted (cached_time cache) (keys cache) with
        | k :: _ => evict_until_bound n maxsize (cache_del k cache)
        | [] => cache
        end
      else cache
  end.

Definition evicted_until_the_bound_holds {V : Type} (maxsize : Z) (cache : @Cache V)
  : @Cache V :=
  evict_until_bound (length cache) maxsize cache.

(** ** Sample inputs *)

Definition guardian_100mb : ResourceGuardian :=
  {| max_restarts_per_hour := 3; enable_auto_restart := true;
     enable_memory_cleanup := true; service_name := "frp-web-lite";
     memory_limit_mb := 100; cpu_limit_percent := 80; check_interval := 30;
     restart_cooldown := 300; last_restart := None; restart_count := 0 |}.

Definition stats_of (memory cpu : Q) : ProcessStats :=
  {| memory_mb := memory; memory_percent := 32 # 10; cpu_percent := cpu;
     num_threads := 4; status := "running" |}.

Definition completed (code : Z) : Res Completed :=
  Ok {| returncode := code; stdout := ""; stderr := "" |}.

(** A tick in which everything answers: the service runs as pid 1234 with
    the given readings, system memory is at [sys_mem] percent, and every
    command exits with [code]. *)
Definition env_running (memory cpu sys_mem : Q) (code : Z) : TickEnv :=
  {| now_loop := 0; now_stamp := 0;
     main_pid := Ok 1234;
     process_query := fun _ => Ok (stats_of memory cpu);
     system_query := Ok {| sys_memory_total_mb := 512; sys_memory_available_mb := 100;
                           sys_memory_percent := sys_mem; sys_cpu_percent := 10;
                           sys_disk_free_gb := 5; sys_disk_percent := 50 |};
     now_policy := 0;
     restart_run := completed code;
     now_restart := 77;
     start_run := completed code;
     sync_run := completed code;
     drop_caches_open := Ok tt;
     drop_caches_run := completed code |}.

Definition state_100mb : State := {| self := guardian_100mb; trace := [] |}.

(** A tick in which [systemctl show] reports pid 0: the service is down. *)
Definition env_down : TickEnv :=
  {| now_loop := 0; now_stamp := 0;
     main_pid := Ok 0;
     process_query := fun _ => Ok (stats_of 150 95);
     system_query := Raise (mkExc (OtherException "OSError") "no /proc");
     now_policy := 0;
     restart_run := completed 0;
     now_restart := 77;
     start_run := completed 0;
     sync_run := completed 0;
     drop_caches_open := Ok tt;
     drop_caches_run := completed 0 |}.

(** A tick in which the service runs as pid 1234 within its limits and
    the system statistics cannot be collected. *)
Definition env_no_system_stats : TickEnv :=
  {| now_loop := 0; now_stamp := 0;
     main_pid := Ok 1234;
     process_query := fun _ => Ok (stats_of 50 10);
     system_query := Raise (mkExc (OtherException "OSError") "no /proc");
     now_policy := 0;
     restart_run := completed 0;
     now_restart := 77;
     start_run := completed 0;
     sync_run := completed 0;
     drop_caches_open := Ok tt;
     drop_caches_run := completed 0 |}.

(** A guardian that has used its three restarts, the last one long ago. *)
Definition state_budget_spent : State :=
  {| self := with_restart (Some 0) 3 guardian_100mb; trace := [] |}.

(** A tick at instant [now] (microseconds) in which the service is at
    150 MB, over its limit of 100 MB. *)
Definition env_at (now : Z) : TickEnv :=
  {| now_loop := now; now_stamp := now + 1;
     main_pid := Ok 1234;
     process_query := fun _ => Ok (stats_of 150 10);
     system_query := Ok {| sys_memory_total_mb := 512; sys_memory_available_mb := 100;
                           sys_memory_percent := 50; sys_cpu_percent := 10;
                           sys_disk_free_gb := 5; sys_disk_percent := 50 |};
     now_policy := now + 2;
     restart_run := completed 0;
     now_restart := now + 3;
     start_run := completed 0;
     sync_run := completed 0;
     drop_caches_open := Ok tt;
     drop_caches_run := completed 0 |}.

(** A fetch function that returns a different value at each call: the
    values of the list [vs] in turn, the world being the number of calls
    made so far. *)
Definition fetch_nth (vs : list PyVal) (calls : nat) : Res PyVal * nat :=
  (Ok (nth calls vs PNone), S calls).

Definition call_at (key : string) (time : Q) (value : Z) : @Op Z :=
  OpCall {| call_key := key; call_time := time; call_func := Ok value |}.

(** A configuration file that sets two of the eight fields. *)
Definition partial_file : ConfigEnv :=
  {| path_exists := true; open_file := Ok tt;
     json_load := Ok (PDict [("memory_limit_mb", PInt 100);
                             ("enable_memory_cleanup", PBool false)]) |}.

(** ** Proof automation *)

Ltac unfold_m :=
  unfold check_service_health, check_running, start_service, restart_service,
    cleanup_memory, get_system_stats, get_process_stats, get_service_pid,
    reset_restart_counter, sleep, log, bind, ret, raise, try_except, extern,
    get_self, put_self, emit in *.

(** Case analysis on whatever the computation branches on next. *)
Ltac next_case :=
  match goal with
  | |- context [match ?x with _ => _ end] =>
      lazymatch x with
      | context [match _ with _ => _ end] => fail
      | _ => destruct x eqn:?
      end
  end.

Ltac run_m := unfold_m; simpl; repeat (next_case; simpl in *; try discriminate).

(** *** One tick, seen from outside *)

(** A state with the attributes [g] and nothing logged yet. *)
Definition fresh_state (g : ResourceGuardian) : State := {| self := g; trace := [] |}.

(** A computation whose outcome, attributes and new events depend on the
    attributes it starts from and not on the events already in the
    trace, to which it only appends. *)
Definition framed {A} (m : M A) : Prop :=
  forall st,
    m st = (fst (m (fresh_state (self st))),
            {| self := self (snd (m (fresh_state (self st))));
               trace := trace st ++ trace (snd (m (fresh_state (self st)))) |}).

(** What [check_service_health] does, for a guardian with attributes [g]
    in the world [env]: how it ends, the attributes afterwards and the
    events of the tick. *)
Definition health_outcome (env : TickEnv) (g : ResourceGuardian) : Res unit :=
  fst (check_service_health env (fresh_state g)).

Definition health_self (env : TickEnv) (g : ResourceGuardian) : ResourceGuardian :=
  self (snd (check_service_health env (fresh_state g))).

Definition health_events (env : TickEnv) (g : ResourceGuardian) : list Event :=
  trace (snd (check_service_health env (fresh_state g))).

(** The restart command of the service [name]. *)
Definition restart_command (name : string) : Event :=
  EvRun ["systemctl"; "restart"; name].

(** [g'] has the configuration of [g]: it differs at most in
    [last_restart] and [restart_count]. *)
Definition same_config (g g' : ResourceGuardian) : Prop :=
  g' = with_restart (last_restart g') (restart_count g') g.

(** The PID query of the service [name]. *)
Definition show_command (name : string) : Event :=
  EvRun ["systemctl"; "show"; "--property"; "MainPID"; "--value"; name].

(** [st] with the events [evs] after its own. *)
Definition add_events (evs : list Event) (st : State) : State :=
  {| self := self st; trace := trace st ++ evs |}.

(** The end of [check_service_health] once both snapshots are there and
    the "Stats" line is logged: the restart decision with its restart,
    then the cleanup check. *)
Definition act_on_stats (env : TickEnv) (stats : ProcessStats) (sys : SystemStats)
  : M unit :=
  bind get_self (fun g =>
  bind (if fst (should_restart_service g (now_policy env) stats)
        then bind (restart_service env
                     (snd (should_restart_service g (now_policy env) stats)))
                  (fun _ => ret tt)
        else ret tt) (fun _ =>
  if Qgtb (sys_memory_percent sys) 85 then cleanup_memory env else ret tt)).

(** The message of the "Stats" line when both snapshots are there. *)
Definition stats_line (stats : ProcessStats) (sys : SystemStats) : string :=
  match stats_message stats (Some sys) with
  | Ok message => message
  | Raise _ => ""
  end.

(** The events of a restart attempt for the reason [reason]. *)
Definition restart_events (env : TickEnv) (name reason : string) : list Event :=
  [EvLog WARNING ("Restarting service: " +:+ reason);
   restart_command name;
   match restart_run env with
   | Ok result =>
       if returncode result =? 0
       then EvLog INFO "Service restarted successfully"
       else EvLog ERROR ("Service restart failed: " +:+ stderr result)
   | Raise e => EvLog ERROR ("Error restarting service: " +:+ exc_text e)
   end].

(** The events of [cleanup_memory] when cleanup is enabled: the commands
    up to the first that fails, then one log line. *)
Definition cleanup_events (env : TickEnv) : list Event :=
  EvRun ["sync"] ::
  match sync_run env with
  | Raise e => [EvLog ERROR ("Memory cleanup failed: " +:+ exc_text e)]
  | Ok _ =>
      EvOpen "/proc/sys/vm/drop_caches" ::
      match drop_caches_open env with
      | Raise e => [EvLog ERROR ("Memory cleanup failed: " +:+ exc_text e)]
      | Ok _ =>
          EvRun ["echo"; "3"] ::
          match drop_caches_run env with
          | Raise e => [EvLog ERROR ("Memory cleanup failed: " +:+ exc_text e)]
          | Ok _ => [EvLog INFO "Memory cleanup performed"]
          end
      end
  end.

(** The attributes after a restart attempt. *)
Definition restarted (env : TickEnv) (g : ResourceGuardian) : ResourceGuardian :=
  match restart_run env with
  | Ok result =>
      if returncode result =? 0
      then with_restart (Some (now_restart env)) (restart_count g + 1) g
      else g
  | Raise _ => g
  end.

(** The events of the restart step: an attempt when the decision is to
    restart, nothing otherwise. *)
Definition decision_events (env : TickEnv) (g : ResourceGuardian)
    (stats : ProcessStats) : list Event :=
  if fst (should_restart_service g (now_policy env) stats)
  then restart_events env (service_name g)
         (snd (should_restart_service g (now_policy env) stats))
  else [].

(** The events of the cleanup check. *)
Definition cleanup_check_events (env : TickEnv) (g : ResourceGuardian)
    (sys : SystemStats) : list Event :=
  if Qgtb (sys_memory_percent sys) 85
  then (if enable_memory_cleanup g then cleanup_events env else [])
  else [].

(** The attributes at the health check of a turn of the loop: those the
    hourly test leaves. *)
Definition after_hourly_test (env : TickEnv) (last_counter_reset : Z)
    (g : ResourceGuardian) : ResourceGuardian :=
  if now_loop env - last_counter_reset >? one_hour
  then with_restart (last_restart g) 0 g
  else g.

(** The two lines [run_daemon] logs before the loop. *)
Definition banner (g : ResourceGuardian) : list Event :=
  [EvLog INFO ("Resource Guardian started for service: " +:+ service_name g);
   EvLog INFO ("Memory limit: " +:+ str_int (memory_limit_mb g) +:+ "MB, CPU limit: "
                 +:+ str_int (cpu_limit_percent g) +:+ "%")].

(** A tick in which the process is gone by the time it is sampled. *)
Definition env_vanished : TickEnv :=
  {| now_loop := 0; now_stamp := 0;
     main_pid := Ok 1234;
     process_query := fun _ => Raise (mkExc NoSuchProcess "process no longer exists");
     system_query := Raise (mkExc (OtherException "OSError") "no /proc");
     now_policy := 0;
     restart_run := completed 0;
     now_restart := 77;
     start_run := completed 0;
     sync_run := completed 0;
     drop_caches_open := Ok tt;
     drop_caches_run := completed 0 |}.

(** *** A tick, whatever the "Stats" line says *)

(** The system snapshot of a tick, as [get_system_stats] returns it, and
    the events of collecting it. *)
Definition snapshot (env : TickEnv) : option SystemStats :=
  match system_query env with
  | Ok sys => Some sys
  | Raise _ => None
  end.

Definition snapshot_events (env : TickEnv) : list Event :=
  EvSystem ::
  match system_query env with
  | Ok _ => []
  | Raise e => [EvLog ERROR ("Error getting system stats: " +:+ exc_text e)]
  end.

(** The tick reaches the "Stats" log call, and building its message
    raises. *)
Definition stats_line_fails (message : ProcessStats -> option SystemStats -> Res string)
    (env : TickEnv) : Prop :=
  exists pid stats,
    main_pid env = Ok pid /\ pid > 0
    /\ process_query env pid = Ok stats
    /\ raised (message stats (snapshot env)) = true.

(** The end of [check_service_health] once the "Stats" line is logged,
    for a snapshot that may be missing. *)
Definition act_on_snapshot (env : TickEnv) (stats : ProcessStats)
    (system_stats : option SystemStats) : M unit :=
  bind get_self (fun g =>
  bind (if fst (should_restart_service g (now_policy env) stats)
        then bind (restart_service env
                     (snd (should_restart_service g (now_policy env) stats)))
                  (fun _ => ret tt)
        else ret tt) (fun _ =>
  match system_stats with
  | Some sys => if Qgtb (sys_memory_percent sys) 85 then cleanup_memory env else ret tt
  | None => ret tt
  end)).

Definition snapshot_cleanup_events (env : TickEnv) (g : ResourceGuardian)
    (system_stats : option SystemStats) : list Event :=
  match system_stats with
  | Some sys => cleanup_check_events env g sys
  | None => []
  end.



(** *** Configuration files *)

(** A JSON array of [[key, value]] pairs. *)
Definition pairs (items : list (string * PyVal)) : list PyVal :=
  map (fun kv => PList [PStr (fst kv); snd kv]) items.

(** A file that holds an array: one pair, then a number. *)
Definition array_file : ConfigEnv :=
  {| path_exists := true; open_file := Ok tt;
     json_load := Ok (PList (pairs [("memory_limit_mb", PInt 1)] ++ [PInt 5])) |}.

(** *** The panel's caches *)

(** A result of [execute_command_internal]: the four keys, strings under
    [stdout] and [stderr], and [success] true exactly when [returncode]
    is 0. *)
Definition command_result (d : gmap string PyVal) : Prop :=
  exists out err code, d = result_dict (code =? 0) out err code.

(** Every result the [lru_cache] holds is one. *)
Definition lru_results (cache : Lru) : Prop :=
  Forall (fun kv => command_result (snd kv)) cache.

(** The [lru_cache] holds the result [v] under [key], with at most [m]
    entries used more recently. *)
Definition held (key : LruKey) (v : gmap string PyVal) (m : nat) (cache : Lru) : Prop :=
  exists front back,
    cache = front ++ (key, v) :: back
    /\ lru_find key front = None
    /\ (length front <= m)%nat.

(** *** Requests to the panel *)

(** The request passes [require_auth] and names one of the three
    actions: [api_action] goes on to clear the caches and run a
    command. *)
Definition accepted (settings : Settings) (req : Request) (action : string) : bool :=
  require_auth settings req
  && existsb (String.eqb action) ["start"; "stop"; "restart"].

(** One request to a route, with the outside world it meets. *)
Inductive RouteCall : Type :=
| GetStatus (req : Request) (run : list string -> Res Completed) (now : Q)
| GetLogs (req : Request) (lines_arg : Res Z) (run : list string -> Res Completed)
    (now : Q)
| PostAction (req : Request) (action : string) (run : list string -> Res Completed).

Definition serve (settings : Settings) (str_other : PyVal -> string) (c : RouteCall)
    (p : Panel) : Res Response * Panel :=
  match c with
  | GetStatus req run now => api_status settings str_other req run now p
  | GetLogs req lines_arg run now => api_logs settings str_other req lines_arg run now p
  | PostAction req action run => api_action settings req action run p
  end.

(** The requests one after the other: what each returned, and the caches
    at the end. *)
Fixpoint serve_all (settings : Settings) (str_other : PyVal -> string)
    (calls : list RouteCall) (p : Panel) : list (Res Response) * Panel :=
  match calls with
  | [] => ([], p)
  | c :: rest =>
      let '(r, p1) := serve settings str_other c p in
      let '(rs, p2) := serve_all settings str_other rest p1 in
      (r :: rs, p2)
  end.

(** A request that is not an accepted action. *)
Definition no_action (settings : Settings) (c : RouteCall) : Prop :=
  match c with
  | PostAction req action _ => accepted settings req action = false
  | _ => True
  end.

(** The [lru_cache] holds a result of the status command from which
    [fetch_frps_status] comes to [x], and [_status_cache] holds nothing
    else. *)
Definition frozen (settings : Settings) (str_other : PyVal -> string)
    (x : Res PyVal) (p : Panel) : Prop :=
  exists r,
    lru_find (status_command settings) (command_cache p) = Some r
    /\ status_of_result settings str_other r = x
    /\ (data (status_cache p) = PNone \/ Ok (data (status_cache p)) = x).

(** The command [api_action] runs last. *)
Definition action_command (settings : Settings) (action : string) : string * bool :=
  if USE_SYSTEMD settings
  then ("systemctl " +:+ action +:+ " " +:+ FRPS_SERVICE_NAME settings, true)
  else if String.eqb action "stop" then (stop_binary, false)
  else (start_binary, false).

(** Sample settings: a systemd unit behind a login, and a bare binary. *)
Definition systemd_settings : Settings :=
  {| FRPS_SERVICE_NAME := "frps"; USE_SYSTEMD := true; LOGIN_REQUIRED := true |}.

Definition binary_settings : Settings :=
  {| FRPS_SERVICE_NAME := "frps"; USE_SYSTEMD := false; LOGIN_REQUIRED := false |}.

(** A [str] for the values the panel never formats. *)
Definition no_str (_ : PyVal) : string := "".

(** A request with a session that is logged in. *)
Definition user : Request := {| logged_in := true |}.

(** An outside world where every command prints [out] and exits with
    [code]. *)
Definition answering (out : string) (code : Z) (_ : list string) : Res Completed :=
  Ok {| returncode := code; stdout := out; stderr := "" |}.

(** *** The performance monitor *)

(** What a client does with a monitor between two reports. *)
Inductive MonitorOp : Type :=
| LogStats (query : Res Performance.SystemStats)
| CheckMemory (rss : Res Z) (now_iso : string).

Definition monitor_step (self : Performance.PerformanceMonitor) (op : MonitorOp)
  : Performance.PerformanceMonitor :=
  match op with
  | LogStats query => Performance.log_stats query self
  | CheckMemory rss now_iso => snd (Performance.check_memory_usage rss now_iso self)
  end.

(** A monitor made at [now] after a sequence of operations. *)
Definition monitor_run (memory_limit_mb : Z) (now : Q) (ops : list MonitorOp)
  : Performance.PerformanceMonitor :=
  fold_left monitor_step ops (Performance.init memory_limit_mb now).

(** The readings [log_stats] took, oldest first: a call whose
    [get_system_stats] failed took none. *)
Definition readings (ops : list MonitorOp) : list Performance.SystemStats :=
  omap (fun op => match op with
                  | LogStats (Ok system_stats) => Some system_stats
                  | _ => None
                  end) ops.

(** The checks that found the process over [limit] bytes. *)
Definition over_limit (limit : Z) (op : MonitorOp) : bool :=
  match op with
  | CheckMemory rss _ => Performance.get_current_memory rss >? limit
  | LogStats _ => false
  end.

(** The two histories have the same length. *)
Definition aligned (self : Performance.PerformanceMonitor) : Prop :=
  length (Performance.memory_usage (Performance.stats self))
  = length (Performance.cpu_usage (Performance.stats self)).

Definition reading (memory cpu : Q) : Res Performance.SystemStats :=
  Ok {| Performance.memory_total := 512 * 1024 * 1024;
        Performance.memory_available := 256 * 1024 * 1024;
        Performance.memory_percent := memory;
        Performance.cpu_percent := cpu;
        Performance.timestamp := "2024-01-01T00:00:00" |}.

(** * Properties *)

(** ** Comparisons *)

Lemma Qltb_spec (x y : Q) : Qltb x y = true <-> (x < y)%Q.
Proof. unfold Qltb, Qlt. apply Z.ltb_lt. Qed.

Lemma Qltb_false (x y : Q) : Qltb x y = false <-> (y <= x)%Q.
Proof. unfold Qltb, Qle. apply Z.ltb_ge. Qed.

Lemma Qgtb_spec (x y : Q) : Qgtb x y = true <-> (y < x)%Q.
Proof. apply Qltb_spec. Qed.

Lemma Qgtb_false (x y : Q) : Qgtb x y = false <-> (x <= y)%Q.
Proof. apply Qltb_false. Qed.

(** ** The restart decision *)

Section RestartPolicy.

Variable g : ResourceGuardian.
Variable now : Z.
Variable stats : ProcessStats.

Lemma cooling_down_dec : cooling_down g now \/ ~ cooling_down g now.
Proof.
  unfold cooling_down. destruct (last_restart g) as [last|].
  - destruct (Qltb (total_seconds (now - last)) (inject_Z (restart_cooldown g))) eqn:E.
    + left. exists last. split; [reflexivity | now apply Qltb_spec].
    + right. intros (l & Hl & Hlt). injection Hl as <-.
      apply Qltb_spec in Hlt. congruence.
  - right. intros (l & Hl & _). discriminate.
Qed.

(** Rule (a). *)
Lemma decision_disabled :
  disabled g -> should_restart_service g now stats = (false, "Auto-restart disabled").
Proof. unfold disabled, should_restart_service. now intros ->. Qed.

(** Rule (b). *)
Lemma decision_cooldown (last : Z) :
  ~ disabled g -> last_restart g = Some last ->
  (total_seconds (now - last) < inject_Z (restart_cooldown g))%Q ->
  should_restart_service g now stats =
    (false, cooldown_reason (restart_cooldown g) (total_seconds (now - last))).
Proof.
  unfold disabled, should_restart_service. intros Hen Hlast Hlt.
  destruct (enable_auto_restart g); [simpl | congruence].
  rewrite Hlast. apply Qltb_spec in Hlt. now rewrite Hlt.
Qed.

(** Past rules (a) and (b), the decision is that of the last four
    tests. *)
Lemma decision_past_cooldown :
  ~ disabled g -> ~ cooling_down g now ->
  should_restart_service g now stats =
    if restart_count g >=? max_restarts_per_hour g
    then (false, "Maximum restarts per hour reached")
    else if Qgtb (memory_mb stats) (inject_Z (memory_limit_mb g))
    then (true, memory_reason stats (memory_limit_mb g))
    else if Qgtb (cpu_percent stats) (inject_Z (cpu_limit_percent g))
    then (true, cpu_reason stats (cpu_limit_percent g))
    else (false, "All metrics within limits").
Proof.
  unfold disabled, cooling_down, should_restart_service. intros Hen Hcool.
  destruct (enable_auto_restart g); [simpl | congruence].
  destruct (last_restart g) as [last|]; [| reflexivity].
  destruct (Qltb _ _) eqn:E; [| reflexivity].
  exfalso. apply Hcool. exists last. split; [reflexivity | now apply Qltb_spec].
Qed.


End RestartPolicy.



(** The scenarios of the specification. *)
Example scenario_memory_over_limit :
  should_restart_service guardian_100mb 0 (stats_of 150 10)
  = (true, "Memory usage (150.0MB) exceeds limit (100MB)").
Proof. vm_compute. reflexivity. Qed.

Example scenario_within_limits :
  should_restart_service guardian_100mb 0 (stats_of 50 10)
  = (false, "All metrics within limits").
Proof. vm_compute. reflexivity. Qed.

Example scenario_cooldown :
  should_restart_service (with_restart (Some 0) 1 guardian_100mb) 500000
    (stats_of 150 95)
  = (false, "Restart cooldown active (300s remaining)").
Proof. vm_compute. reflexivity. Qed.

(** ** How the methods act on the state *)

Lemma command_outcome (r : Res Completed) : command_succeeded r \/ command_failed r.
Proof.
  destruct r as [result | e].
  - destruct (Z.eq_dec (returncode result) 0).
    + left. now exists result.
    + right. left. now exists result.
  - right. right. now exists e.
Qed.

Lemma get_service_pid_run (env : TickEnv) (st : State) :
  get_service_pid env st =
    (Ok match main_pid env with
        | Ok pid => if pid >? 0 then Some pid else None
        | Raise _ => None
        end,
     {| self := self st;
        trace := trace st ++ [EvRun ["systemctl"; "show"; "--property"; "MainPID";
                                     "--value"; service_name (self st)]] |}).
Proof. unfold_m. simpl. now destruct (main_pid env). Qed.

Lemma get_process_stats_self (env : TickEnv) (pid : Z) (st : State) :
  self (snd (get_process_stats env pid st)) = self st.
Proof. run_m; reflexivity. Qed.

Lemma get_system_stats_self (env : TickEnv) (st : State) :
  self (snd (get_system_stats env st)) = self st.
Proof. run_m; reflexivity. Qed.

Lemma cleanup_memory_self (env : TickEnv) (st : State) :
  self (snd (cleanup_memory env st)) = self st.
Proof. run_m; reflexivity. Qed.

Lemma start_service_self (env : TickEnv) (st : State) :
  self (snd (start_service env st)) = self st.
Proof. run_m; reflexivity. Qed.

Lemma restart_service_failed (env : TickEnv) (reason : string) (st : State) :
  command_failed (restart_run env) ->
  fst (restart_service env reason st) = Ok false
  /\ self (snd (restart_service env reason st)) = self st.
Proof.
  intros [(result & Hrun & Hcode) | (e & Hrun)]; unfold_m; simpl; rewrite Hrun.
  - apply Z.eqb_neq in Hcode. rewrite Hcode. now simpl.
  - now simpl.
Qed.

Lemma restart_service_succeeded (env : TickEnv) (reason : string) (st : State) :
  command_succeeded (restart_run env) ->
  fst (restart_service env reason st) = Ok true
  /\ self (snd (restart_service env reason st))
     = with_restart (Some (now_restart env)) (restart_count (self st) + 1) (self st).
Proof.
  intros (result & Hrun & Hcode). unfold_m. simpl. rewrite Hrun, Hcode. now simpl.
Qed.

Lemma restart_service_step (env : TickEnv) (reason : string) (st : State) :
  restart_step (now_restart env) (self st) (self (snd (restart_service env reason st))).
Proof.
  destruct (command_outcome (restart_run env)) as [H | H].
  - right. now apply restart_service_succeeded.
  - left. now apply restart_service_failed.
Qed.

Lemma check_service_health_step (env : TickEnv) (st : State) :
  restart_step (now_restart env) (self st) (self (snd (check_service_health env st))).
Proof.
  unfold restart_step. run_m; auto.
Qed.

Lemma reset_restart_counter_run (st : State) :
  reset_restart_counter st =
    (Ok tt,
     {| self := with_restart (last_restart (self st)) 0 (self st);
        trace := trace st ++ [EvLog INFO "Restart counter reset"] |}).
Proof. reflexivity. Qed.

(** The end of a turn: the sleep does not touch the attributes, and the
    turn yields the reset time it was given unless something raised. *)
Lemma health_then_sleep_run (env : TickEnv) (l : Z) (st : State) :
  self (snd (health_then_sleep env l st)) = self (snd (check_service_health env st))
  /\ (fst (health_then_sleep env l st) = Ok l \/ raised (fst (health_then_sleep env l st)) = true).
Proof.
  unfold health_then_sleep, bind.
  destruct (check_service_health env st) as [[[] | e] st']; simpl; [| auto].
  unfold get_self, sleep, ret, raise, emit.
  destruct (check_interval (self st') <? 0); simpl; auto.
Qed.

(** ** Restart execution *)

(** C2. [restart_service]: when the restart command fails (an exit
    status that is not zero, or an exception), the call returns [False]
    and leaves [last_restart] and [restart_count] as they were; when the
    command succeeds (exit status zero), the call returns [True], sets
    [last_restart] to the current time and adds exactly one to
    [restart_count]. *)
Theorem restart_service_advances_on_success_only (env : TickEnv)
    (reason : string) (st : State) :
  let out := restart_service env reason st in
  (command_failed (restart_run env) ->
     fst out = Ok false
     /\ last_restart (self (snd out)) = last_restart (self st)
     /\ restart_count (self (snd out)) = restart_count (self st))
  /\ (command_succeeded (restart_run env) ->
     fst out = Ok true
     /\ last_restart (self (snd out)) = Some (now_restart env)
     /\ restart_count (self (snd out)) = restart_count (self st) + 1).
Proof.
  simpl. split; intros H.
  - destruct (restart_service_failed env reason st H) as [Hr Hs].
    now rewrite Hr, Hs.
  - destruct (restart_service_succeeded env reason st H) as [Hr Hs].
    now rewrite Hr, Hs.
Qed.

Lemma restart_service_advances_on_success_only_witness :
  last_restart (self (snd (restart_service (env_running 150 10 50 1) "r" state_100mb)))
    = None
  /\ restart_count (self (snd (restart_service (env_running 150 10 50 0) "r" state_100mb)))
    = 1.
Proof.
  split.
  - destruct (restart_service_advances_on_success_only
                (env_running 150 10 50 1) "r" state_100mb) as [Hfail _].
    destruct Hfail as (_ & Hlast & _).
    + left. eexists. split; [reflexivity | simpl; lia].
    + rewrite Hlast. reflexivity.
  - destruct (restart_service_advances_on_success_only
                (env_running 150 10 50 0) "r" state_100mb) as [_ Hok].
    destruct Hok as (_ & _ & Hcount).
    + eexists. split; reflexivity.
    + rewrite Hcount. reflexivity.
Defined.

(** ** The health check of one tick *)

(** C5. When PID resolution returns absent, [check_service_health] logs
    a WARNING, issues the start command, logs how the start went, and
    returns: the guardian's attributes are unchanged, and the tick leaves
    no event of a later step (no process or system statistics query, no
    "Stats" line, no restart, no cleanup). What the tick does depends on
    the outcome of the PID query and of the start command alone: the
    readings, the clock and the other commands of the tick have no part
    in it. *)
Theorem absent_pid_starts_and_skips (env : TickEnv) (st : State) :
  fst (get_service_pid env st) = Ok None ->
  let name := service_name (self st) in
  let events :=
    EvRun ["systemctl"; "show"; "--property"; "MainPID"; "--value"; name]
      :: start_events env name in
  check_service_health env st
    = (Ok tt, {| self := self st; trace := trace st ++ events |})
  /\ In (EvLog WARNING "Service not running, attempting to start") events
  /\ In (EvRun ["systemctl"; "start"; name]) events
  /\ forallb (fun e => negb (later_step_event e)) events = true
  /\ (forall env' : TickEnv,
        main_pid env' = main_pid env -> start_run env' = start_run env ->
        check_service_health env' st = check_service_health env st).
Proof.
  rewrite get_service_pid_run. simpl. intros Hpid. injection Hpid as Hpid.
  assert (Hrun : forall env0 : TickEnv,
             main_pid env0 = main_pid env -> start_run env0 = start_run env ->
             check_service_health env0 st
             = (Ok tt,
                {| self := self st;
                   trace := trace st ++
                     EvRun ["systemctl"; "show"; "--property"; "MainPID"; "--value";
                            service_name (self st)]
                     :: start_events env (service_name (self st)) |})).
  { intros env0 Hmain Hstart.
    unfold check_service_health, bind. rewrite get_service_pid_run, Hmain, Hpid.
    unfold start_events. rewrite <- Hstart.
    run_m; rewrite <- !app_assoc; reflexivity. }
  split; [| split; [| split; [| split]]].
  - now apply Hrun.
  - simpl. auto.
  - simpl. auto.
  - unfold start_events. simpl. destruct (start_run env); reflexivity.
  - intros env' Hmain Hstart. rewrite (Hrun env) by reflexivity. now apply Hrun.
Qed.

Lemma absent_pid_starts_and_skips_witness :
  check_service_health env_down state_100mb
  = (Ok tt,
     {| self := guardian_100mb;
        trace := [EvRun ["systemctl"; "show"; "--property"; "MainPID"; "--value";
                         "frp-web-lite"];
                  EvLog WARNING "Service not running, attempting to start";
                  EvRun ["systemctl"; "start"; "frp-web-lite"];
                  EvLog INFO "Service start attempted"] |}).
Proof.
  destruct (absent_pid_starts_and_skips env_down state_100mb) as [Hrun _].
  - reflexivity.
  - rewrite Hrun. reflexivity.
Defined.

(** ** Line 204 *)

(** C4. The tick is meant to go on when the system snapshot is absent,
    and line 204 spells the condition for it, [if system_stats else
    'N/A']. As shipped the line is not an f-string. The compiler accepts
    the four literals of the "Stats" log call before it. In the fifth it
    reads the text "System Memory: ", the replacement field
    [{system_stats['memory_percent']:.1f}] and then the words of the
    condition as text, and it refuses the brace that follows them, which
    closes no replacement field: "f-string: single '}' is not allowed".
    The module is not compiled, and no tick is run. *)
Theorem line_204_is_rejected :
  Forall (fun literal => raised (FString.fstring_parts literal) = false)
    (take 4 stats_literals)
  /\ stats_literals !! 4%nat = Some line_204
  /\ FString.fstring_parts
       "System Memory: {system_stats['memory_percent']:.1f}% if system_stats else 'N/A'"
     = Ok [FString.FText "System Memory: ";
           FString.FField "system_stats['memory_percent']" false None ".1f";
           FString.FText "% if system_stats else 'N/A'"]
  /\ FString.fstring_parts line_204
     = Raise (FString.syntax_error "f-string: single '}' is not allowed")
  /\ stats_call_parts
     = Raise (FString.syntax_error "f-string: single '}' is not allowed").
Proof.
  split; [repeat constructor |]. repeat split.
Qed.

(** ** The hourly reset *)

Lemma daemon_tick_no_reset (env : TickEnv) (last_counter_reset : Z) (st : State) :
  now_loop env - last_counter_reset <= one_hour ->
  daemon_tick env last_counter_reset st = health_then_sleep env last_counter_reset st.
Proof.
  intros H. unfold daemon_tick, health_then_sleep.
  assert (E : (now_loop env - last_counter_reset >? one_hour) = false) by lia.
  rewrite E. reflexivity.
Qed.

(** C3, as the code has it. On a tick at which more than one hour has
    passed since the last counter reset, the loop first sets
    [restart_count] to 0, logs the reset and takes a new reset time from
    the clock; the health check of that tick, and with it the restart
    decision, runs from the state the reset leaves, and the turn hands the
    new reset time to the next one unless the health check raises. *)
Theorem hourly_reset_before_health (env : TickEnv) (last_counter_reset : Z)
    (st : State) :
  now_loop env - last_counter_reset > one_hour ->
  let st_reset :=
    {| self := with_restart (last_restart (self st)) 0 (self st);
       trace := trace st ++ [EvLog INFO "Restart counter reset"] |} in
  restart_count (self st_reset) = 0
  /\ daemon_tick env last_counter_reset st
     = health_then_sleep env (now_stamp env) st_reset
  /\ (fst (daemon_tick env last_counter_reset st) = Ok (now_stamp env)
      \/ raised (fst (daemon_tick env last_counter_reset st)) = true).
Proof.
  intros H. simpl.
  assert (Htick : daemon_tick env last_counter_reset st
                  = health_then_sleep env (now_stamp env)
                      {| self := with_restart (last_restart (self st)) 0 (self st);
                         trace := trace st ++ [EvLog INFO "Restart counter reset"] |}).
  { unfold daemon_tick, health_then_sleep.
    assert (E : (now_loop env - last_counter_reset >? one_hour) = true) by lia.
    rewrite E. reflexivity. }
  split; [reflexivity |]. split; [exact Htick |].
  rewrite Htick. apply health_then_sleep_run.
Qed.

Lemma hourly_reset_before_health_witness :
  daemon_tick (env_at (one_hour + 1)) 0 state_budget_spent
  = health_then_sleep (env_at (one_hour + 1)) (one_hour + 2)
      {| self := with_restart (Some 0) 0 guardian_100mb;
         trace := [EvLog INFO "Restart counter reset"] |}.
Proof.
  destruct (hourly_reset_before_health (env_at (one_hour + 1)) 0 state_budget_spent)
    as (_ & Htick & _).
  - reflexivity.
  - rewrite Htick. reflexivity.
Defined.

(** Counterexample to C3 as stated, at the boundary: exactly 3600
    seconds after the last reset, with three restarts counted, the tick
    does not reset the counter. The count is still 3 after the tick, no reset is logged, the
    reset time is not stamped anew, and the restart that memory calls for
    is not issued. *)
Lemma no_reset_at_exactly_one_hour :
  let env := env_at (3600 * 1000000) in
  let out := daemon_tick env 0 state_budget_spent in
  now_loop env - 0 >= 3600 * 1000000
  /\ restart_count (self state_budget_spent) = 3
  /\ fst out = Ok 0
  /\ restart_count (self (snd out)) = 3
  /\ ~ In (EvLog INFO "Restart counter reset") (trace (snd out))
  /\ ~ In (EvRun ["systemctl"; "restart"; "frp-web-lite"]) (trace (snd out)).
Proof.
  simpl. repeat split; try reflexivity; try lia.
  - vm_compute. intros H. repeat (destruct H as [H | H]; [discriminate |]). exact H.
  - vm_compute. intros H. repeat (destruct H as [H | H]; [discriminate |]). exact H.
Qed.

(** The same tick one microsecond later resets the counter and restarts
    the service. *)
Example reset_just_after_one_hour :
  let out := daemon_tick (env_at (3600 * 1000000 + 1)) 0 state_budget_spent in
  fst out = Ok (3600 * 1000000 + 2)
  /\ restart_count (self (snd out)) = 1
  /\ In (EvLog INFO "Restart counter reset") (trace (snd out)).
Proof. vm_compute. repeat split; auto. Qed.

(** ** The restart counter *)

Lemma restart_step_count (now : Z) (g g' : ResourceGuardian) :
  restart_step now g g' ->
  restart_count g' = restart_count g \/ restart_count g' = restart_count g + 1.
Proof. intros [-> | ->]; simpl; auto. Qed.

(** Without a reset, the ticks of the loop never lower the counter. *)
Lemma daemon_loop_without_reset (envs : list TickEnv) (last_counter_reset : Z)
    (st : State) :
  Forall (fun env => now_loop env - last_counter_reset <= one_hour) envs ->
  restart_count (self st)
    <= restart_count (self (snd (daemon_loop envs last_counter_reset st))).
Proof.
  revert st. induction envs as [| env rest IH]; intros st Hall; simpl.
  - lia.
  - inversion Hall as [| ? ? Hle Hrest]; subst.
    unfold bind. rewrite daemon_tick_no_reset by assumption.
    destruct (health_then_sleep_run env last_counter_reset st) as [Hself Hfst].
    pose proof (restart_step_count _ _ _ (check_service_health_step env st)) as Hstep.
    rewrite <- Hself in Hstep.
    destruct (health_then_sleep env last_counter_reset st) as [[l | e] st']; simpl in *.
    + destruct Hfst as [Hl | ?]; [| discriminate]. injection Hl as ->.
      specialize (IH st' Hrest). lia.
    + lia.
Qed.

(** C6. [restart_count] goes down only through the hourly reset. The
    queries and the cleanup leave it alone; [restart_service] adds one on
    success and leaves it alone on failure; [check_service_health] leaves
    it alone or adds one; [reset_restart_counter] sets it to zero; a turn
    of the loop that does not reset never lowers it, nor does any run of
    turns without a reset. *)
Theorem restart_count_lowered_by_reset_only (env : TickEnv) (st : State)
    (reason : string) (pid last_counter_reset : Z) (envs : list TickEnv) :
  let count := restart_count (self st) in
  let after {A} (m : M A) := restart_count (self (snd (m st))) in
  after (get_service_pid env) = count
  /\ after (get_process_stats env pid) = count
  /\ after (get_system_stats env) = count
  /\ after (cleanup_memory env) = count
  /\ (command_succeeded (restart_run env) -> after (restart_service env reason) = count + 1)
  /\ (command_failed (restart_run env) -> after (restart_service env reason) = count)
  /\ (after (check_service_health env) = count
      \/ after (check_service_health env) = count + 1)
  /\ after reset_restart_counter = 0
  /\ (now_loop env - last_counter_reset <= one_hour ->
      count <= after (daemon_tick env last_counter_reset))
  /\ (after (daemon_tick env last_counter_reset) < count ->
      now_loop env - last_counter_reset > one_hour)
  /\ (Forall (fun env' => now_loop env' - last_counter_reset <= one_hour) envs ->
      count <= after (daemon_loop envs last_counter_reset)).
Proof.
  assert (Htick : now_loop env - last_counter_reset <= one_hour ->
                  restart_count (self st)
                  <= restart_count (self (snd (daemon_tick env last_counter_reset st)))).
  { intros Hle. rewrite daemon_tick_no_reset by assumption.
    destruct (health_then_sleep_run env last_counter_reset st) as [-> _].
    destruct (restart_step_count _ _ _ (check_service_health_step env st)); lia. }
  simpl. repeat apply conj.
  - now rewrite get_service_pid_run.
  - now rewrite get_process_stats_self.
  - now rewrite get_system_stats_self.
  - now rewrite cleanup_memory_self.
  - intros H. destruct (restart_service_succeeded env reason st H) as [_ ->]. reflexivity.
  - intros H. destruct (restart_service_failed env reason st H) as [_ ->]. reflexivity.
  - apply (restart_step_count _ _ _ (check_service_health_step env st)).
  - reflexivity.
  - exact Htick.
  - intros Hlt. destruct (Z_le_gt_dec (now_loop env - last_counter_reset) one_hour) as [Hle | Hgt].
    + specialize (Htick Hle). lia.
    + exact Hgt.
  - apply daemon_loop_without_reset.
Qed.

Lemma restart_count_lowered_by_reset_only_witness :
  restart_count (self (snd (restart_service (env_running 150 10 50 1) "over limit"
                              state_budget_spent))) = 3
  /\ restart_count (self (snd (restart_service (env_running 150 10 50 0) "over limit"
                                 state_budget_spent))) = 4.
Proof.
  destruct (restart_count_lowered_by_reset_only (env_running 150 10 50 1)
              state_budget_spent "over limit" 1234 0 [])
    as (_ & _ & _ & _ & _ & Hfailed & _).
  destruct (restart_count_lowered_by_reset_only (env_running 150 10 50 0)
              state_budget_spent "over limit" 1234 0 [])
    as (_ & _ & _ & _ & Hsucceeded & _).
  split.
  - rewrite Hfailed; [reflexivity |].
    left. eexists. split; [reflexivity | simpl; lia].
  - rewrite Hsucceeded; [reflexivity |].
    eexists. split; reflexivity.
Defined.

(** ** Loading the configuration *)

Lemma update_items_absent (items : list (string * PyVal)) (d : gmap string PyVal)
    (k : string) :
  k ∉ map fst items -> update_items d items !! k = d !! k.
Proof.
  unfold update_items. revert d.
  induction items as [| [k0 v0] rest IH]; intros d Hk; simpl in *; [reflexivity |].
  apply not_elem_of_cons in Hk as [Hne Hk].
  rewrite IH by assumption. now apply lookup_insert_ne.
Qed.

Lemma update_items_present (items : list (string * PyVal)) (d : gmap string PyVal)
    (k : string) :
  k ∈ map fst items ->
  exists v, (k, v) ∈ items /\ update_items d items !! k = Some v.
Proof.
  revert d. induction items as [| [k0 v0] rest IH]; intros d Hk; simpl in *.
  - now apply elem_of_nil in Hk.
  - destruct (decide (k ∈ map fst rest)) as [Hin | Hout].
    + destruct (IH (<[k0:=v0]> d) Hin) as (v & Hv & Hlook).
      exists v. split; [now apply elem_of_cons; right | exact Hlook].
    + apply elem_of_cons in Hk as [-> | Hk]; [| contradiction].
      exists v0. split; [now apply elem_of_cons; left |].
      change (update_items (<[k0:=v0]> d) rest !! k0 = Some v0).
      rewrite update_items_absent by assumption. apply lookup_insert_eq.
Qed.

(** An update never removes a key. *)
Lemma update_items_keeps (items : list (string * PyVal)) (d : gmap string PyVal)
    (k : string) :
  is_Some (d !! k) -> is_Some (update_items d items !! k).
Proof.
  intros Hk. destruct (decide (k ∈ map fst items)) as [Hin | Hout].
  - destruct (update_items_present items d k Hin) as (v & _ & ->). eauto.
  - now rewrite update_items_absent.
Qed.

Lemma update_element_keeps (i : nat) (d : gmap string PyVal) (elem : PyVal)
    (k : string) :
  is_Some (d !! k) -> is_Some (snd (update_element i d elem) !! k).
Proof.
  intros Hk.
  assert (Hins : forall k' v, is_Some (<[k':=v]> d !! k)).
  { intros k' v. rewrite lookup_insert. now destruct (decide (k' = k)). }
  unfold update_element.
  repeat (match goal with
          | |- context [match ?x with _ => _ end] => destruct x
          end; simpl; auto).
Qed.

Lemma update_sequence_keeps (elems : list PyVal) (i : nat) (d : gmap string PyVal)
    (k : string) :
  is_Some (d !! k) -> is_Some (snd (update_sequence i d elems) !! k).
Proof.
  revert i d. induction elems as [| elem rest IH]; intros i d Hk; simpl; [exact Hk |].
  pose proof (update_element_keeps i d elem k Hk) as Hstep.
  destruct (update_element i d elem) as [[[] | e] d']; simpl in *; auto.
Qed.

Lemma dict_update_keeps (d : gmap string PyVal) (other : PyVal) (k : string) :
  is_Some (d !! k) -> is_Some (snd (dict_update d other) !! k).
Proof.
  intros Hk. destruct other; simpl; auto using update_items_keeps, update_sequence_keeps.
Qed.

Lemma default_config_keys (k : string) :
  k ∈ config_keys -> is_Some (default_config !! k).
Proof.
  unfold config_keys. intros Hk.
  repeat (apply elem_of_cons in Hk as [-> | Hk]; [by eexists |]).
  now apply elem_of_nil in Hk.
Qed.

(** Whatever the file holds, the dictionary [load_config] returns has the
    eight keys of the defaults: the fallbacks of the later
    [self.config.get(key, fallback)] calls are never used. *)
Lemma load_config_has_defaults (env : ConfigEnv) (config_file : string)
    (tr : list Event) (k : string) :
  k ∈ config_keys ->
  exists config tr',
    load_config env config_file tr = (Ok config, tr') /\ is_Some (config !! k).
Proof.
  intros Hk. apply default_config_keys in Hk.
  unfold load_config, load_config_try.
  destruct (path_exists env); [| eauto].
  destruct (open_file env) as [[] | e]; [| eauto].
  destruct (json_load env) as [user_config | e]; [| eauto].
  pose proof (dict_update_keeps default_config user_config k Hk) as Hkeep.
  destruct (dict_update default_config user_config) as [[[] | e] d']; simpl in *; eauto.
Qed.

(** C8. [load_config] never raises. With no file at the path it returns
    the default configuration. When opening the file or parsing it
    raises, it logs the error and returns the default configuration as a
    whole. When the file parses to a JSON object, every key of the object
    overrides or extends the defaults, and every key the object omits
    keeps its default value. *)
Theorem load_config_never_fails (env : ConfigEnv) (config_file : string)
    (tr : list Event) :
  (exists config tr', load_config env config_file tr = (Ok config, tr'))
  /\ (path_exists env = false ->
      load_config env config_file tr = (Ok default_config, tr))
  /\ (path_exists env = true ->
      forall e,
        open_file env = Raise e
        \/ (open_file env = Ok tt /\ json_load env = Raise e) ->
        load_config env config_file tr
        = (Ok default_config,
           tr ++ [EvOpen config_file;
                  EvLog INFO ("Error loading config: " +:+ exc_text e
                                +:+ ", using defaults")]))
  /\ (path_exists env = true -> open_file env = Ok tt ->
      forall items, json_load env = Ok (PDict items) ->
        exists config,
          load_config env config_file tr = (Ok config, tr ++ [EvOpen config_file])
          /\ (forall k, k ∉ map fst items -> config !! k = default_config !! k)
          /\ (forall k, k ∈ map fst items ->
                exists v, (k, v) ∈ items /\ config !! k = Some v)).
Proof.
  split; [| split; [| split]].
  - unfold load_config.
    destruct (load_config_try env config_file default_config tr)
      as [[[[] | e] d] tr1]; eauto.
  - unfold load_config, load_config_try. now intros ->.
  - unfold load_config, load_config_try. intros -> e [-> | [-> ->]];
      now rewrite <- app_assoc.
  - unfold load_config, load_config_try. intros -> -> items ->. simpl.
    exists (update_items default_config items). split; [reflexivity |]. split.
    + intros k Hk. now apply update_items_absent.
    + intros k Hk. now apply update_items_present.
Qed.

Lemma load_config_never_fails_witness :
  exists config,
    fst (load_config partial_file "guardian_config.json" []) = Ok config
    /\ config !! "memory_limit_mb" = Some (PInt 100)
    /\ config !! "cpu_limit_percent" = Some (PInt 80).
Proof.
  destruct (load_config_never_fails partial_file "guardian_config.json" [])
    as (_ & _ & _ & Hparsed).
  destruct (Hparsed eq_refl eq_refl _ eq_refl) as (config & Hload & Homitted & Hset).
  exists config. split; [now rewrite Hload |]. split.
  - destruct (Hset "memory_limit_mb") as (v & Hv & ->).
    + simpl. apply elem_of_cons. now left.
    + apply elem_of_cons in Hv as [[= <-] | Hv]; [reflexivity |].
      apply elem_of_cons in Hv as [[=] | Hv]. now apply elem_of_nil in Hv.
  - rewrite Homitted; [reflexivity |].
    simpl. intros Hin.
    apply elem_of_cons in Hin as [[=] | Hin].
    apply elem_of_cons in Hin as [[=] | Hin]. now apply elem_of_nil in Hin.
Defined.

(** A file that sets two fields: the other six keep their defaults. *)
Example load_config_partial_file :
  match fst (load_config partial_file "/opt/frp-web-control/guardian_config.json" []) with
  | Ok config => init config
  | Raise _ => None
  end
  = Some {| max_restarts_per_hour := 3; enable_auto_restart := true;
            enable_memory_cleanup := false; service_name := "frp-web-lite";
            memory_limit_mb := 100; cpu_limit_percent := 80;
            check_interval := 30; restart_cooldown := 300;
            last_restart := None; restart_count := 0 |}.
Proof. vm_compute. reflexivity. Qed.

(** A file that parses to something other than an object: the update
    raises part of the way, the error is logged, and the entries set
    before the bad element stay in the dictionary that is returned. *)
Example load_config_array_file :
  let env := {| path_exists := true; open_file := Ok tt;
                json_load := Ok (PList [PList [PStr "memory_limit_mb"; PInt 1];
                                        PInt 5]) |} in
  let out := load_config env "guardian_config.json" [] in
  match fst out with
  | Ok config => config !! "memory_limit_mb"
  | Raise _ => None
  end = Some (PInt 1)
  /\ snd out
     = [EvOpen "guardian_config.json";
        EvLog INFO "Error loading config: cannot convert dictionary update sequence element #1 to a sequence, using defaults"].
Proof. vm_compute. split; reflexivity. Qed.

(** ** The panel: [execute_command] *)

Lemma result_dict_is_result (success : bool) (out err : string) (code : Z) :
  is_result (result_dict success out err code) success out err code.
Proof.
  unfold is_result, result_dict, result_keys. split.
  - rewrite !dom_insert_L, dom_empty_L. set_solver.
  - repeat split; by simplify_map_eq.
Qed.

Lemma execute_command_internal_returns (run : list string -> Res Completed)
    (command_str : string) (use_sudo : bool) :
  exists d, execute_command_internal run command_str use_sudo = Ok d
            /\ dom d = result_keys.
Proof.
  unfold execute_command_internal, execute_command_try.
  destruct (run _) as [result | e].
  - eexists. split; [reflexivity | apply result_dict_is_result].
  - destruct (is_TimeoutExpired e);
      (eexists; split; [reflexivity | apply result_dict_is_result]).
Qed.

Lemma execute_command_internal_raised (run : list string -> Res Completed)
    (command_str : string) (use_sudo : bool) (e : PyExc) :
  run (argv command_str use_sudo) = Raise e ->
  execute_command_internal run command_str use_sudo
  = Ok (if is_TimeoutExpired e
        then result_dict false "" "Timeout" (-1)
        else result_dict false "" (exc_text e) (-1)).
Proof.
  unfold execute_command_internal, execute_command_try, argv. intros ->.
  now destruct (is_TimeoutExpired e).
Qed.

Lemma lru_find_ok (key : LruKey) (cache : Lru) (v : gmap string PyVal) :
  lru_ok cache -> lru_find key cache = Some v -> dom v = result_keys.
Proof.
  unfold lru_ok. induction 1 as [| [k d] rest Hd Hrest IH]; simpl; [discriminate |].
  destruct (key_eqb k key); [| exact IH].
  intros [= <-]. exact Hd.
Qed.

Lemma execute_command_ok (run : list string -> Res Completed) (cache : Lru)
    (command_str : string) (use_sudo use_cache : bool) :
  lru_ok cache ->
  (exists d, fst (execute_command run cache command_str use_sudo use_cache) = Ok d
             /\ dom d = result_keys)
  /\ lru_ok (snd (execute_command run cache command_str use_sudo use_cache)).
Proof.
  intros Hok. unfold execute_command, get_cached_command_result.
  destruct (execute_command_internal_returns run command_str use_sudo)
    as (d & Hd & Hdom).
  destruct use_cache; simpl.
  - destruct (lru_find _ cache) as [v |] eqn:Hfind.
    + pose proof (lru_find_ok _ _ _ Hok Hfind) as Hv. simpl. split.
      * now exists v.
      * constructor; [exact Hv |]. unfold lru_remove.
        apply Forall_forall. intros x Hx.
        apply list_elem_of_filter in Hx as [_ Hx].
        unfold lru_ok in Hok. rewrite Forall_forall in Hok. now apply Hok.
    + rewrite Hd. simpl. split.
      * now exists d.
      * constructor; [exact Hdom | now apply Forall_take].
  - rewrite Hd. split; [now exists d | exact Hok].
Qed.

Lemma execute_commands_ok (calls : list CommandCall) (cache : Lru) :
  lru_ok cache ->
  Forall (fun r => exists d, r = Ok d /\ dom d = result_keys)
    (fst (execute_commands calls cache)).
Proof.
  revert cache. induction calls as [| c rest IH]; intros cache Hok; simpl.
  - constructor.
  - destruct (execute_command_ok (call_run c) cache (call_command c) (call_sudo c)
                (call_cache c) Hok) as [Hr Hok1].
    destruct (execute_command _ _ _ _ _) as [r cache1]. simpl in *.
    specialize (IH cache1 Hok1).
    destruct (execute_commands rest cache1) as [rs cache2]. simpl in *.
    constructor; assumption.
Qed.

(** C9. [execute_command] never raises: whatever calls came before on
    the same [lru_cache], each call returns a dictionary whose keys are
    [success], [stdout], [stderr] and [returncode]. When the command is
    run (caching off, or no cached result for it) and [subprocess.run]
    raises, the dictionary is [{success: False, stdout: '', stderr:
    'Timeout', returncode: -1}] for a timeout and [{success: False,
    stdout: '', stderr: str(e), returncode: -1}] for any other exception. *)
Theorem execute_command_never_raises (calls : list CommandCall) :
  Forall (fun r => exists d, r = Ok d /\ dom d = result_keys)
    (fst (execute_commands calls []))
  /\ (forall run cache command_str use_sudo use_cache e,
        use_cache = false \/ lru_find (command_str, use_sudo) cache = None ->
        run (argv command_str use_sudo) = Raise e ->
        exists d,
          fst (execute_command run cache command_str use_sudo use_cache) = Ok d
          /\ if is_TimeoutExpired e
             then is_result d false "" "Timeout" (-1)
             else is_result d false "" (exc_text e) (-1)).
Proof.
  split.
  - apply execute_commands_ok. constructor.
  - intros run cache command_str use_sudo use_cache e Hrun Hraise.
    pose proof (execute_command_internal_raised run command_str use_sudo e Hraise)
      as Hint.
    exists (if is_TimeoutExpired e
            then result_dict false "" "Timeout" (-1)
            else result_dict false "" (exc_text e) (-1)).
    split.
    + unfold execute_command, get_cached_command_result.
      destruct use_cache.
      * destruct Hrun as [? | ->]; [discriminate |]. now rewrite Hint.
      * now rewrite Hint.
    + destruct (is_TimeoutExpired e); apply result_dict_is_result.
Qed.

Lemma execute_command_never_raises_witness :
  exists d,
    fst (execute_command (fun _ => Raise (mkExc TimeoutExpired "timed out")) []
           "systemctl is-active frps" true false) = Ok d
    /\ d !! "stderr" = Some (PStr "Timeout")
    /\ d !! "returncode" = Some (PInt (-1)).
Proof.
  destruct (execute_command_never_raises []) as [_ Hraise].
  destruct (Hraise (fun _ => Raise (mkExc TimeoutExpired "timed out")) []
              "systemctl is-active frps" true false
              (mkExc TimeoutExpired "timed out"))
    as (d & Hd & Hres).
  - now left.
  - reflexivity.
  - exists d. split; [exact Hd |]. simpl in Hres.
    destruct Hres as (_ & _ & _ & Herr & Hcode). now split.
Defined.

(** [systemctl is-active frps] under sudo times out. *)
Example execute_command_timeout :
  fst (execute_command
         (fun cmd => Raise (mkExc TimeoutExpired "timed out after 15 seconds"))
         [] "systemctl is-active frps" true false)
  = Ok (result_dict false "" "Timeout" (-1)).
Proof. reflexivity. Qed.

(** A timeout result is cached like any other: the next cached call for
    the same command returns it without running the command. *)
Example execute_command_cached_timeout :
  let call (outcome : Res Completed) :=
    {| call_run := fun _ => outcome; call_command := "pgrep -f frps";
       call_sudo := false; call_cache := true |} in
  fst (execute_commands
         [call (Raise (mkExc TimeoutExpired "slow")); call (completed 0)] [])
  = [Ok (result_dict false "" "Timeout" (-1));
     Ok (result_dict false "" "Timeout" (-1))].
Proof. reflexivity. Qed.

(** ** The panel: [get_cached_data] *)

Section StatusCache.

Context {W : Type}.
Implicit Types (fetch : W -> Res PyVal * W) (c : CacheDict) (w : W).

Lemma get_cached_data_hit c fetch now w :
  data c <> PNone -> fresh c now ->
  get_cached_data c fetch now w = (Ok (data c), c, w).
Proof.
  unfold fresh, get_cached_data. intros Hdata Hfresh.
  apply Qgtb_false in Hfresh. rewrite Hfresh.
  destruct (data c); simpl; congruence.
Qed.

Lemma get_cached_data_expired c fetch now w v w' :
  expired c now -> fetch w = (Ok v, w') ->
  get_cached_data c fetch now w
  = (Ok v, {| data := v; timestamp := now; ttl := ttl c |}, w').
Proof.
  unfold expired, get_cached_data. intros Hexp Hfetch.
  apply Qgtb_spec in Hexp. rewrite Hexp, orb_true_r, Hfetch. reflexivity.
Qed.

(** An invalidated cache fetches at the next call, whatever the time. *)
Lemma get_cached_data_invalidated c fetch now w v w' :
  fetch w = (Ok v, w') ->
  get_cached_data (invalidate c) fetch now w
  = (Ok v, {| data := v; timestamp := now; ttl := ttl c |}, w').
Proof. unfold get_cached_data. simpl. now intros ->. Qed.

Lemma get_cached_data_stores c fetch now w v c1 w1 :
  get_cached_data c fetch now w = (Ok v, c1, w1) ->
  data c1 = v /\ ttl c1 = ttl c.
Proof.
  unfold get_cached_data.
  destruct (is_none (data c) || Qgtb _ _).
  - destruct (fetch w) as [[v' | e] w']; intros [= <- <- <-]; auto.
  - intros [= <- <- <-]; auto.
Qed.

End StatusCache.

(** C7, as the code has it. After a call of [get_cached_data] that
    returned a value other than [None], a second call within the TTL
    window returns the identical value and does not call the fetch
    function, whatever that function would return; a call made after the
    TTL has elapsed fetches again, stores the new value with the time of
    that call as its timestamp, and returns the new value. *)
Theorem cached_value_served_within_ttl {W : Type} (c : CacheDict)
    (fetch : W -> Res PyVal * W) (t1 : Q) (w : W)
    (v : PyVal) (c1 : CacheDict) (w1 : W) :
  get_cached_data c fetch t1 w = (Ok v, c1, w1) ->
  v <> PNone ->
  (forall (fetch2 : W -> Res PyVal * W) t2 w2,
      fresh c1 t2 ->
      get_cached_data c1 fetch2 t2 w2 = (Ok v, c1, w2))
  /\ (forall (fetch3 : W -> Res PyVal * W) t3 w3 v3 w3',
      expired c1 t3 ->
      fetch3 w3 = (Ok v3, w3') ->
      get_cached_data c1 fetch3 t3 w3
      = (Ok v3, {| data := v3; timestamp := t3; ttl := ttl c |}, w3')).
Proof.
  intros Hcall Hv.
  destruct (get_cached_data_stores _ _ _ _ _ _ _ Hcall) as [Hdata Httl].
  split.
  - intros fetch2 t2 w2 Hfresh. rewrite <- Hdata.
    apply get_cached_data_hit; [congruence | assumption].
  - intros fetch3 t3 w3 v3 w3' Hexp Hfetch. rewrite <- Httl.
    now apply get_cached_data_expired.
Qed.

Lemma cached_value_served_within_ttl_witness :
  get_cached_data {| data := PStr "active"; timestamp := 100; ttl := 5 |}
    (fetch_nth [PStr "active"; PStr "inactive"]) 105 1%nat
  = (Ok (PStr "active"), {| data := PStr "active"; timestamp := 100; ttl := 5 |}, 1%nat)
  /\ get_cached_data {| data := PStr "active"; timestamp := 100; ttl := 5 |}
       (fetch_nth [PStr "active"; PStr "inactive"]) (1051 # 10) 1%nat
     = (Ok (PStr "inactive"),
        {| data := PStr "inactive"; timestamp := 1051 # 10; ttl := 5 |}, 2%nat).
Proof.
  destruct (cached_value_served_within_ttl _status_cache
              (fetch_nth [PStr "active"; PStr "inactive"]) 100 0%nat
              (PStr "active")
              {| data := PStr "active"; timestamp := 100; ttl := 5 |} 1%nat)
    as [Hhit Hmiss].
  - reflexivity.
  - discriminate.
  - split.
    + apply Hhit. unfold fresh. simpl. vm_compute. discriminate.
    + apply Hmiss; [| reflexivity]. unfold expired. simpl. vm_compute. reflexivity.
Defined.

(** Counterexample to C7 as stated, with a fetch function that returns
    [None]: [None] is the mark of an empty cache, so the value is fetched
    again by the next call although the TTL has not elapsed, and the two
    calls return different values. *)
Lemma none_is_fetched_again_within_ttl :
  let fetch := fetch_nth [PNone; PStr "active"] in
  let '(r1, c1, w1) := get_cached_data _status_cache fetch 100 0%nat in
  let '(r2, c2, w2) := get_cached_data c1 fetch 101 w1 in
  fresh c1 101
  /\ r1 = Ok PNone
  /\ r2 = Ok (PStr "active")
  /\ r1 <> r2
  /\ w2 = 2%nat.
Proof.
  simpl. repeat split; try reflexivity; try discriminate.
Qed.

(** ** The monitor: [lightweight_cache] *)

Section LightweightCacheProofs.

Context {V : Type}.
Variable maxsize : Z.
Variable ttl : Q.

Implicit Types (cache : @Cache V) (k key : string) (entry : V * Q).

Lemma eqb_is_true (a b : string) : Is_true (negb (String.eqb a b)) <-> a <> b.
Proof.
  destruct (String.eqb_spec a b) as [-> | Hne]; simpl; split; auto; contradiction.
Qed.

(** *** Deleting and setting a key *)

Lemma cache_del_cons k k0 entry cache :
  cache_del k ((k0, entry) :: cache)
  = if String.eqb k0 k then cache_del k cache else (k0, entry) :: cache_del k cache.
Proof.
  unfold cache_del, Cache. rewrite filter_cons. simpl.
  destruct (String.eqb k0 k); reflexivity.
Qed.

Lemma elem_of_keys_cache_del k k' cache :
  k' ∈ keys (cache_del k cache) <-> k' <> k /\ k' ∈ keys cache.
Proof.
  unfold keys, cache_del. rewrite !list_elem_of_fmap. split.
  - intros ([k0 e] & -> & Hin). apply list_elem_of_filter in Hin as [Hne Hin].
    apply eqb_is_true in Hne. split; [exact Hne |]. now exists (k0, e).
  - intros [Hne ([k0 e] & -> & Hin)]. exists (k0, e). split; [reflexivity |].
    apply list_elem_of_filter. split; [now apply eqb_is_true | exact Hin].
Qed.

Lemma cache_del_sublist k cache : cache_del k cache `sublist_of` cache.
Proof. apply sublist_filter. Qed.

Lemma keys_sublist cache cache' :
  cache' `sublist_of` cache -> keys cache' `sublist_of` keys cache.
Proof. unfold keys. intros H. now apply fmap_sublist. Qed.

Lemma cache_del_NoDup k cache : NoDup (keys cache) -> NoDup (keys (cache_del k cache)).
Proof.
  intros H. apply (sublist_NoDup _ (keys cache)); [exact H |].
  apply keys_sublist, cache_del_sublist.
Qed.

Lemma cache_del_absent k cache : k ∉ keys cache -> cache_del k cache = cache.
Proof.
  induction cache as [| [k0 e] rest IH]; intros Hk; [reflexivity |].
  rewrite cache_del_cons. unfold keys in *. simpl in Hk.
  apply not_elem_of_cons in Hk as [Hne Hk].
  destruct (String.eqb_spec k0 k) as [-> | _]; [contradiction |].
  now rewrite IH.
Qed.

Lemma cache_del_length k cache :
  NoDup (keys cache) -> k ∈ keys cache ->
  S (length (cache_del k cache)) = length cache.
Proof.
  induction cache as [| [k0 e] rest IH]; intros Hnd Hk.
  - now apply elem_of_nil in Hk.
  - unfold keys in *. simpl in Hnd, Hk. apply NoDup_cons in Hnd as [Hk0 Hnd].
    rewrite cache_del_cons.
    destruct (String.eqb_spec k0 k) as [-> | Hne].
    + now rewrite cache_del_absent.
    + apply elem_of_cons in Hk as [-> | Hk]; [contradiction |].
      simpl. now rewrite IH.
Qed.

Lemma cache_get_None k cache : cache_get k cache = None <-> k ∉ keys cache.
Proof.
  unfold keys. induction cache as [| [k0 e] rest IH]; simpl.
  - split; [intros _; apply not_elem_of_nil | reflexivity].
  - rewrite not_elem_of_cons.
    destruct (String.eqb_spec k0 k) as [-> | Hne].
    + split; [discriminate | intros [? _]; contradiction].
    + rewrite IH. split; [intros ?; split; [congruence | assumption] | now intros [_ ?]].
Qed.

Lemma cache_set_absent k entry cache :
  k ∉ keys cache -> cache_set k entry cache = cache ++ [(k, entry)].
Proof.
  unfold keys. induction cache as [| [k0 e] rest IH]; simpl; intros Hk; [reflexivity |].
  apply not_elem_of_cons in Hk as [Hne Hk].
  destruct (String.eqb_spec k0 k) as [-> | _]; [contradiction |].
  now rewrite IH.
Qed.

(** *** [sorted] sorts *)

Lemma insert_sorted_perm {A} (f : A -> Q) (x : A) (l : list A) :
  insert_sorted f x l ≡ₚ x :: l.
Proof.
  induction l as [| y rest IH]; simpl; [reflexivity |].
  destruct (Qle_bool (f x) (f y)); [reflexivity |].
  rewrite IH. apply Permutation_swap.
Qed.

Lemma sorted_perm {A} (f : A -> Q) (l : list A) : sorted f l ≡ₚ l.
Proof.
  induction l as [| x rest IH]; simpl; [reflexivity |].
  rewrite insert_sorted_perm. now rewrite IH.
Qed.

Lemma insert_sorted_sorted {A} (f : A -> Q) (x : A) (l : list A) :
  StronglySorted (by_time f) l -> StronglySorted (by_time f) (insert_sorted f x l).
Proof.
  induction 1 as [| y rest Hrest IH Hy]; simpl.
  - repeat constructor.
  - destruct (Qle_bool (f x) (f y)) eqn:E.
    + apply Qle_bool_iff in E. constructor; [now constructor |].
      constructor; [exact E |].
      rewrite Forall_forall in Hy |- *. intros z Hz.
      unfold by_time in *. eapply Qle_trans; [exact E | now apply Hy].
    + assert (Hyx : (f y <= f x)%Q).
      { apply Qlt_le_weak, Qnot_le_lt. intros Hle.
        apply Qle_bool_iff in Hle. congruence. }
      constructor; [exact IH |].
      rewrite Forall_forall in Hy |- *. intros z Hz.
      rewrite insert_sorted_perm in Hz.
      apply elem_of_cons in Hz as [-> | Hz]; [exact Hyx | now apply Hy].
Qed.

Lemma sorted_sorted {A} (f : A -> Q) (l : list A) :
  StronglySorted (by_time f) (sorted f l).
Proof.
  induction l as [| x rest IH]; simpl; [constructor |].
  now apply insert_sorted_sorted.
Qed.

(** *** Deleting the oldest keys *)

Lemma delete_keys_sublist ks cache : delete_keys ks cache `sublist_of` cache.
Proof.
  unfold delete_keys. revert cache.
  induction ks as [| k rest IH]; intros cache; simpl; [reflexivity |].
  etransitivity; [apply IH | apply cache_del_sublist].
Qed.

Lemma elem_of_keys_delete_keys ks k' cache :
  k' ∈ keys (delete_keys ks cache) <-> (k' ∉ ks) /\ (k' ∈ keys cache).
Proof.
  unfold delete_keys. revert cache.
  induction ks as [| k rest IH]; intros cache; simpl.
  - split; [intros ?; split; [apply not_elem_of_nil | assumption] | now intros [_ ?]].
  - rewrite IH, elem_of_keys_cache_del, not_elem_of_cons. tauto.
Qed.

Lemma delete_keys_length ks cache :
  NoDup ks -> NoDup (keys cache) -> (forall k, k ∈ ks -> k ∈ keys cache) ->
  (length (delete_keys ks cache) + length ks)%nat = length cache.
Proof.
  unfold delete_keys. revert cache.
  induction ks as [| k rest IH]; intros cache Hks Hnd Hsub; simpl; [lia |].
  apply NoDup_cons in Hks as [Hk Hrest].
  rewrite Nat.add_succ_r, IH.
  - apply cache_del_length; [exact Hnd |]. apply Hsub. now left.
  - exact Hrest.
  - now apply cache_del_NoDup.
  - intros k' Hk'. apply elem_of_keys_cache_del. split.
    + intros ->. contradiction.
    + apply Hsub. now right.
Qed.

(** *** The size limit *)

Lemma limit_cache_size_small cache :
  cache_size cache <= maxsize -> limit_cache_size maxsize cache = cache.
Proof.
  unfold limit_cache_size, cache_size. intros H.
  assert (E : (Z.of_nat (length cache) >? maxsize) = false) by lia.
  now rewrite E.
Qed.

Lemma limit_cache_size_over cache :
  cache_size cache > maxsize ->
  limit_cache_size maxsize cache = delete_keys (oldest_keys maxsize cache) cache.
Proof.
  unfold limit_cache_size, oldest_keys, cache_size, slice_to. intros H.
  assert (E : (Z.of_nat (length cache) >? maxsize) = true) by lia.
  assert (E' : (Z.of_nat (length cache) - maxsize + 1 <? 0) = false) by lia.
  now rewrite E, E'.
Qed.

Lemma limit_cache_size_sublist cache :
  limit_cache_size maxsize cache `sublist_of` cache.
Proof.
  destruct (Z_le_gt_dec (cache_size cache) maxsize) as [H | H].
  - now rewrite limit_cache_size_small.
  - rewrite limit_cache_size_over by assumption. apply delete_keys_sublist.
Qed.

Lemma oldest_keys_NoDup cache : NoDup (keys cache) -> NoDup (oldest_keys maxsize cache).
Proof.
  intros H. unfold oldest_keys.
  apply (sublist_NoDup _ (sorted (cached_time cache) (keys cache)));
    [| apply sublist_take].
  now rewrite sorted_perm.
Qed.

Lemma oldest_keys_subset cache k : k ∈ oldest_keys maxsize cache -> k ∈ keys cache.
Proof.
  unfold oldest_keys. intros H. apply subseteq_take in H.
  now rewrite sorted_perm in H.
Qed.

Lemma oldest_keys_length cache :
  0 <= maxsize -> cache_size cache > maxsize ->
  Z.of_nat (length (oldest_keys maxsize cache))
  = Z.min (cache_size cache - maxsize + 1) (cache_size cache).
Proof.
  unfold oldest_keys, cache_size, keys. intros H0 H.
  rewrite length_take. rewrite (Permutation_length (sorted_perm _ _)).
  rewrite length_fmap. lia.
Qed.

(** After the limit is applied the cache holds [maxsize - 1] entries
    when it was over the limit (none when [maxsize] is 0). *)
Lemma limit_cache_size_over_length cache :
  NoDup (keys cache) -> 0 <= maxsize -> cache_size cache > maxsize ->
  cache_size (limit_cache_size maxsize cache) = Z.max 0 (maxsize - 1).
Proof.
  intros Hnd H0 H. rewrite limit_cache_size_over by assumption.
  pose proof (delete_keys_length (oldest_keys maxsize cache) cache
                (oldest_keys_NoDup cache Hnd) Hnd (oldest_keys_subset cache)) as Hlen.
  pose proof (oldest_keys_length cache H0 H) as Hold.
  unfold cache_size in *. lia.
Qed.

Lemma limit_cache_size_bound cache :
  NoDup (keys cache) -> 0 <= maxsize ->
  cache_size (limit_cache_size maxsize cache) <= maxsize.
Proof.
  intros Hnd H0. destruct (Z_le_gt_dec (cache_size cache) maxsize) as [H | H].
  - now rewrite limit_cache_size_small.
  - rewrite limit_cache_size_over_length by assumption. lia.
Qed.

(** A key that is evicted is at least as old as any key that stays. *)
Lemma limit_cache_size_oldest cache k k' :
  k ∈ keys cache ->
  k ∉ keys (limit_cache_size maxsize cache) ->
  k' ∈ keys (limit_cache_size maxsize cache) ->
  (cached_time cache k <= cached_time cache k')%Q.
Proof.
  intros Hk Hgone Hkept.
  destruct (Z_le_gt_dec (cache_size cache) maxsize) as [H | H].
  - rewrite limit_cache_size_small in Hgone by assumption. contradiction.
  - rewrite limit_cache_size_over in Hgone, Hkept by assumption.
    rewrite elem_of_keys_delete_keys in Hgone, Hkept.
    destruct Hkept as [Hkept Hk'].
    assert (Hold : k ∈ oldest_keys maxsize cache).
    { destruct (decide (k ∈ oldest_keys maxsize cache)); [assumption | tauto]. }
    unfold oldest_keys in Hold, Hkept.
    set (n := Z.to_nat (cache_size cache - maxsize + 1)) in *.
    set (ks := sorted (cached_time cache) (keys cache)) in *.
    assert (Hlate : k' ∈ drop n ks).
    { assert (Hin : k' ∈ take n ks ++ drop n ks).
      { rewrite take_drop. unfold ks. now rewrite sorted_perm. }
      apply elem_of_app in Hin as [? | ?]; [contradiction | assumption]. }
    apply (StronglySorted_app_1_elem_of (by_time (cached_time cache))
             (take n ks) (drop n ks)); [| assumption | assumption].
    rewrite take_drop. apply sorted_sorted.
Qed.

(** *** The wrapper keeps the keys distinct and the size within bounds *)

Lemma cache_lookup_miss (c : Call) cache cache1 :
  NoDup (keys cache) ->
  cache_lookup ttl c cache = inr cache1 ->
  NoDup (keys cache1) /\ (call_key c ∉ keys cache1)
  /\ cache1 `sublist_of` cache.
Proof.
  unfold cache_lookup. intros Hnd.
  destruct (cache_get (call_key c) cache) as [[result timestamp] |] eqn:Hget.
  - destruct (Qltb _ _); [discriminate |]. intros [= <-].
    split; [now apply cache_del_NoDup |]. split; [| apply cache_del_sublist].
    rewrite elem_of_keys_cache_del. tauto.
  - intros [= <-]. split; [exact Hnd |]. split; [| reflexivity].
    now apply cache_get_None.
Qed.

Lemma sublist_cache_size cache cache' :
  cache' `sublist_of` cache -> cache_size cache' <= cache_size cache.
Proof. intros H. apply sublist_length in H. unfold cache_size. lia. Qed.

Lemma stored_NoDup cache key entry :
  NoDup (keys cache) -> key ∉ keys cache ->
  NoDup (keys (cache_set key entry cache))
  /\ cache_size (cache_set key entry cache) = cache_size cache + 1.
Proof.
  intros Hnd Hkey. rewrite cache_set_absent by assumption.
  unfold keys, cache_size. rewrite fmap_app, length_app. simpl. split; [| lia].
  apply NoDup_app. split; [exact Hnd |]. split.
  - intros x Hx Hx'. apply list_elem_of_singleton in Hx' as ->. contradiction.
  - apply NoDup_singleton.
Qed.

Lemma wrapper_bounded (c : Call) cache :
  0 <= maxsize -> bounded maxsize cache -> bounded maxsize (snd (wrapper maxsize ttl c cache)).
Proof.
  intros H0 [Hnd Hsize]. unfold wrapper.
  destruct (cache_lookup ttl c cache) as [result | cache1] eqn:Hlook; [now split |].
  destruct (cache_lookup_miss c cache cache1 Hnd Hlook) as (Hnd1 & Hkey & Hsub).
  destruct (call_func c) as [result | e]; simpl.
  - destruct (stored_NoDup cache1 (call_key c) (result, call_time c) Hnd1 Hkey)
      as [Hnd2 _].
    split; [| now apply limit_cache_size_bound].
    apply (sublist_NoDup _ (keys (cache_set (call_key c) (result, call_time c) cache1)));
      [exact Hnd2 |].
    apply keys_sublist, limit_cache_size_sublist.
  - split; [exact Hnd1 |]. apply sublist_cache_size in Hsub. lia.
Qed.

Lemma step_bounded (op : @Op V) cache :
  0 <= maxsize -> bounded maxsize cache -> bounded maxsize (step maxsize ttl cache op).
Proof.
  intros H0 Hb. destruct op as [c |]; simpl.
  - now apply wrapper_bounded.
  - split; [apply NoDup_nil_2 | exact H0].
Qed.

Lemma run_ops_bounded (ops : list (@Op V)) :
  0 <= maxsize -> bounded maxsize (run_ops maxsize ttl ops).
Proof.
  intros H0. unfold run_ops.
  assert (Hgen : forall cache : @Cache V, bounded maxsize cache ->
                               bounded maxsize (fold_left (step maxsize ttl) ops cache)).
  { induction ops as [| op rest IH]; intros cache Hb; simpl; [exact Hb |].
    apply IH. now apply step_bounded. }
  apply Hgen. split; [apply NoDup_nil_2 | exact H0].
Qed.

End LightweightCacheProofs.

(** C10, as the code has it. For every decorated function and every
    sequence of calls and clears on a decorator with [maxsize >= 0], the
    cache holds at most [maxsize] entries after each operation. A call
    that stores a result applies the size limit to the cache with the new
    entry in it. Within the limit nothing is evicted. Over it the cache
    holds [maxsize + 1] entries, and the [len(cache) - maxsize + 1] keys
    with the oldest timestamps are deleted: two of them (the only one
    when [maxsize] is 0), one more than the bound needs, so that
    [maxsize - 1] entries are left; the entries that stay are unchanged
    and none of them is older than a deleted one. [cache_clear()] empties
    the cache. *)
Theorem lightweight_cache_bounded {V : Type} (maxsize : Z) (ttl : Q)
    (ops : list (@Op V)) :
  0 <= maxsize ->
  let cache := run_ops maxsize ttl ops in
  cache_size cache <= maxsize
  /\ (forall (c : Call) cache1 result,
        cache_lookup ttl c cache = inr cache1 ->
        call_func c = Ok result ->
        let cache2 := cache_set (call_key c) (result, call_time c) cache1 in
        let cache3 := limit_cache_size maxsize cache2 in
        wrapper maxsize ttl c cache = (Ok result, cache3)
        /\ cache_size cache3 <= maxsize
        /\ cache3 `sublist_of` cache2
        /\ (cache_size cache2 <= maxsize -> cache3 = cache2)
        /\ (cache_size cache2 > maxsize ->
            cache_size cache2 = maxsize + 1
            /\ cache3 = delete_keys (oldest_keys maxsize cache2) cache2
            /\ Z.of_nat (length (oldest_keys maxsize cache2)) = Z.min 2 (maxsize + 1)
            /\ cache_size cache3 = Z.max 0 (maxsize - 1))
        /\ (forall k k',
              k ∈ keys cache2 -> k ∉ keys cache3 -> k' ∈ keys cache3 ->
              (cached_time cache2 k <= cached_time cache2 k')%Q))
  /\ cache_clear cache = []
  /\ cache_size (cache_clear cache) = 0.
Proof.
  intros H0 cache.
  destruct (run_ops_bounded maxsize ttl ops H0) as [Hnd Hsize]. fold cache in Hnd, Hsize.
  split; [exact Hsize |]. split; [| split; reflexivity].
  intros c cache1 result Hlook Hfunc cache2 cache3.
  destruct (cache_lookup_miss ttl c cache cache1 Hnd Hlook) as (Hnd1 & Hkey & Hsub).
  destruct (stored_NoDup cache1 (call_key c) (result, call_time c) Hnd1 Hkey)
    as [Hnd2 Hsize2]. fold cache2 in Hnd2, Hsize2.
  apply sublist_cache_size in Hsub.
  split; [| split; [| split; [| split; [| split]]]].
  - unfold wrapper. now rewrite Hlook, Hfunc.
  - now apply limit_cache_size_bound.
  - apply limit_cache_size_sublist.
  - apply limit_cache_size_small.
  - intros Hover.
    pose proof (oldest_keys_length maxsize cache2 H0 Hover) as Hold.
    split; [lia |]. split; [now apply limit_cache_size_over |].
    split; [lia |]. now apply limit_cache_size_over_length.
  - intros k k'. apply limit_cache_size_oldest.
Qed.

Lemma lightweight_cache_bounded_witness :
  cache_size (run_ops 2 300 [call_at "(1,)[]" 10 1; call_at "(2,)[]" 11 4;
                             call_at "(3,)[]" 12 9]) <= 2.
Proof.
  destruct (lightweight_cache_bounded 2 300
              [call_at "(1,)[]" 10 1; call_at "(2,)[]" 11 4; call_at "(3,)[]" 12 9])
    as [Hsize _].
  - lia.
  - exact Hsize.
Defined.

(** C10 as the specification words it fails twice. With [maxsize = 2]
    and two entries in the cache, a call with a third key leaves one
    entry: the eviction does not stop when the bound holds, and the
    entry of the second key, which evicting until the bound holds would
    keep, is gone. With [maxsize = -1] the cache is empty after a call
    and so holds more than [maxsize] entries. *)
Lemma eviction_goes_past_the_bound :
  let cache := run_ops 2 300 [call_at "(1,)[]" 10 1; call_at "(2,)[]" 11 4] in
  let third := {| call_key := "(3,)[]"; call_time := 12; call_func := Ok 9 |} in
  let stored := cache_set "(3,)[]" (9, 12%Q) cache in
  cache_size stored > 2
  /\ evicted_until_the_bound_holds 2 stored
     = [("(2,)[]", (4, 11%Q)); ("(3,)[]", (9, 12%Q))]
  /\ snd (wrapper 2 300 third cache) = [("(3,)[]", (9, 12%Q))]
  /\ snd (wrapper 2 300 third cache) <> evicted_until_the_bound_holds 2 stored
  /\ ~ cache_size (run_ops (-1) 300 [call_at "(1,)[]" 10 1]) <= -1.
Proof.
  cbv zeta. split; [vm_compute; reflexivity |].
  split; [reflexivity |]. split; [reflexivity |].
  split; [discriminate |]. vm_compute. intros H. now apply H.
Qed.

(** With [maxsize = 2], the third distinct key evicts the two oldest
    entries: one entry stays. *)
Example third_key_evicts_two :
  run_ops 2 300 [call_at "(1,)[]" 10 1; call_at "(2,)[]" 11 4; call_at "(3,)[]" 12 9]
  = [("(3,)[]", (9, 12%Q))].
Proof. reflexivity. Qed.

(** An entry past its TTL is deleted and computed again. *)
Example expired_entry_is_recomputed :
  wrapper 2 300 {| call_key := "(1,)[]"; call_time := 310; call_func := Ok 5 |}
    [("(1,)[]", (1, 10%Q))]
  = (Ok 5, [("(1,)[]", (5, 310%Q))]).
Proof. reflexivity. Qed.

(** ** Frames: a method only appends to the trace *)

Lemma framed_ret {A} (a : A) : framed (ret a).
Proof. intros [g0 tr]. unfold ret. simpl. now rewrite app_nil_r. Qed.

Lemma framed_raise {A} (e : PyExc) : framed (@raise A e).
Proof. intros [g0 tr]. unfold raise. simpl. now rewrite app_nil_r. Qed.

Lemma framed_extern {A} (r : Res A) : framed (extern r).
Proof. intros [g0 tr]. unfold extern. simpl. now rewrite app_nil_r. Qed.

Lemma framed_get_self : framed get_self.
Proof. intros [g0 tr]. unfold get_self. simpl. now rewrite app_nil_r. Qed.

Lemma framed_put_self (g : ResourceGuardian) : framed (put_self g).
Proof. intros [g0 tr]. unfold put_self. simpl. now rewrite app_nil_r. Qed.

Lemma framed_emit (e : Event) : framed (emit e).
Proof. intros st. reflexivity. Qed.

Lemma framed_log (message : string) (level : Level) : framed (log message level).
Proof. apply framed_emit. Qed.

Lemma framed_bind {A B} (m : M A) (k : A -> M B) :
  framed m -> (forall a, framed (k a)) -> framed (bind m k).
Proof.
  intros Hm Hk st. unfold bind. rewrite (Hm st).
  destruct (m (fresh_state (self st))) as [[a | e] [g1 t1]]; simpl.
  - rewrite (Hk a {| self := g1; trace := trace st ++ t1 |}).
    rewrite (Hk a {| self := g1; trace := t1 |}). simpl.
    now rewrite app_assoc.
  - reflexivity.
Qed.

Lemma framed_try_except {A} (body : M A) (handler : PyExc -> M A) :
  framed body -> (forall e, framed (handler e)) -> framed (try_except body handler).
Proof.
  intros Hm Hk st. unfold try_except. rewrite (Hm st).
  destruct (body (fresh_state (self st))) as [[a | e] [g1 t1]]; simpl.
  - reflexivity.
  - rewrite (Hk e {| self := g1; trace := trace st ++ t1 |}).
    rewrite (Hk e {| self := g1; trace := t1 |}). simpl.
    now rewrite app_assoc.
Qed.

Lemma framed_if {A} (b : bool) (m1 m2 : M A) :
  framed m1 -> framed m2 -> framed (if b then m1 else m2).
Proof. now destruct b. Qed.

Ltac framed_tac :=
  repeat first
    [ progress intros
    | apply framed_bind | apply framed_try_except | apply framed_if
    | apply framed_ret | apply framed_raise | apply framed_extern
    | apply framed_get_self | apply framed_put_self | apply framed_log
    | apply framed_emit
    | match goal with
      | |- framed (match ?x with _ => _ end) => destruct x
      end ].

Lemma framed_get_service_pid (env : TickEnv) : framed (get_service_pid env).
Proof. unfold get_service_pid. framed_tac. Qed.

Lemma framed_get_process_stats (env : TickEnv) (pid : Z) :
  framed (get_process_stats env pid).
Proof. unfold get_process_stats. framed_tac. Qed.

Lemma framed_get_system_stats (env : TickEnv) : framed (get_system_stats env).
Proof. unfold get_system_stats. framed_tac. Qed.

Lemma framed_restart_service (env : TickEnv) (reason : string) :
  framed (restart_service env reason).
Proof. unfold restart_service. framed_tac. Qed.

Lemma framed_cleanup_memory (env : TickEnv) : framed (cleanup_memory env).
Proof. unfold cleanup_memory. framed_tac. Qed.

Lemma framed_start_service (env : TickEnv) : framed (start_service env).
Proof. unfold start_service. framed_tac. Qed.

Lemma framed_check_running (env : TickEnv) (pid : Z) : framed (check_running env pid).
Proof.
  unfold check_running.
  pose proof framed_get_process_stats. pose proof framed_get_system_stats.
  pose proof framed_restart_service. pose proof framed_cleanup_memory.
  framed_tac; auto.
Qed.

Lemma framed_check_service_health (env : TickEnv) : framed (check_service_health env).
Proof.
  unfold check_service_health.
  pose proof framed_get_service_pid. pose proof framed_start_service.
  pose proof framed_check_running.
  framed_tac; auto.
Qed.

(** The tick of a guardian in any state is its tick from a fresh state,
    with the events put after those already there. *)
Lemma check_service_health_frame (env : TickEnv) (st : State) :
  check_service_health env st
  = (health_outcome env (self st),
     {| self := health_self env (self st);
        trace := trace st ++ health_events env (self st) |}).
Proof. apply framed_check_service_health. Qed.

(** ** The steps of a tick *)

Lemma check_service_health_running (env : TickEnv) (st : State) (pid : Z) :
  main_pid env = Ok pid -> pid > 0 ->
  check_service_health env st
  = check_running env pid (add_events [show_command (service_name (self st))] st).
Proof.
  intros Hpid Hpos. unfold check_service_health, bind.
  rewrite get_service_pid_run, Hpid.
  assert (Hgt : (pid >? 0) = true) by lia. rewrite Hgt. simpl.
  assert (Hne : (pid =? 0) = false) by lia. now rewrite Hne.
Qed.

Lemma check_service_health_stopped (env : TickEnv) (st : State) :
  (forall pid, main_pid env = Ok pid -> pid <= 0) ->
  check_service_health env st
  = start_service env (add_events [show_command (service_name (self st))] st).
Proof.
  intros Hpid. unfold check_service_health, bind. rewrite get_service_pid_run.
  destruct (main_pid env) as [pid | e]; [| reflexivity].
  specialize (Hpid pid eq_refl).
  assert (Hgt : (pid >? 0) = false) by lia. now rewrite Hgt.
Qed.

Lemma start_service_run (env : TickEnv) (st : State) :
  start_service env st
  = (Ok tt, add_events (start_events env (service_name (self st))) st).
Proof.
  unfold start_service, start_events, add_events, try_except, bind, log, emit,
    get_self, extern. simpl.
  destruct (start_run env); simpl; rewrite <- !app_assoc; reflexivity.
Qed.

Lemma check_running_vanished (env : TickEnv) (st : State) (pid : Z) (e : PyExc) :
  process_query env pid = Raise e ->
  check_running env pid st
  = (Ok tt,
     add_events
       (EvProcess pid ::
        (if is_NoSuchProcess e then []
         else [EvLog ERROR ("Error getting process stats: " +:+ exc_text e)])
        ++ [EvLog ERROR "Could not get process statistics"]) st).
Proof.
  intros Hq. unfold check_running, get_process_stats, add_events, try_except, bind,
    log, emit, extern, ret. simpl. rewrite Hq. simpl.
  destruct (is_NoSuchProcess e); simpl; rewrite <- !app_assoc; reflexivity.
Qed.

Lemma check_running_no_system_stats (env : TickEnv) (st : State) (pid : Z)
    (stats : ProcessStats) (e : PyExc) :
  process_query env pid = Ok stats -> system_query env = Raise e ->
  check_running env pid st
  = (Raise (mkExc TypeError "'NoneType' object is not subscriptable"),
     add_events [EvProcess pid; EvSystem;
                 EvLog ERROR ("Error getting system stats: " +:+ exc_text e)] st).
Proof.
  intros Hq Hs. unfold check_running, get_process_stats, get_system_stats, add_events,
    try_except, bind, log, emit, extern, ret. simpl. rewrite Hq. simpl. rewrite Hs. simpl.
  rewrite <- !app_assoc. reflexivity.
Qed.

Lemma check_running_stats (env : TickEnv) (st : State) (pid : Z)
    (stats : ProcessStats) (sys : SystemStats) :
  process_query env pid = Ok stats -> system_query env = Ok sys ->
  check_running env pid st
  = act_on_stats env stats sys
      (add_events [EvProcess pid; EvSystem; EvLog INFO (stats_line stats sys)] st).
Proof.
  intros Hq Hs. unfold check_running, get_process_stats, get_system_stats,
    act_on_stats, add_events, stats_line, stats_message, try_except, bind, log, emit,
    extern, ret, get_self.
  simpl. rewrite Hq. simpl. rewrite Hs. simpl.
  rewrite <- !app_assoc. reflexivity.
Qed.

Lemma restart_service_run (env : TickEnv) (reason : string) (st : State) :
  restart_service env reason st
  = (Ok match restart_run env with
        | Ok result => returncode result =? 0
        | Raise _ => false
        end,
     {| self := match restart_run env with
                | Ok result =>
                    if returncode result =? 0
                    then with_restart (Some (now_restart env))
                           (restart_count (self st) + 1) (self st)
                    else self st
                | Raise _ => self st
                end;
        trace := trace st ++ restart_events env (service_name (self st)) reason |}).
Proof.
  unfold restart_service, restart_events, restart_command, try_except, bind, log,
    emit, extern, ret, get_self, put_self. simpl.
  destruct (restart_run env) as [result | e]; simpl.
  - destruct (returncode result =? 0); simpl; rewrite <- !app_assoc; reflexivity.
  - rewrite <- !app_assoc. reflexivity.
Qed.

Lemma cleanup_memory_run (env : TickEnv) (st : State) :
  cleanup_memory env st
  = (Ok tt,
     add_events (if enable_memory_cleanup (self st) then cleanup_events env else []) st).
Proof.
  unfold cleanup_memory, cleanup_events, add_events, try_except, bind, log, emit,
    extern, ret, get_self. simpl.
  destruct (enable_memory_cleanup (self st)); simpl.
  - destruct (sync_run env); simpl; [| rewrite <- !app_assoc; reflexivity].
    destruct (drop_caches_open env); simpl; [| rewrite <- !app_assoc; reflexivity].
    destruct (drop_caches_run env); simpl; rewrite <- !app_assoc; reflexivity.
  - destruct st. simpl. now rewrite app_nil_r.
Qed.

Lemma act_on_stats_run (env : TickEnv) (stats : ProcessStats) (sys : SystemStats)
    (st : State) :
  act_on_stats env stats sys st
  = (Ok tt,
     {| self := if fst (should_restart_service (self st) (now_policy env) stats)
                then restarted env (self st) else self st;
        trace := trace st ++ decision_events env (self st) stats
                   ++ cleanup_check_events env (self st) sys |}).
Proof.
  unfold act_on_stats, decision_events, cleanup_check_events, restarted.
  unfold bind at 1. unfold get_self at 1. simpl.
  unfold bind at 1.
  destruct (fst (should_restart_service (self st) (now_policy env) stats)).
  - unfold bind at 1. rewrite restart_service_run. unfold ret at 1. simpl.
    destruct (Qgtb (sys_memory_percent sys) 85).
    + rewrite cleanup_memory_run. unfold add_events, restart_events. simpl.
      rewrite <- !app_assoc.
      destruct (restart_run env) as [result | e]; simpl; [| reflexivity].
      destruct (returncode result =? 0); reflexivity.
    + unfold ret, restart_events. simpl. rewrite ?app_nil_r.
      destruct (restart_run env) as [result | e]; simpl; [| reflexivity].
      destruct (returncode result =? 0); reflexivity.
  - unfold ret at 1. simpl.
    destruct (Qgtb (sys_memory_percent sys) 85).
    + rewrite cleanup_memory_run. unfold add_events. now simpl.
    + unfold ret. destruct st. simpl. now rewrite app_nil_r.
Qed.

(** *** The four ways a tick can go *)

Section TickCases.

Variable env : TickEnv.
Variable g : ResourceGuardian.

Lemma health_stopped :
  (forall pid, main_pid env = Ok pid -> pid <= 0) ->
  check_service_health env (fresh_state g)
  = (Ok tt,
     {| self := g;
        trace := show_command (service_name g) :: start_events env (service_name g) |}).
Proof.
  intros H. rewrite check_service_health_stopped by assumption.
  now rewrite start_service_run.
Qed.

Lemma health_vanished (pid : Z) (e : PyExc) :
  main_pid env = Ok pid -> pid > 0 -> process_query env pid = Raise e ->
  check_service_health env (fresh_state g)
  = (Ok tt,
     {| self := g;
        trace := show_command (service_name g) :: EvProcess pid ::
                 (if is_NoSuchProcess e then []
                  else [EvLog ERROR ("Error getting process stats: " +:+ exc_text e)])
                 ++ [EvLog ERROR "Could not get process statistics"] |}).
Proof.
  intros Hpid Hpos Hq. rewrite (check_service_health_running env _ pid) by assumption.
  now rewrite (check_running_vanished env _ pid e).
Qed.

Lemma health_no_system_stats (pid : Z) (stats : ProcessStats) (e : PyExc) :
  main_pid env = Ok pid -> pid > 0 -> process_query env pid = Ok stats ->
  system_query env = Raise e ->
  check_service_health env (fresh_state g)
  = (Raise (mkExc TypeError "'NoneType' object is not subscriptable"),
     {| self := g;
        trace := [show_command (service_name g); EvProcess pid; EvSystem;
                  EvLog ERROR ("Error getting system stats: " +:+ exc_text e)] |}).
Proof.
  intros Hpid Hpos Hq Hs. rewrite (check_service_health_running env _ pid) by assumption.
  now rewrite (check_running_no_system_stats env _ pid stats e).
Qed.

Lemma health_with_stats (pid : Z) (stats : ProcessStats) (sys : SystemStats) :
  main_pid env = Ok pid -> pid > 0 -> process_query env pid = Ok stats ->
  system_query env = Ok sys ->
  check_service_health env (fresh_state g)
  = (Ok tt,
     {| self := if fst (should_restart_service g (now_policy env) stats)
                then restarted env g else g;
        trace := show_command (service_name g) :: EvProcess pid :: EvSystem ::
                 EvLog INFO (stats_line stats sys) ::
                 decision_events env g stats ++ cleanup_check_events env g sys |}).
Proof.
  intros Hpid Hpos Hq Hs. rewrite (check_service_health_running env _ pid) by assumption.
  rewrite (check_running_stats env _ pid stats sys) by assumption.
  now rewrite act_on_stats_run.
Qed.

(** Every tick is in one of the four cases. *)
Lemma tick_cases :
  (forall pid, main_pid env = Ok pid -> pid <= 0)
  \/ (exists pid e, main_pid env = Ok pid /\ pid > 0 /\ process_query env pid = Raise e)
  \/ (exists pid stats e,
        main_pid env = Ok pid /\ pid > 0 /\ process_query env pid = Ok stats
        /\ system_query env = Raise e)
  \/ (exists pid stats sys,
        main_pid env = Ok pid /\ pid > 0 /\ process_query env pid = Ok stats
        /\ system_query env = Ok sys).
Proof.
  destruct (main_pid env) as [pid | e] eqn:Hpid; [| left; discriminate].
  destruct (Z_le_gt_dec pid 0) as [Hle | Hgt].
  - left. now intros ? [= <-].
  - right. destruct (process_query env pid) as [stats | e] eqn:Hq.
    + right. destruct (system_query env) as [sys | e] eqn:Hs.
      * right. now exists pid, stats, sys.
      * left. now exists pid, stats, e.
    + left. now exists pid, e.
Qed.

End TickCases.

(** ** What a tick does, and when *)

Lemma restart_decided_iff (g : ResourceGuardian) (now : Z) (stats : ProcessStats) :
  fst (should_restart_service g now stats) = true
  <-> ~ disabled g /\ ~ cooling_down g now /\ ~ budget_spent g
      /\ (memory_exceeded g stats \/ cpu_exceeded g stats).
Proof.
  destruct (enable_auto_restart g) eqn:Hen.
  2:{ rewrite decision_disabled by exact Hen. simpl. split; [discriminate |].
      intros (Hd & _). exfalso. now apply Hd. }
  assert (Hd : ~ disabled g) by (unfold disabled; congruence).
  destruct (cooling_down_dec g now) as [(last & Hlast & Hlt) | Hcool].
  { rewrite (decision_cooldown g now stats last) by assumption. simpl.
    split; [discriminate |]. intros (_ & Hc & _). exfalso. apply Hc. now exists last. }
  rewrite decision_past_cooldown by assumption.
  unfold budget_spent, memory_exceeded, cpu_exceeded.
  destruct (restart_count g >=? max_restarts_per_hour g) eqn:Hb; simpl.
  { split; [discriminate |]. intros (_ & _ & Hn & _). lia. }
  destruct (Qgtb (memory_mb stats) (inject_Z (memory_limit_mb g))) eqn:Hm; simpl.
  { apply Qgtb_spec in Hm. split; [| reflexivity].
    intros _. repeat split; auto. lia. }
  destruct (Qgtb (cpu_percent stats) (inject_Z (cpu_limit_percent g))) eqn:Hc; simpl.
  { apply Qgtb_spec in Hc. split; [| reflexivity].
    intros _. repeat split; auto. lia. }
  apply Qgtb_false in Hm, Hc. split; [discriminate |].
  intros (_ & _ & _ & [H | H]); exfalso; eapply Qlt_not_le; eauto.
Qed.

Ltac not_among H :=
  simpl in H;
  repeat (destruct H as [H | H]; [discriminate H |]);
  try contradiction.

Lemma restart_command_not_in_start (env : TickEnv) (name : string) :
  ~ In (restart_command name) (show_command name :: start_events env name).
Proof.
  unfold restart_command, show_command, start_events. intros H.
  destruct (start_run env); not_among H.
Qed.

Lemma restart_command_not_in_cleanup (env : TickEnv) (g : ResourceGuardian)
    (sys : SystemStats) (name : string) :
  ~ In (restart_command name) (cleanup_check_events env g sys).
Proof.
  unfold restart_command, cleanup_check_events, cleanup_events. intros H.
  destruct (Qgtb _ _); [| not_among H].
  destruct (enable_memory_cleanup g); [| not_among H].
  destruct (sync_run env); [| not_among H].
  destruct (drop_caches_open env); [| not_among H].
  destruct (drop_caches_run env); not_among H.
Qed.

(** With the "Stats" message of [stats_message], the restart command is
    among the events of a tick in these cases only. *)
Lemma health_restart_iff (env : TickEnv) (g : ResourceGuardian) :
  In (restart_command (service_name g)) (health_events env g)
  <-> exists pid stats,
        main_pid env = Ok pid /\ pid > 0
        /\ process_query env pid = Ok stats
        /\ raised (system_query env) = false
        /\ ~ disabled g /\ ~ cooling_down g (now_policy env) /\ ~ budget_spent g
        /\ (memory_exceeded g stats \/ cpu_exceeded g stats).
Proof.
  unfold health_events.
  destruct (tick_cases env) as
    [H | [(pid & e & Hp & Hpos & Hq)
       | [(pid & stats & e & Hp & Hpos & Hq & Hs)
         | (pid & stats & sys & Hp & Hpos & Hq & Hs)]]].
  - rewrite health_stopped by assumption. simpl trace. split.
    + intros Hin. now apply restart_command_not_in_start in Hin.
    + intros (pid & stats & Hp & Hpos & _). specialize (H pid Hp). lia.
  - rewrite (health_vanished env _ pid e) by assumption. simpl trace. split.
    + unfold restart_command, show_command. intros Hin.
      destruct (is_NoSuchProcess e); not_among Hin.
    + intros (pid' & stats & Hp' & _ & Hq' & _). congruence.
  - rewrite (health_no_system_stats env _ pid stats e) by assumption. simpl trace. split.
    + unfold restart_command, show_command. intros Hin. not_among Hin.
    + intros (pid' & stats' & _ & _ & _ & Hr & _). rewrite Hs in Hr. discriminate.
  - rewrite (health_with_stats env _ pid stats sys) by assumption. simpl trace.
    unfold decision_events.
    destruct (fst (should_restart_service g (now_policy env) stats)) eqn:Hdec.
    + split.
      * intros _. apply restart_decided_iff in Hdec. exists pid, stats.
        rewrite Hs. simpl. tauto.
      * intros _. unfold restart_events. simpl. auto 10.
    + split.
      * intros Hin. exfalso.
        unfold restart_command, show_command in Hin.
        repeat (destruct Hin as [Hin | Hin]; [discriminate Hin |]).
        now apply (restart_command_not_in_cleanup env g sys (service_name g)).
      * intros (pid' & stats' & Hp' & _ & Hq' & _ & Hpol).
        assert (pid' = pid) by congruence. subst pid'.
        assert (stats' = stats) by congruence. subst stats'.
        apply restart_decided_iff in Hpol. congruence.
Qed.

Lemma sync_not_in_restart (env : TickEnv) (name reason : string) :
  ~ In (EvRun ["sync"]) (restart_events env name reason).
Proof.
  unfold restart_events, restart_command. intros H.
  destruct (restart_run env) as [result | e]; [destruct (returncode result =? 0) |];
    not_among H.
Qed.

Lemma health_cleanup_iff (env : TickEnv) (g : ResourceGuardian) :
  In (EvRun ["sync"]) (health_events env g)
  <-> exists pid stats sys,
        main_pid env = Ok pid /\ pid > 0
        /\ process_query env pid = Ok stats
        /\ system_query env = Ok sys
        /\ (85 < sys_memory_percent sys)%Q
        /\ enable_memory_cleanup g = true.
Proof.
  unfold health_events.
  destruct (tick_cases env) as
    [H | [(pid & e & Hp & Hpos & Hq)
       | [(pid & stats & e & Hp & Hpos & Hq & Hs)
         | (pid & stats & sys & Hp & Hpos & Hq & Hs)]]].
  - rewrite health_stopped by assumption. simpl trace. split.
    + unfold show_command, start_events. intros Hin.
      destruct (start_run env); not_among Hin.
    + intros (pid & stats & sys & Hp & Hpos & _). specialize (H pid Hp). lia.
  - rewrite (health_vanished env _ pid e) by assumption. simpl trace. split.
    + unfold show_command. intros Hin. destruct (is_NoSuchProcess e); not_among Hin.
    + intros (pid' & stats & sys & Hp' & _ & Hq' & _). congruence.
  - rewrite (health_no_system_stats env _ pid stats e) by assumption. simpl trace. split.
    + unfold show_command. intros Hin. not_among Hin.
    + intros (pid' & stats' & sys & _ & _ & _ & Hs' & _). congruence.
  - rewrite (health_with_stats env _ pid stats sys) by assumption. simpl trace.
    unfold cleanup_check_events. split.
    + intros Hin. unfold show_command in Hin.
      repeat (destruct Hin as [Hin | Hin]; [discriminate Hin |]).
      apply in_app_or in Hin as [Hin | Hin].
      * exfalso. unfold decision_events in Hin.
        destruct (fst _); [| contradiction].
        now apply sync_not_in_restart in Hin.
      * exists pid, stats, sys.
        destruct (Qgtb (sys_memory_percent sys) 85) eqn:Hmem; [| contradiction].
        destruct (enable_memory_cleanup g); [| contradiction].
        apply Qgtb_spec in Hmem. auto 10.
    + intros (pid' & stats' & sys' & _ & _ & _ & Hs' & Hmem & Hen).
      assert (sys' = sys) by congruence. subst sys'.
      apply Qgtb_spec in Hmem. rewrite Hmem, Hen.
      do 4 right. apply in_or_app. right. unfold cleanup_events. now left.
Qed.

(** X3. A tick runs the memory cleanup exactly when the service has a
    pid, both snapshots are collected, system memory is above 85 percent
    and cleanup is enabled; the restart decision of the tick has no part
    in it, and the cleanup never makes the tick raise. *)
Theorem cleanup_runs_iff (env : TickEnv) (st : State) :
  let g := self st in
  trace (snd (check_service_health env st)) = trace st ++ health_events env g
  /\ (In (EvRun ["sync"]) (health_events env g)
      <-> exists pid stats sys,
            main_pid env = Ok pid /\ pid > 0
            /\ process_query env pid = Ok stats
            /\ system_query env = Ok sys
            /\ (85 < sys_memory_percent sys)%Q
            /\ enable_memory_cleanup g = true)
  /\ (In (EvRun ["sync"]) (health_events env g) ->
      fst (check_service_health env st) = Ok tt).
Proof.
  simpl. split; [now rewrite check_service_health_frame |].
  split; [apply health_cleanup_iff |].
  intros Hin. rewrite check_service_health_frame. simpl.
  apply health_cleanup_iff in Hin as (pid & stats & sys & Hp & Hpos & Hq & Hs & _).
  unfold health_outcome.
  now rewrite (health_with_stats env _ pid stats sys).
Qed.

(** X4. When the process has vanished between PID resolution and
    sampling (or its statistics cannot be read), the tick logs the ERROR
    "Could not get process statistics" and stops there: no system
    statistics are collected, nothing is restarted or cleaned, the
    attributes are unchanged and nothing is raised. An exception other
    than [NoSuchProcess] is logged first. *)
Theorem vanished_process_is_skipped (env : TickEnv) (st : State) (pid : Z)
    (e : PyExc) :
  main_pid env = Ok pid -> pid > 0 -> process_query env pid = Raise e ->
  check_service_health env st
  = (Ok tt,
     add_events
       (show_command (service_name (self st)) :: EvProcess pid ::
        (if is_NoSuchProcess e then []
         else [EvLog ERROR ("Error getting process stats: " +:+ exc_text e)])
        ++ [EvLog ERROR "Could not get process statistics"]) st).
Proof.
  intros Hp Hpos Hq. rewrite check_service_health_frame.
  unfold health_outcome, health_self, health_events.
  now rewrite (health_vanished env _ pid e).
Qed.

(** The attributes after a tick: the old ones, or the old ones with a
    restart recorded, and then the tick issued a restart that succeeded. *)
Lemma health_self_cases (env : TickEnv) (g : ResourceGuardian) :
  health_self env g = g
  \/ (health_self env g
        = with_restart (Some (now_restart env)) (restart_count g + 1) g
      /\ command_succeeded (restart_run env)
      /\ In (restart_command (service_name g)) (health_events env g)).
Proof.
  unfold health_self, health_events.
  destruct (tick_cases env) as
    [H | [(pid & e & Hp & Hpos & Hq)
       | [(pid & stats & e & Hp & Hpos & Hq & Hs)
         | (pid & stats & sys & Hp & Hpos & Hq & Hs)]]].
  - rewrite health_stopped by assumption. now left.
  - rewrite (health_vanished env _ pid e) by assumption. now left.
  - rewrite (health_no_system_stats env _ pid stats e) by assumption. now left.
  - rewrite (health_with_stats env _ pid stats sys) by assumption. simpl.
    unfold decision_events, restarted.
    destruct (fst (should_restart_service g (now_policy env) stats)); [| now left].
    destruct (restart_run env) as [result | e] eqn:Hrun; [| now left].
    destruct (returncode result =? 0) eqn:Hcode; [| now left].
    right. split; [reflexivity |]. split.
    + exists result. split; [reflexivity | lia].
    + unfold restart_events. simpl. auto 10.
Qed.

(** X5. The attributes of the guardian change in a tick only through a
    restart that the tick issued and that succeeded; they are then the
    old ones with [last_restart] set to the time of the restart and
    [restart_count] one higher. *)
Theorem tick_changes_attributes_by_restart_only (env : TickEnv) (st : State) :
  let st' := snd (check_service_health env st) in
  self st' = self st
  \/ (self st' = with_restart (Some (now_restart env)) (restart_count (self st) + 1)
                   (self st)
      /\ command_succeeded (restart_run env)
      /\ In (restart_command (service_name (self st)))
            (health_events env (self st))
      /\ trace st' = trace st ++ health_events env (self st)).
Proof.
  rewrite check_service_health_frame. simpl.
  destruct (health_self_cases env (self st)) as [H | (H & Hok & Hin)]; auto.
Qed.

(** ** The daemon loop *)

Lemma same_config_refl (g : ResourceGuardian) : same_config g g.
Proof. unfold same_config. now destruct g. Qed.

Lemma same_config_with_restart (g g' : ResourceGuardian) (last : option Z) (count : Z) :
  same_config g g' -> same_config g (with_restart last count g').
Proof. unfold same_config, with_restart. intros ->. reflexivity. Qed.

Lemma same_config_fields (g g' : ResourceGuardian) :
  same_config g g' ->
  max_restarts_per_hour g' = max_restarts_per_hour g
  /\ check_interval g' = check_interval g.
Proof. unfold same_config. intros ->. now split. Qed.

Lemma same_config_health (env : TickEnv) (g0 g : ResourceGuardian) :
  same_config g0 g -> same_config g0 (health_self env g).
Proof.
  intros H. destruct (health_self_cases env g) as [-> | [-> _]].
  - exact H.
  - now apply same_config_with_restart.
Qed.

Lemma daemon_tick_reset (env : TickEnv) (last_counter_reset : Z) (st : State) :
  now_loop env - last_counter_reset > one_hour ->
  daemon_tick env last_counter_reset st
  = health_then_sleep env (now_stamp env)
      {| self := with_restart (last_restart (self st)) 0 (self st);
         trace := trace st ++ [EvLog INFO "Restart counter reset"] |}.
Proof.
  intros H. unfold daemon_tick, health_then_sleep.
  assert (E : (now_loop env - last_counter_reset >? one_hour) = true) by lia.
  rewrite E. reflexivity.
Qed.

Lemma health_then_sleep_self (env : TickEnv) (l : Z) (st : State) :
  self (snd (health_then_sleep env l st)) = health_self env (self st).
Proof.
  destruct (health_then_sleep_run env l st) as [-> _].
  now rewrite check_service_health_frame.
Qed.

Lemma daemon_tick_self (env : TickEnv) (last_counter_reset : Z) (st : State) :
  self (snd (daemon_tick env last_counter_reset st))
  = health_self env (after_hourly_test env last_counter_reset (self st)).
Proof.
  unfold after_hourly_test.
  destruct (Z_le_gt_dec (now_loop env - last_counter_reset) one_hour) as [Hle | Hgt].
  - rewrite daemon_tick_no_reset by assumption.
    assert (E : (now_loop env - last_counter_reset >? one_hour) = false) by lia.
    rewrite E. apply health_then_sleep_self.
  - rewrite daemon_tick_reset by assumption.
    assert (E : (now_loop env - last_counter_reset >? one_hour) = true) by lia.
    rewrite E. apply health_then_sleep_self.
Qed.

Lemma same_config_after_hourly_test (env : TickEnv) (l : Z) (g0 g : ResourceGuardian) :
  same_config g0 g -> same_config g0 (after_hourly_test env l g).
Proof.
  intros H. unfold after_hourly_test. destruct (_ >? _); [| exact H].
  now apply same_config_with_restart.
Qed.

Lemma same_config_daemon_loop (envs : list TickEnv) (l : Z) (st : State)
    (g0 : ResourceGuardian) :
  same_config g0 (self st) -> same_config g0 (self (snd (daemon_loop envs l st))).
Proof.
  revert l st. induction envs as [| env rest IH]; intros l st H; simpl; [exact H |].
  unfold bind. pose proof (daemon_tick_self env l st) as Hself.
  destruct (daemon_tick env l st) as [[l' | e] st']; simpl in *.
  - apply IH. rewrite Hself.
    now apply same_config_health, same_config_after_hourly_test.
  - rewrite Hself. now apply same_config_health, same_config_after_hourly_test.
Qed.

(** [run_daemon], step by step. *)
Lemma run_daemon_run (now_start : Z) (envs : list TickEnv) (st : State) :
  run_daemon now_start envs st
  = match daemon_loop envs now_start (add_events (banner (self st)) st)
    with
    | (Ok _, st') =>
        (Ok StoppedByUser,
         add_events [EvLog INFO "Resource Guardian stopped by user"] st')
    | (Raise e, st') =>
        (Ok (Exit 1),
         add_events [EvLog ERROR ("Resource Guardian error: " +:+ exc_text e)] st')
    end.
Proof.
  unfold run_daemon, add_events, banner, bind, try_except, get_self, log, emit, ret.
  simpl. rewrite <- !app_assoc. simpl.
  destruct (daemon_loop envs now_start _) as [[[] | e] st']; reflexivity.
Qed.

(** The logs around the loop leave the attributes alone. *)
Lemma run_daemon_self (now_start : Z) (envs : list TickEnv) (st : State) :
  self (snd (run_daemon now_start envs st))
  = self (snd (daemon_loop envs now_start (add_events (banner (self st)) st))).
Proof.
  rewrite run_daemon_run.
  destruct (daemon_loop envs now_start _) as [[[] | e] st']; reflexivity.
Qed.

(** X6. However long the daemon runs and whatever happens in its
    ticks, the configuration of the guardian stays as it was loaded: only
    [last_restart] and [restart_count] ever change. *)
Theorem daemon_keeps_configuration (now_start : Z) (envs : list TickEnv)
    (st : State) :
  let g := self st in
  let g' := self (snd (run_daemon now_start envs st)) in
  service_name g' = service_name g
  /\ memory_limit_mb g' = memory_limit_mb g
  /\ cpu_limit_percent g' = cpu_limit_percent g
  /\ check_interval g' = check_interval g
  /\ restart_cooldown g' = restart_cooldown g
  /\ max_restarts_per_hour g' = max_restarts_per_hour g
  /\ enable_auto_restart g' = enable_auto_restart g
  /\ enable_memory_cleanup g' = enable_memory_cleanup g.
Proof.
  simpl. rewrite run_daemon_self.
  pose proof (same_config_daemon_loop envs now_start
                (add_events (banner (self st)) st) (self st)
                (same_config_refl (self st))) as H.
  unfold same_config in H. rewrite H. simpl. repeat split.
Qed.

(** *** The restart budget *)

Lemma budget_kept_by_health (env : TickEnv) (g : ResourceGuardian) :
  restart_count g <= max_restarts_per_hour g ->
  restart_count (health_self env g) <= max_restarts_per_hour g.
Proof.
  intros Hle. destruct (health_self_cases env g) as [-> | (-> & _ & Hin)]; [exact Hle |].
  apply health_restart_iff in Hin as (pid & stats & _ & _ & _ & _ & _ & _ & Hb & _).
  unfold budget_spent in Hb. simpl. lia.
Qed.

Lemma budget_kept_by_hourly_test (env : TickEnv) (l : Z) (g : ResourceGuardian) :
  0 <= max_restarts_per_hour g ->
  restart_count g <= max_restarts_per_hour g ->
  restart_count (after_hourly_test env l g) <= max_restarts_per_hour g.
Proof. intros H0 H. unfold after_hourly_test. now destruct (_ >? _). Qed.

Lemma budget_kept_by_loop (envs : list TickEnv) (l : Z) (st : State) (budget : Z) :
  0 <= budget ->
  max_restarts_per_hour (self st) = budget ->
  restart_count (self st) <= budget ->
  restart_count (self (snd (daemon_loop envs l st))) <= budget.
Proof.
  intros H0. revert l st.
  assert (Hstep : forall env l g,
             max_restarts_per_hour g = budget -> restart_count g <= budget ->
             max_restarts_per_hour (health_self env (after_hourly_test env l g)) = budget
             /\ restart_count (health_self env (after_hourly_test env l g)) <= budget).
  { intros env l g Hb Hle.
    pose proof (same_config_health env g (after_hourly_test env l g)
                  (same_config_after_hourly_test env l g g (same_config_refl g))) as Hc.
    apply same_config_fields in Hc as [Hmax _].
    pose proof (same_config_after_hourly_test env l g g (same_config_refl g)) as Hc'.
    apply same_config_fields in Hc' as [Hmax' _].
    split; [congruence |].
    rewrite <- Hb, <- Hmax'. apply budget_kept_by_health.
    rewrite Hmax', Hb.
    pose proof (budget_kept_by_hourly_test env l g) as Ht. rewrite Hb in Ht. auto. }
  induction envs as [| env rest IH]; intros l st Hb Hle; simpl; [exact Hle |].
  unfold bind. pose proof (daemon_tick_self env l st) as Hself.
  destruct (Hstep env l (self st) Hb Hle) as [Hb' Hle'].
  destruct (daemon_tick env l st) as [[l' | e] st']; simpl in *.
  - apply IH; now rewrite Hself.
  - now rewrite Hself.
Qed.

(** X7. A guardian that starts within its hourly budget stays within
    it: with [max_restarts_per_hour >= 0] and [restart_count] at most that
    maximum at the start, the count is at most the maximum after any run
    of the daemon, resets and failed restarts included. *)
Theorem daemon_keeps_restart_budget (now_start : Z) (envs : list TickEnv)
    (st : State) :
  0 <= max_restarts_per_hour (self st) ->
  restart_count (self st) <= max_restarts_per_hour (self st) ->
  restart_count (self (snd (run_daemon now_start envs st)))
  <= max_restarts_per_hour (self st).
Proof.
  intros H0 Hle. rewrite run_daemon_self.
  now apply budget_kept_by_loop.
Qed.

(** ** After a restart *)

(** X9. For [restart_cooldown] seconds after a successful restart the
    decision is "no restart", whatever the readings of memory and CPU. *)
Theorem cooldown_blocks_after_restart (env : TickEnv) (reason : string) (st : State)
    (now : Z) (stats : ProcessStats) :
  command_succeeded (restart_run env) ->
  now - now_restart env < restart_cooldown (self st) * 1000000 ->
  fst (should_restart_service (self (snd (restart_service env reason st))) now stats)
  = false.
Proof.
  intros Hok Hnow.
  destruct (restart_service_succeeded env reason st Hok) as [_ ->].
  unfold should_restart_service. simpl.
  destruct (enable_auto_restart (self st)); simpl; [| reflexivity].
  assert (Hcool : Qltb (total_seconds (now - now_restart env))
                    (inject_Z (restart_cooldown (self st))) = true).
  { apply Qltb_spec. unfold Qlt, total_seconds, inject_Z. simpl. lia. }
  now rewrite Hcool.
Qed.

(** ** The guardian: the theorems on sample ticks *)

Lemma vanished_process_is_skipped_witness :
  check_service_health env_vanished state_100mb
  = (Ok tt,
     {| self := guardian_100mb;
        trace := [EvRun ["systemctl"; "show"; "--property"; "MainPID"; "--value";
                         "frp-web-lite"];
                  EvProcess 1234;
                  EvLog ERROR "Could not get process statistics"] |}).
Proof.
  rewrite (vanished_process_is_skipped env_vanished state_100mb 1234
             (mkExc NoSuchProcess "process no longer exists"));
    [reflexivity | reflexivity | lia | reflexivity].
Defined.

Lemma daemon_keeps_restart_budget_witness :
  restart_count (self (snd (run_daemon 0 [env_at 10; env_at 20] state_100mb))) <= 3.
Proof.
  apply (daemon_keeps_restart_budget 0 [env_at 10; env_at 20] state_100mb);
    simpl; lia.
Defined.

Lemma cooldown_blocks_after_restart_witness :
  fst (should_restart_service
         (self (snd (restart_service (env_running 150 10 50 0) "memory" state_100mb)))
         100 (stats_of 150 95))
  = false.
Proof.
  apply (cooldown_blocks_after_restart (env_running 150 10 50 0) "memory" state_100mb
           100 (stats_of 150 95)).
  - eexists. split; reflexivity.
  - simpl. lia.
Defined.

(** ** The tick and the loop under every reading of line 204 *)

(** The methods given with the message as a parameter are the methods
    above when the message is [stats_message]. *)
Lemma with_stats_message :
  check_service_health_with stats_message = check_service_health
  /\ run_daemon_with stats_message = run_daemon.
Proof. split; reflexivity. Qed.

Section StatsLineProofs.

Variable message : ProcessStats -> option SystemStats -> Res string.

Lemma check_service_health_with_running (env : TickEnv) (st : State) (pid : Z) :
  main_pid env = Ok pid -> pid > 0 ->
  check_service_health_with message env st
  = check_running_with message env pid
      (add_events [show_command (service_name (self st))] st).
Proof.
  intros Hpid Hpos. unfold check_service_health_with, bind.
  rewrite get_service_pid_run, Hpid.
  assert (Hgt : (pid >? 0) = true) by lia. rewrite Hgt. simpl.
  assert (Hne : (pid =? 0) = false) by lia. now rewrite Hne.
Qed.

Lemma check_service_health_with_stopped (env : TickEnv) (st : State) :
  (forall pid, main_pid env = Ok pid -> pid <= 0) ->
  check_service_health_with message env st
  = start_service env (add_events [show_command (service_name (self st))] st).
Proof.
  intros Hpid. unfold check_service_health_with, bind. rewrite get_service_pid_run.
  destruct (main_pid env) as [pid | e]; [| reflexivity].
  specialize (Hpid pid eq_refl).
  assert (Hgt : (pid >? 0) = false) by lia. now rewrite Hgt.
Qed.

Lemma check_running_with_vanished (env : TickEnv) (st : State) (pid : Z) (e : PyExc) :
  process_query env pid = Raise e ->
  check_running_with message env pid st
  = (Ok tt,
     add_events
       (EvProcess pid ::
        (if is_NoSuchProcess e then []
         else [EvLog ERROR ("Error getting process stats: " +:+ exc_text e)])
        ++ [EvLog ERROR "Could not get process statistics"]) st).
Proof.
  intros Hq. unfold check_running_with, get_process_stats, add_events, try_except,
    bind, log, emit, extern, ret. simpl. rewrite Hq. simpl.
  destruct (is_NoSuchProcess e); simpl; rewrite <- !app_assoc; reflexivity.
Qed.

(** With the process statistics read, the tick collects the system
    snapshot and comes to the "Stats" log call: it ends there when the
    message raises, and goes on to the restart decision and the cleanup
    check when it does not. *)
Lemma check_running_with_stats (env : TickEnv) (st : State) (pid : Z)
    (stats : ProcessStats) :
  process_query env pid = Ok stats ->
  check_running_with message env pid st
  = match message stats (snapshot env) with
    | Raise e => (Raise e, add_events (EvProcess pid :: snapshot_events env) st)
    | Ok line =>
        act_on_snapshot env stats (snapshot env)
          (add_events (EvProcess pid :: snapshot_events env ++ [EvLog INFO line]) st)
    end.
Proof.
  intros Hq. unfold check_running_with, get_process_stats, get_system_stats,
    act_on_snapshot, snapshot, snapshot_events, add_events, try_except, bind, log,
    emit, extern, ret, get_self.
  simpl. rewrite Hq. simpl.
  destruct (system_query env) as [sys | e]; simpl.
  - destruct (message stats (Some sys)); simpl; rewrite <- ?app_assoc; reflexivity.
  - destruct (message stats None); simpl; rewrite <- ?app_assoc; reflexivity.
Qed.

Lemma act_on_snapshot_run (env : TickEnv) (stats : ProcessStats)
    (system_stats : option SystemStats) (st : State) :
  act_on_snapshot env stats system_stats st
  = (Ok tt,
     {| self := if fst (should_restart_service (self st) (now_policy env) stats)
                then restarted env (self st) else self st;
        trace := trace st ++ decision_events env (self st) stats
                   ++ snapshot_cleanup_events env (self st) system_stats |}).
Proof.
  destruct system_stats as [sys |].
  - apply (act_on_stats_run env stats sys st).
  - unfold act_on_snapshot, decision_events, snapshot_cleanup_events, restarted.
    unfold bind at 1. unfold get_self at 1. simpl.
    unfold bind at 1.
    destruct (fst (should_restart_service (self st) (now_policy env) stats)).
    + unfold bind at 1. rewrite restart_service_run. unfold ret, restart_events. simpl.
      rewrite ?app_nil_r.
      destruct (restart_run env) as [result | e]; simpl; [| reflexivity].
      destruct (returncode result =? 0); reflexivity.
    + unfold ret. destruct st. simpl. now rewrite app_nil_r.
Qed.

(** The three ways a tick can go before the "Stats" line. *)
Lemma tick_ways (env : TickEnv) :
  (forall pid, main_pid env = Ok pid -> pid <= 0)
  \/ (exists pid e, main_pid env = Ok pid /\ pid > 0 /\ process_query env pid = Raise e)
  \/ (exists pid stats,
        main_pid env = Ok pid /\ pid > 0 /\ process_query env pid = Ok stats).
Proof.
  destruct (main_pid env) as [pid | e] eqn:Hpid; [| left; discriminate].
  destruct (Z_le_gt_dec pid 0) as [Hle | Hgt].
  - left. now intros ? [= <-].
  - right. destruct (process_query env pid) as [stats | e] eqn:Hq.
    + right. now exists pid, stats.
    + left. now exists pid, e.
Qed.

(** What a tick leaves: how it ends, the attributes and the events put
    after those of the trace. *)
Lemma check_service_health_with_run (env : TickEnv) (st : State) :
  exists events,
    snd (check_service_health_with message env st)
    = {| self := self (snd (check_service_health_with message env st));
         trace := trace st ++ events |}
    /\ (raised (fst (check_service_health_with message env st)) = true
        <-> stats_line_fails message env)
    /\ (self (snd (check_service_health_with message env st)) = self st
        \/ self (snd (check_service_health_with message env st))
           = with_restart (Some (now_restart env)) (restart_count (self st) + 1)
               (self st))
    /\ (In (restart_command (service_name (self st))) events
        <-> exists pid stats,
              main_pid env = Ok pid /\ pid > 0
              /\ process_query env pid = Ok stats
              /\ raised (message stats (snapshot env)) = false
              /\ ~ disabled (self st) /\ ~ cooling_down (self st) (now_policy env)
              /\ ~ budget_spent (self st)
              /\ (memory_exceeded (self st) stats \/ cpu_exceeded (self st) stats)).
Proof.
  unfold stats_line_fails.
  destruct (tick_ways env) as
    [H | [(pid & e & Hp & Hpos & Hq) | (pid & stats & Hp & Hpos & Hq)]].
  - rewrite check_service_health_with_stopped by assumption.
    rewrite start_service_run.
    exists (show_command (service_name (self st))
              :: start_events env (service_name (self st))).
    unfold add_events. simpl. rewrite <- app_assoc. split; [reflexivity |].
    split; [| split; [now left |]].
    + split; [discriminate |].
      intros (pid & stats & Hp & Hpos & _). specialize (H pid Hp). lia.
    + split.
      * intros Hin. now apply restart_command_not_in_start in Hin.
      * intros (pid & stats & Hp & Hpos & _). specialize (H pid Hp). lia.
  - rewrite (check_service_health_with_running env _ pid) by assumption.
    rewrite (check_running_with_vanished env _ pid e) by assumption.
    eexists. unfold add_events. simpl. rewrite <- app_assoc. split; [reflexivity |].
    split; [| split; [now left |]].
    + split; [discriminate |].
      intros (pid' & stats & Hp' & _ & Hq' & _). congruence.
    + split.
      * unfold restart_command, show_command. intros Hin.
        destruct (is_NoSuchProcess e); not_among Hin.
      * intros (pid' & stats & Hp' & _ & Hq' & _). congruence.
  - rewrite (check_service_health_with_running env _ pid) by assumption.
    rewrite (check_running_with_stats env _ pid stats) by assumption.
    destruct (message stats (snapshot env)) as [line | e] eqn:Hline.
    + rewrite act_on_snapshot_run. unfold add_events. simpl.
      eexists. rewrite <- !app_assoc. split; [reflexivity |].
      split; [| split].
      * split; [discriminate |].
        intros (pid' & stats' & Hp' & _ & Hq' & Hr).
        assert (pid' = pid) by congruence. subst pid'.
        assert (stats' = stats) by congruence. subst stats'.
        rewrite Hline in Hr. discriminate.
      * unfold restarted.
        destruct (fst (should_restart_service _ _ _)); [| now left].
        destruct (restart_run env) as [result | e]; [| now left].
        destruct (returncode result =? 0); [now right | now left].
      * unfold decision_events.
        destruct (fst (should_restart_service (self st) (now_policy env) stats))
          eqn:Hdec.
        -- split.
           ++ intros _. apply restart_decided_iff in Hdec. exists pid, stats.
              rewrite Hline. simpl. tauto.
           ++ intros _. unfold restart_events, snapshot_events. simpl.
              destruct (system_query env); simpl; auto 12.
        -- split.
           ++ intros Hin. exfalso.
              unfold restart_command, show_command, snapshot_events in Hin.
              simpl in Hin.
              destruct Hin as [Hin | Hin]; [discriminate Hin |].
              destruct Hin as [Hin | Hin]; [discriminate Hin |].
              destruct Hin as [Hin | Hin]; [discriminate Hin |].
              unfold snapshot_cleanup_events, snapshot in Hin.
              destruct (system_query env) as [sys | e]; simpl in Hin.
              ** destruct Hin as [Hin | Hin]; [discriminate Hin |].
                 now apply (restart_command_not_in_cleanup env (self st) sys
                              (service_name (self st))).
              ** not_among Hin.
           ++ intros (pid' & stats' & Hp' & _ & Hq' & _ & Hpol).
              assert (pid' = pid) by congruence. subst pid'.
              assert (stats' = stats) by congruence. subst stats'.
              apply restart_decided_iff in Hpol. congruence.
    + unfold add_events. simpl. eexists. rewrite <- !app_assoc. split; [reflexivity |].
      split; [| split; [now left |]].
      * split; [| reflexivity]. intros _. exists pid, stats. now rewrite Hline.
      * split.
        -- unfold restart_command, show_command, snapshot_events. intros Hin.
           destruct (system_query env); not_among Hin.
        -- intros (pid' & stats' & Hp' & _ & Hq' & Hr & _).
           assert (pid' = pid) by congruence. subst pid'.
           assert (stats' = stats) by congruence. subst stats'.
           rewrite Hline in Hr. discriminate.
Qed.

End StatsLineProofs.

Section StatsLineLoop.

Variable message : ProcessStats -> option SystemStats -> Res string.





End StatsLineLoop.

(** X1. Every step of a tick but one absorbs its failures. For a
    guardian whose settings have the types of their defaults, and however
    the "Stats" log call of lines 199 to 205 builds its message,
    [check_service_health] raises exactly when the service has a pid, its
    process statistics are read, and building that message raises; when
    the pid is absent, the start fails, the process has vanished, the
    snapshot cannot be collected, the restart or the cleanup fails, the
    tick returns. *)
Theorem tick_raises_only_at_the_stats_line
    (message : ProcessStats -> option SystemStats -> Res string) (env : TickEnv)
    (st : State) :
  raised (fst (check_service_health_with message env st)) = true
  <-> exists pid stats,
        main_pid env = Ok pid /\ pid > 0
        /\ process_query env pid = Ok stats
        /\ raised (message stats (snapshot env)) = true.
Proof.
  destruct (check_service_health_with_run message env st) as (events & _ & Hraise & _).
  exact Hraise.
Qed.

(** X2. However the "Stats" log call builds its message, a tick puts
    its events after those already in the trace, and among them is the
    restart command exactly when the service has a pid, its process
    statistics are read, the "Stats" message is built, auto-restart is
    enabled, the cooldown is over, the hourly budget is not spent, and
    memory or CPU is above its limit. Whether the system snapshot was
    collected matters through the message only. *)
Theorem restart_issued_iff
    (message : ProcessStats -> option SystemStats -> Res string) (env : TickEnv)
    (st : State) :
  let g := self st in
  exists events,
    trace (snd (check_service_health_with message env st)) = trace st ++ events
    /\ (In (restart_command (service_name g)) events
        <-> exists pid stats,
              main_pid env = Ok pid /\ pid > 0
              /\ process_query env pid = Ok stats
              /\ raised (message stats (snapshot env)) = false
              /\ ~ disabled g /\ ~ cooling_down g (now_policy env)
              /\ ~ budget_spent g
              /\ (memory_exceeded g stats \/ cpu_exceeded g stats)).
Proof.
  cbv zeta.
  destruct (check_service_health_with_run message env st)
    as (events & Hsnd & _ & _ & Hrestart).
  exists events. split; [now rewrite Hsnd | exact Hrestart].
Qed.


(** *** The two readings on a tick without a system snapshot *)

(** With the lone brace of line 204 read as text, the tick raises a
    [TypeError] at the "Stats" log call; with the line read as the
    condition it spells, the tick logs [N/A], takes the restart decision
    and returns. *)
Example stats_line_without_snapshot :
  check_service_health_with stats_message env_no_system_stats state_100mb
  = (Raise (mkExc TypeError "'NoneType' object is not subscriptable"),
     {| self := guardian_100mb;
        trace := [show_command "frp-web-lite"; EvProcess 1234; EvSystem;
                  EvLog ERROR "Error getting system stats: no /proc"] |})
  /\ check_service_health_with stats_message_guarded env_no_system_stats state_100mb
     = (Ok tt,
        {| self := guardian_100mb;
           trace := [show_command "frp-web-lite"; EvProcess 1234; EvSystem;
                     EvLog ERROR "Error getting system stats: no /proc";
                     EvLog INFO "Stats - Memory: 50.0MB (3.2%), CPU: 10.0%, Threads: 4, System Memory: N/A"] |}).
Proof. split; reflexivity. Qed.

(** ** [load_config]: a file that is not an object *)

(** Whether an element is refused, and with what exception, does not
    depend on the dictionary; a refused element leaves it as it is. *)
Lemma update_element_refused (i : nat) (d d' : gmap string PyVal) (elem : PyVal)
    (e : PyExc) :
  fst (update_element i d elem) = Raise e ->
  update_element i d' elem = (Raise e, d').
Proof.
  unfold update_element. intros H.
  repeat match type of H with
         | context [match ?x with _ => _ end] => destruct x; simpl in H
         end;
    try discriminate; injection H as <-; reflexivity.
Qed.

Lemma update_sequence_pairs (items : list (string * PyVal)) (rest : list PyVal)
    (i : nat) (d : gmap string PyVal) :
  update_sequence i d (pairs items ++ rest)
  = update_sequence (i + length items) (update_items d items) rest.
Proof.
  revert i d. induction items as [| [k v] items IH]; intros i d; simpl.
  - now rewrite Nat.add_0_r.
  - rewrite IH. unfold update_items. simpl. f_equal. lia.
Qed.

(** X25. The words "using defaults" of the log are not the whole truth
    for a file that holds a JSON array: the pairs before the first
    element that [dict.update] refuses are applied, the error is logged,
    and the configuration returned is the defaults with those pairs set. *)
Theorem load_config_keeps_pairs_before_a_bad_element (env : ConfigEnv)
    (config_file : string) (tr : list Event) (items : list (string * PyVal))
    (bad : PyVal) (rest : list PyVal) (e : PyExc)
    (Hexists : path_exists env = true)
    (Hopen : open_file env = Ok tt)
    (Hload : json_load env = Ok (PList (pairs items ++ bad :: rest)))
    (Hbad : fst (update_element (length items) default_config bad) = Raise e) :
  load_config env config_file tr
  = (Ok (update_items default_config items),
     tr ++ [EvOpen config_file;
            EvLog INFO ("Error loading config: " +:+ exc_text e +:+ ", using defaults")]).
Proof.
  unfold load_config, load_config_try. rewrite Hexists, Hopen, Hload.
  unfold dict_update. rewrite update_sequence_pairs. simpl.
  rewrite (update_element_refused _ _ (update_items default_config items) _ _ Hbad).
  now rewrite <- app_assoc.
Qed.

Lemma load_config_keeps_pairs_before_a_bad_element_witness :
  load_config array_file "guardian_config.json" []
  = (Ok (<["memory_limit_mb" := PInt 1]> default_config),
     [EvOpen "guardian_config.json";
      EvLog INFO "Error loading config: cannot convert dictionary update sequence element #1 to a sequence, using defaults"]).
Proof.
  apply (load_config_keeps_pairs_before_a_bad_element array_file "guardian_config.json"
           [] [("memory_limit_mb", PInt 1)] (PInt 5) [] (element_error 1));
    reflexivity.
Defined.

(** ** The panel: results of commands *)

Lemma execute_command_internal_result (run : list string -> Res Completed)
    (command_str : string) (use_sudo : bool) :
  exists d, execute_command_internal run command_str use_sudo = Ok d
            /\ command_result d.
Proof.
  unfold execute_command_internal, execute_command_try, command_result.
  destruct (run _) as [result | e].
  - eexists. split; [reflexivity |]. eauto.
  - destruct (is_TimeoutExpired e).
    + eexists. split; [reflexivity |]. now exists "", "Timeout", (-1).
    + eexists. split; [reflexivity |]. now exists "", (exc_text e), (-1).
Qed.

Lemma lru_find_In (key : LruKey) (cache : Lru) (v : gmap string PyVal) :
  lru_find key cache = Some v -> exists k, (k, v) ∈ cache.
Proof.
  induction cache as [| [k d] rest IH]; simpl; [discriminate |].
  destruct (key_eqb k key).
  - intros [= <-]. exists k. now left.
  - intros H. destruct (IH H) as [k' Hk']. exists k'. now right.
Qed.

Lemma lru_find_result (key : LruKey) (cache : Lru) (v : gmap string PyVal) :
  lru_results cache -> lru_find key cache = Some v -> command_result v.
Proof.
  unfold lru_results. rewrite Forall_forall. intros Hall Hfind.
  destruct (lru_find_In key cache v Hfind) as [k Hk]. now apply (Hall (k, v)).
Qed.

Lemma execute_command_result (run : list string -> Res Completed) (cache : Lru)
    (command_str : string) (use_sudo use_cache : bool) :
  lru_results cache ->
  (exists d, fst (execute_command run cache command_str use_sudo use_cache) = Ok d
             /\ command_result d)
  /\ lru_results (snd (execute_command run cache command_str use_sudo use_cache)).
Proof.
  intros Hok. unfold execute_command, get_cached_command_result.
  destruct (execute_command_internal_result run command_str use_sudo)
    as (d & Hd & Hres).
  destruct use_cache; simpl.
  - destruct (lru_find _ cache) as [v |] eqn:Hfind.
    + pose proof (lru_find_result _ _ _ Hok Hfind) as Hv. simpl. split.
      * now exists v.
      * constructor; [exact Hv |]. unfold lru_remove.
        apply Forall_forall. intros x Hx.
        apply list_elem_of_filter in Hx as [_ Hx].
        unfold lru_results in Hok. rewrite Forall_forall in Hok. now apply Hok.
    + rewrite Hd. simpl. split.
      * now exists d.
      * constructor; [exact Hres | now apply Forall_take].
  - rewrite Hd. split; [now exists d | exact Hok].
Qed.

Lemma execute_commands_result (calls : list CommandCall) (cache : Lru) :
  lru_results cache ->
  Forall (fun r => exists d, r = Ok d /\ command_result d)
    (fst (execute_commands calls cache)).
Proof.
  revert cache. induction calls as [| c rest IH]; intros cache Hok; simpl.
  - constructor.
  - destruct (execute_command_result (call_run c) cache (call_command c) (call_sudo c)
                (call_cache c) Hok) as [Hr Hok1].
    destruct (execute_command _ _ _ _ _) as [r cache1]. simpl in *.
    specialize (IH cache1 Hok1).
    destruct (execute_commands rest cache1) as [rs cache2]. simpl in *.
    constructor; assumption.
Qed.

(** X10. In every dictionary [execute_command] returns, cached or not,
    [success] is true exactly when [returncode] is 0, and [stdout] and
    [stderr] are strings. *)
Theorem success_means_returncode_zero (calls : list CommandCall) :
  Forall (fun r =>
            exists d out err code,
              r = Ok d
              /\ d !! "returncode" = Some (PInt code)
              /\ d !! "success" = Some (PBool (code =? 0))
              /\ d !! "stdout" = Some (PStr out)
              /\ d !! "stderr" = Some (PStr err))
    (fst (execute_commands calls [])).
Proof.
  pose proof (execute_commands_result calls [] (Forall_nil_2 _)) as H.
  eapply Forall_impl; [exact H |]. simpl.
  intros r (d & -> & out & err & code & ->).
  exists (result_dict (code =? 0) out err code), out, err, code.
  destruct (result_dict_is_result (code =? 0) out err code) as (_ & H1 & H2 & H3 & H4).
  auto.
Qed.

(** ** The panel: what the [lru_cache] does to the status *)

Lemma key_eqb_refl (key : LruKey) : key_eqb key key = true.
Proof.
  unfold key_eqb. rewrite String.eqb_refl. now destruct (snd key).
Qed.

(** A cached call leaves the result of its command in the cache, and
    returns it. *)
Lemma cached_call_stores (run : list string -> Res Completed) (cache : Lru)
    (command_str : string) (use_sudo : bool) :
  exists v,
    fst (execute_command run cache command_str use_sudo true) = Ok v
    /\ lru_find (command_str, use_sudo)
         (snd (execute_command run cache command_str use_sudo true)) = Some v.
Proof.
  unfold execute_command, get_cached_command_result.
  destruct (lru_find (command_str, use_sudo) cache) as [v |] eqn:Hfind.
  - exists v. simpl. now rewrite key_eqb_refl.
  - destruct (execute_command_internal_result run command_str use_sudo)
      as (d & -> & _).
    exists d. simpl. now rewrite key_eqb_refl.
Qed.

(** A cached call for a command that has a result in the cache returns
    that result and does not consult the outside world. *)
Lemma cached_call_hit (run : list string -> Res Completed) (cache : Lru)
    (command_str : string) (use_sudo : bool) (v : gmap string PyVal) :
  lru_find (command_str, use_sudo) cache = Some v ->
  execute_command run cache command_str use_sudo true
  = (Ok v, ((command_str, use_sudo), v) :: lru_remove (command_str, use_sudo) cache).
Proof. unfold execute_command, get_cached_command_result. now intros ->. Qed.

(** *** How long the [lru_cache] holds a result *)

Lemma key_eqb_eq (a b : LruKey) : key_eqb a b = true <-> a = b.
Proof.
  unfold key_eqb. destruct a as [s1 b1], b as [s2 b2]. simpl.
  rewrite andb_true_iff, String.eqb_eq, Bool.eqb_true_iff.
  split; [intros [-> ->]; reflexivity | intros [= -> ->]; auto].
Qed.

Lemma lru_find_app (key : LruKey) (front back : Lru) :
  lru_find key front = None ->
  lru_find key (front ++ back) = lru_find key back.
Proof.
  induction front as [| [k v] front IH]; simpl; [reflexivity |].
  destruct (key_eqb k key); [discriminate | exact IH].
Qed.

Lemma lru_find_remove_other (key key' : LruKey) (cache : Lru) :
  lru_find key cache = None -> lru_find key (lru_remove key' cache) = None.
Proof.
  unfold lru_remove, Lru. induction cache as [| [k v] rest IH]; [reflexivity |].
  intros H. simpl in H. destruct (key_eqb k key) eqn:Hk; [discriminate |].
  rewrite filter_cons. destruct (decide _); simpl; [rewrite Hk |]; auto.
Qed.

Lemma lru_remove_app (key : LruKey) (front back : Lru) :
  lru_remove key (front ++ back) = lru_remove key front ++ lru_remove key back.
Proof. unfold lru_remove. apply filter_app. Qed.

Lemma lru_remove_length (key : LruKey) (cache : Lru) :
  (length (lru_remove key cache) <= length cache)%nat.
Proof. unfold lru_remove. apply length_filter. Qed.

(** After a cached call the entry of [key] is still in the cache, one
    place further from the front at most, as long as it was not in the
    last place. *)
Lemma held_step (run : list string -> Res Completed) (command_str : string)
    (use_sudo use_cache : bool) (key : LruKey) (v : gmap string PyVal) (m : nat)
    (cache : Lru) :
  held key v m cache ->
  (m + (if use_cache then 1 else 0) < lru_maxsize)%nat ->
  held key v (m + (if use_cache then 1 else 0))
    (snd (execute_command run cache command_str use_sudo use_cache)).
Proof.
  intros (front & back & -> & Hfront & Hlen) Hm. unfold lru_maxsize, LruKey in *.
  unfold execute_command. destruct use_cache; cbv iota in Hm |- *; simpl snd.
  - unfold get_cached_command_result.
    destruct (decide ((command_str, use_sudo) = key)) as [<- | Hne].
    + rewrite lru_find_app by assumption. simpl. rewrite key_eqb_refl. simpl.
      exists [], (lru_remove (command_str, use_sudo)
                    (front ++ ((command_str, use_sudo), v) :: back)).
      split; [reflexivity |]. split; [reflexivity | simpl; lia].
    + assert (Hkey : key_eqb key (command_str, use_sudo) = false).
      { destruct (key_eqb key (command_str, use_sudo)) eqn:E; [| reflexivity].
        apply key_eqb_eq in E. congruence. }
      assert (Hkey' : key_eqb (command_str, use_sudo) key = false).
      { destruct (key_eqb (command_str, use_sudo) key) eqn:E; [| reflexivity].
        apply key_eqb_eq in E. congruence. }
      destruct (lru_find (command_str, use_sudo) (front ++ (key, v) :: back))
        as [v' |] eqn:Hfind; simpl.
      * exists (((command_str, use_sudo), v') :: lru_remove (command_str, use_sudo) front),
          (lru_remove (command_str, use_sudo) back).
        split.
        { rewrite lru_remove_app. simpl. f_equal. f_equal.
          unfold lru_remove, Lru. rewrite filter_cons. simpl. rewrite Hkey. reflexivity. }
        split.
        { simpl. rewrite Hkey'. now apply lru_find_remove_other. }
        pose proof (lru_remove_length (command_str, use_sudo) front) as Hshort.
        unfold LruKey in *. cbn [length]. lia.
      * destruct (execute_command_internal_result run command_str use_sudo)
          as (d & -> & _). simpl snd.
        exists (((command_str, use_sudo), d) :: front), (take (30 - length front) back).
        split.
        { change (((command_str, use_sudo), d) :: front ++ (key, v) :: back)
            with ((((command_str, use_sudo), d) :: front) ++ (key, v) :: back).
          rewrite take_app_ge by (cbn [length]; lia).
          f_equal. cbn [length].
          replace (31 - length front)%nat with (S (30 - length front)) by lia.
          reflexivity. }
        split; [simpl; now rewrite Hkey' |]. cbn [length]. unfold LruKey in *. lia.
  - rewrite Nat.add_0_r. now exists front, back.
Qed.

Lemma held_steps (calls : list CommandCall) (key : LruKey) (v : gmap string PyVal)
    (m : nat) (cache : Lru) :
  held key v m cache ->
  (m + length (filter (fun c => call_cache c) calls) < lru_maxsize)%nat ->
  held key v (m + length (filter (fun c => call_cache c) calls))
    (snd (execute_commands calls cache)).
Proof.
  revert m cache. induction calls as [| c rest IH]; intros m cache Hheld Hfew.
  - rewrite filter_nil in *. simpl. rewrite Nat.add_0_r. exact Hheld.
  - rewrite filter_cons in *. cbn [execute_commands].
    pose proof (held_step (call_run c) (call_command c) (call_sudo c) (call_cache c)
                  key v m cache Hheld) as Hstep.
    destruct (execute_command _ _ _ _ _) as [r cache1]. cbn [snd] in Hstep.
    specialize (IH (m + (if call_cache c then 1 else 0))%nat cache1).
    destruct (execute_commands rest cache1) as [rs cache2]. cbn [snd] in *.
    destruct (decide _) as [Hc | Hc].
    + apply Is_true_true in Hc. rewrite Hc in *. cbn [length] in *.
      replace (m + S (length (filter (fun c0 => call_cache c0) rest)))%nat
        with (m + 1 + length (filter (fun c0 => call_cache c0) rest))%nat by lia.
      apply IH; [apply Hstep |]; lia.
    + apply Is_true_false in Hc. rewrite Hc in *. rewrite Nat.add_0_r in *.
      apply IH; [apply Hstep |]; lia.
Qed.

Lemma held_find (key : LruKey) (v : gmap string PyVal) (m : nat) (cache : Lru) :
  held key v m cache -> lru_find key cache = Some v.
Proof.
  intros (front & back & -> & Hfront & _). rewrite lru_find_app by assumption.
  simpl. now rewrite key_eqb_refl.
Qed.

(** X11. A command run with caching on keeps its first result while
    its entry is in the [lru_cache]: after fewer than 32 cached calls in
    between, for any commands, and any number of calls that are not
    cached, a cached call for the same command and sudo flag returns
    that first result, a timeout or another failure included, whatever
    the command would do if it were run again. *)
Theorem cached_command_result_is_kept (run run' : list string -> Res Completed)
    (cache : Lru) (command_str : string) (use_sudo : bool)
    (calls : list CommandCall)
    (Hfew : (length (filter (fun c => call_cache c) calls) < lru_maxsize)%nat) :
  let first := execute_command run cache command_str use_sudo true in
  let later := execute_commands calls (snd first) in
  fst (execute_command run' (snd later) command_str use_sudo true) = fst first.
Proof.
  cbv zeta.
  destruct (cached_call_stores run cache command_str use_sudo) as (v & Hr & Hfind).
  assert (Hheld : held (command_str, use_sudo) v 0
                    (snd (execute_command run cache command_str use_sudo true))).
  { unfold execute_command, get_cached_command_result in *.
    destruct (lru_find (command_str, use_sudo) cache) as [v0 |]; simpl in *.
    - injection Hr as ->. eexists [], _. split; [reflexivity |]. split; [reflexivity | simpl; lia].
    - destruct (execute_command_internal run command_str use_sudo) as [d | e];
        simpl in *; [| discriminate].
      injection Hr as ->. eexists [], _. unfold lru_maxsize. simpl.
      split; [reflexivity |]. split; [reflexivity | simpl; lia]. }
  pose proof (held_steps calls (command_str, use_sudo) v 0 _ Hheld Hfew) as Hlater.
  apply held_find in Hlater.
  rewrite (cached_call_hit run' _ command_str use_sudo v Hlater). now rewrite Hr.
Qed.

Lemma cached_command_result_is_kept_witness :
  let first := execute_command (answering "active" 0) [] "systemctl is-active frps" true
                 true in
  let later := execute_commands
                 [{| call_run := answering "" 0; call_command := "pgrep -f frps";
                     call_sudo := false; call_cache := true |};
                  {| call_run := answering "" 1; call_command := "systemctl stop frps";
                     call_sudo := true; call_cache := false |}]
                 (snd first) in
  fst (execute_command (answering "inactive" 3) (snd later)
         "systemctl is-active frps" true true)
  = fst first.
Proof.
  apply (cached_command_result_is_kept (answering "active" 0) (answering "inactive" 3) []
           "systemctl is-active frps" true).
  vm_compute. lia.
Defined.

(** The thirty-second other command pushes the result out: the command
    is then run again. *)
Example cached_command_result_is_evicted :
  let other (n : nat) :=
    {| call_run := answering "" 0; call_command := "echo " +:+ String.concat "" (repeat "x" n);
       call_sudo := false; call_cache := true |} in
  let stdout_of (r : Res (gmap string PyVal)) :=
    match r with
    | Ok d => d !! "stdout"
    | Raise _ => None
    end in
  let first := execute_command (answering "active" 0) [] "systemctl is-active frps" true
                 true in
  let later := execute_commands (map other (seq 0 32)) (snd first) in
  stdout_of (fst first) = Some (PStr "active")
  /\ stdout_of (fst (execute_command (answering "inactive" 3) (snd later)
                       "systemctl is-active frps" true true))
     = Some (PStr "inactive").
Proof. vm_compute. split; reflexivity. Qed.

(** ** The panel: the status between two actions *)

Section PanelProofs.

Variable settings : Settings.
Variable str_other : PyVal -> string.

Lemma fetch_frps_status_hit (run : list string -> Res Completed) (cache : Lru)
    (r : gmap string PyVal) :
  lru_find (status_command settings) cache = Some r ->
  fetch_frps_status settings str_other run cache
  = (status_of_result settings str_other r,
     (status_command settings, r) :: lru_remove (status_command settings) cache).
Proof.
  intros Hfind. unfold fetch_frps_status.
  rewrite (cached_call_hit run cache _ _ r);
    [| now destruct (status_command settings)].
  now destruct (status_command settings).
Qed.

Lemma fetch_frps_status_stores (run : list string -> Res Completed) (cache : Lru) :
  exists r,
    fst (fetch_frps_status settings str_other run cache) = status_of_result settings str_other r
    /\ lru_find (status_command settings) (snd (fetch_frps_status settings str_other run cache)) = Some r.
Proof.
  unfold fetch_frps_status.
  destruct (cached_call_stores run cache (fst (status_command settings))
              (snd (status_command settings))) as (r & Hr & Hfind).
  destruct (execute_command _ _ _ _ _) as [x cache']. simpl in *. subst x.
  exists r. split; [reflexivity |]. now destruct (status_command settings).
Qed.

(** Once the status command has a result in the [lru_cache],
    [get_frps_status settings str_other] comes to the same answer whatever the time and the
    outside world. *)
Lemma get_frps_status_frozen (x : Res PyVal) (run : list string -> Res Completed)
    (now : Q) (p : Panel) :
  frozen settings str_other x p ->
  fst (get_frps_status settings str_other run now p) = x /\ frozen settings str_other x (snd (get_frps_status settings str_other run now p)).
Proof.
  intros (r & Hfind & Hx & Hdata).
  unfold get_frps_status, get_cached_data.
  destruct (is_none (data (status_cache p)) || Qgtb _ _) eqn:Htest.
  - rewrite (fetch_frps_status_hit run _ r Hfind), Hx.
    destruct x as [v | e]; simpl.
    + split; [reflexivity |]. exists r. simpl.
      rewrite key_eqb_refl. auto.
    + split; [reflexivity |]. exists r. simpl.
      rewrite key_eqb_refl. auto.
  - apply orb_false_iff in Htest as [Hnone _].
    destruct Hdata as [Hdata | Hdata]; [rewrite Hdata in Hnone; discriminate |].
    simpl. split; [exact Hdata |]. exists r. destruct p; simpl in *. auto.
Qed.

Lemma get_frps_status_first (run : list string -> Res Completed) (now : Q)
    (p : Panel) :
  data (status_cache p) = PNone ->
  frozen settings str_other (fst (get_frps_status settings str_other run now p)) (snd (get_frps_status settings str_other run now p)).
Proof.
  intros Hdata. unfold get_frps_status, get_cached_data. rewrite Hdata. simpl.
  destruct (fetch_frps_status_stores run (command_cache p)) as (r & Hr & Hfind).
  destruct (fetch_frps_status settings str_other run (command_cache p)) as [x cache']. simpl in *.
  subst x. exists r.
  destruct (status_of_result settings str_other r) as [v | e] eqn:Hv; simpl; rewrite ?Hdata; auto.
Qed.

Lemma fetch_frps_logs_cache (run : list string -> Res Completed) (lines : Z)
    (cache : Lru) :
  snd (fetch_frps_logs settings str_other run lines cache) = cache.
Proof.
  unfold fetch_frps_logs, execute_command.
  now destruct (USE_SYSTEMD settings).
Qed.

Lemma get_frps_logs_keeps (run : list string -> Res Completed) (now : Q)
    (lines : Z) (p : Panel) :
  status_cache (snd (get_frps_logs settings str_other run now lines p)) = status_cache p
  /\ command_cache (snd (get_frps_logs settings str_other run now lines p)) = command_cache p.
Proof.
  unfold get_frps_logs, get_cached_data.
  pose proof (fetch_frps_logs_cache run lines (command_cache p)) as Hcache.
  destruct (is_none _ || Qgtb _ _); [| auto].
  destruct (fetch_frps_logs settings str_other run lines (command_cache p)) as [[v | e] cache'];
    simpl in *; auto.
Qed.

Lemma api_action_rejected (req : Request) (action : string)
    (run : list string -> Res Completed) (p : Panel) :
  accepted settings req action = false ->
  api_action settings req action run p
  = (Ok (if require_auth settings req then error_response 400 "Invalid action"
         else error_response 401 "Unauthorized"), p).
Proof.
  unfold accepted, api_action.
  destruct (require_auth settings req); simpl; [| reflexivity].
  now intros ->.
Qed.

Lemma serve_frozen (x : Res PyVal) (c : RouteCall) (p : Panel) :
  no_action settings c -> frozen settings str_other x p -> frozen settings str_other x (snd (serve settings str_other c p)).
Proof.
  intros Hc Hx. destruct c as [req run now | req lines_arg run now | req action run];
    simpl in *.
  - unfold api_status. destruct (negb _); [exact Hx |].
    destruct (get_frps_status_frozen x run now p Hx) as [_ Hx'].
    now destruct (get_frps_status settings str_other run now p).
  - unfold api_logs. destruct (negb _); [exact Hx |].
    destruct lines_arg as [n | e]; [| exact Hx].
    destruct (get_frps_logs_keeps run now (Z.min n 200) p) as [Hs Hc'].
    destruct (get_frps_logs settings str_other run now (Z.min n 200) p) as [r p']. simpl in *.
    destruct Hx as (r0 & H1 & H2 & H3). exists r0. now rewrite Hs, Hc'.
  - now rewrite api_action_rejected.
Qed.

Lemma api_status_frozen (x : Res PyVal) (req : Request)
    (run : list string -> Res Completed) (now : Q) (p : Panel) :
  require_auth settings req = true -> frozen settings str_other x p ->
  fst (api_status settings str_other req run now p)
  = and_then x (fun v => Ok {| status_code := 200; body := JsonValue v |}).
Proof.
  intros Hauth Hx. unfold api_status. rewrite Hauth. simpl.
  destruct (get_frps_status_frozen x run now p Hx) as [Hr _].
  destruct (get_frps_status settings str_other run now p). simpl in *. now subst.
Qed.

Lemma serve_all_frozen (x : Res PyVal) (calls : list RouteCall) (p : Panel) :
  Forall (no_action settings) calls -> frozen settings str_other x p ->
  forall i req run now,
    calls !! i = Some (GetStatus req run now) ->
    require_auth settings req = true ->
    fst (serve_all settings str_other calls p) !! i
    = Some (and_then x (fun v => Ok {| status_code := 200; body := JsonValue v |})).
Proof.
  intros Hcalls. revert p.
  induction Hcalls as [| c rest Hc Hrest IH]; intros p Hx i req run now Hi Hauth.
  - discriminate.
  - simpl. pose proof (serve_frozen x c p Hc Hx) as Hx'.
    destruct (serve settings str_other c p) as [r p1] eqn:Hserve. simpl in Hx'.
    specialize (IH p1 Hx').
    destruct (serve_all settings str_other rest p1) as [rs p2]. simpl in *.
    destruct i as [| i]; simpl in *.
    + injection Hi as ->. simpl in Hserve.
      pose proof (api_status_frozen x req run now p Hauth Hx) as Hr.
      rewrite Hserve in Hr. simpl in Hr. now rewrite Hr.
    + now apply (IH i req run now).
Qed.

End PanelProofs.

(** X12. The status is read once between two actions. When
    [_status_cache] is empty (at import, and after an accepted action), the
    first [/api/status] request fetches the status; every later
    [/api/status] request, at any time and whatever the service does by
    then, returns that first answer, as long as no start, stop or restart
    is accepted in between: after its TTL, [_status_cache] is filled from
    the [lru_cache] of the command. *)
Theorem status_is_read_once_between_actions (settings : Settings)
    (str_other : PyVal -> string) (req : Request)
    (run : list string -> Res Completed) (now : Q) (p : Panel) (calls : list RouteCall)
    (Hauth : require_auth settings req = true)
    (Hempty : data (status_cache p) = PNone)
    (Hcalls : Forall (no_action settings) calls) :
  let first := api_status settings str_other req run now p in
  forall i req' run' now',
    calls !! i = Some (GetStatus req' run' now') ->
    require_auth settings req' = true ->
    fst (serve_all settings str_other calls (snd first)) !! i = Some (fst first).
Proof.
  intros first i req' run' now' Hi Hauth'. subst first.
  pose proof (get_frps_status_first settings str_other run now p Hempty) as Hx.
  unfold api_status at 1 2. rewrite Hauth. simpl.
  destruct (get_frps_status settings str_other run now p) as [x p1]. simpl in *.
  now apply (serve_all_frozen settings str_other x calls p1 Hcalls Hx i req' run' now').
Qed.

(** ** The panel: actions *)

Lemma uncached_call (run : list string -> Res Completed) (cache : Lru)
    (command_str : string) (use_sudo : bool) :
  execute_command run cache command_str use_sudo false
  = (execute_command_internal run command_str use_sudo, cache).
Proof. reflexivity. Qed.

(** An accepted action empties the three caches, runs its command and
    answers with the command's result. *)
Lemma api_action_accepted (settings : Settings) (req : Request) (action : string)
    (run : list string -> Res Completed) (p : Panel) :
  accepted settings req action = true ->
  api_action settings req action run p
  = (and_then (execute_command_internal run (fst (action_command settings action))
                 (snd (action_command settings action)))
       (fun d => Ok {| status_code := 200; body := JsonDict d |}),
     clear_caches p).
Proof.
  unfold accepted, api_action, action_command. intros Hacc.
  apply andb_true_iff in Hacc as [-> ->]. simpl negb. cbv iota.
  destruct (USE_SYSTEMD settings); [reflexivity |].
  destruct (String.eqb action "start") eqn:Hstart.
  - apply String.eqb_eq in Hstart as ->. reflexivity.
  - destruct (String.eqb action "stop"); [reflexivity |].
    rewrite !uncached_call.
    destruct (execute_command_internal_result run stop_binary false) as (d & -> & _).
    reflexivity.
Qed.

(** X13. [/api/<action>] answers 200 exactly when the request passes
    [require_auth] and the action is start, stop or restart; then it has
    emptied the caches. Any other request is answered 401 or 400 without
    a command being run, and the caches stay as they were. *)
Theorem action_runs_iff_accepted (settings : Settings) (req : Request)
    (action : string) (run : list string -> Res Completed) (p : Panel) :
  let answer := api_action settings req action run p in
  (status_code (respond (fst answer)) = 200
   <-> require_auth settings req = true
       /\ action ∈ ["start"; "stop"; "restart"])
  /\ (status_code (respond (fst answer)) = 200 -> snd answer = clear_caches p)
  /\ (status_code (respond (fst answer)) <> 200 ->
      snd answer = p
      /\ forall run', api_action settings req action run' p = answer).
Proof.
  cbv zeta.
  assert (Hin : existsb (String.eqb action) ["start"; "stop"; "restart"] = true
                <-> action ∈ ["start"; "stop"; "restart"]).
  { rewrite existsb_exists. split.
    - intros (x & Hx & Heq). apply String.eqb_eq in Heq as ->.
      now apply list_elem_of_In.
    - intros Hx. exists action. split; [now apply list_elem_of_In |].
      apply String.eqb_refl. }
  destruct (accepted settings req action) eqn:Hacc.
  - rewrite (api_action_accepted settings req action run p Hacc).
    destruct (execute_command_internal_result run
                (fst (action_command settings action))
                (snd (action_command settings action))) as (d & -> & _).
    simpl. unfold accepted in Hacc. apply andb_true_iff in Hacc as [Hauth Hact].
    split; [| split]; [| reflexivity | congruence].
    split; [| reflexivity]. intros _. split; [exact Hauth | now apply Hin].
  - rewrite (api_action_rejected settings req action run p Hacc).
    unfold accepted in Hacc.
    split; [| split].
    + split.
      * destruct (require_auth settings req); simpl; discriminate.
      * intros [Hauth Hact]. apply Hin in Hact. rewrite Hauth, Hact in Hacc.
        discriminate.
    + destruct (require_auth settings req); simpl; discriminate.
    + intros _. split; [reflexivity |]. intros run'.
      apply api_action_rejected. unfold accepted. exact Hacc.
Qed.

(** X14. The first [get_frps_status] after an accepted action runs the
    status command: its answer is made from what the command does then,
    whatever was cached before the action and however recently. *)
Theorem action_refreshes_status (settings : Settings) (str_other : PyVal -> string)
    (req : Request) (action : string) (run run' : list string -> Res Completed)
    (now : Q) (p : Panel)
    (Hacc : accepted settings req action = true) :
  fst (get_frps_status settings str_other run' now
         (snd (api_action settings req action run p)))
  = and_then (execute_command_internal run' (fst (status_command settings))
                (snd (status_command settings)))
      (status_of_result settings str_other).
Proof.
  rewrite (api_action_accepted settings req action run p Hacc).
  unfold get_frps_status, get_cached_data, clear_caches, fetch_frps_status. simpl.
  unfold execute_command, get_cached_command_result. simpl.
  destruct (execute_command_internal_result run' (fst (status_command settings))
              (snd (status_command settings))) as (d & -> & _).
  simpl. now destruct (status_of_result settings str_other d).
Qed.

(** ** The panel: the log cache *)

Lemma fetch_frps_logs_returns (settings : Settings) (str_other : PyVal -> string)
    (run : list string -> Res Completed) (lines : Z) (cache : Lru) :
  exists s, fetch_frps_logs settings str_other run lines cache = (Ok (PStr s), cache).
Proof.
  unfold fetch_frps_logs. destruct (USE_SYSTEMD settings); [| eauto].
  rewrite uncached_call.
  destruct (execute_command_internal_result run (logs_command settings lines) true)
    as (d & -> & out & err & code & ->).
  unfold and_then, getitem.
  destruct (result_dict_is_result (code =? 0) out err code) as (_ & -> & -> & -> & _).
  simpl. destruct (code =? 0); simpl; eauto.
Qed.

(** X15. [_logs_cache] is not keyed by the number of lines. After a
    request that fetched the logs, a request within the TTL gets the same
    text, whatever number of lines it asks for and whatever the journal
    holds by then. *)
Theorem logs_cache_ignores_lines (settings : Settings) (str_other : PyVal -> string)
    (req : Request) (run run' : list string -> Res Completed) (n n' : Z)
    (now now' : Q) (p : Panel)
    (Hauth : require_auth settings req = true)
    (Hempty : data (logs_cache p) = PNone)
    (Hsoon : (now' - now <= ttl (logs_cache p))%Q) :
  let first := api_logs settings str_other req (Ok n) run now p in
  fst (api_logs settings str_other req (Ok n') run' now' (snd first)) = fst first.
Proof.
  cbv zeta. unfold api_logs. rewrite Hauth. simpl negb. cbv iota.
  unfold get_frps_logs at 2 3. unfold get_cached_data. rewrite Hempty. simpl orb.
  cbv iota.
  destruct (fetch_frps_logs_returns settings str_other run (Z.min n 200)
              (command_cache p)) as (s & ->).
  simpl. unfold get_frps_logs, get_cached_data. simpl.
  apply Qgtb_false in Hsoon. now rewrite Hsoon.
Qed.

(** ** The panel: what the status says *)

(** X16. In both modes the status [fetch_frps_status] returns has a
    true [active] exactly when its [status] is the string "active": under
    systemd when the command printed just that, for a bare binary when
    pgrep succeeded and printed something. *)
Theorem active_iff_status_active (settings : Settings) (str_other : PyVal -> string)
    (run : list string -> Res Completed) (cache : Lru)
    (Hcache : lru_results cache) :
  exists active status details,
    fst (fetch_frps_status settings str_other run cache)
    = Ok (status_dict active status details)
    /\ (truthy active = true <-> status = PStr "active").
Proof.
  unfold fetch_frps_status.
  destruct (execute_command_result run cache (fst (status_command settings))
              (snd (status_command settings)) true Hcache)
    as [(d & Hd & out & err & code & ->) _].
  destruct (execute_command _ _ _ _ _) as [r cache']. simpl in Hd. subst r.
  simpl. unfold status_of_result, and_then, getitem.
  destruct (result_dict_is_result (code =? 0) out err code) as (_ & -> & -> & _).
  destruct (USE_SYSTEMD settings).
  - do 3 eexists. split; [reflexivity |]. simpl.
    rewrite String.eqb_eq. split; congruence.
  - destruct (code =? 0); simpl.
    + destruct (String.eqb out "") eqn:Hout; simpl.
      * do 3 eexists. split; [reflexivity |]. simpl. rewrite Hout. simpl.
        split; discriminate.
      * do 3 eexists. split; [reflexivity |]. simpl. rewrite Hout. simpl.
        split; reflexivity.
    + do 3 eexists. split; [reflexivity |]. simpl. split; discriminate.
Qed.

(** ** The panel: the theorems on sample requests *)

Lemma status_is_read_once_between_actions_witness :
  let first := api_status systemd_settings no_str user (answering "active" 0) 0
                 initial_panel in
  fst (serve_all systemd_settings no_str
         [GetLogs user (Ok 50) (answering "started" 0) 1;
          GetStatus user (answering "inactive" 3) 100]
         (snd first)) !! 1%nat
  = Some (fst first).
Proof.
  cbv zeta.
  refine (status_is_read_once_between_actions systemd_settings no_str user
            (answering "active" 0) 0 initial_panel
            [GetLogs user (Ok 50) (answering "started" 0) 1;
             GetStatus user (answering "inactive" 3) 100]
            eq_refl eq_refl _ 1%nat user (answering "inactive" 3) 100 eq_refl eq_refl).
  repeat constructor.
Defined.

Lemma action_refreshes_status_witness :
  fst (get_frps_status systemd_settings no_str (answering "inactive" 3) 1
         (snd (api_action systemd_settings user "stop" (answering "" 0)
                 (snd (get_frps_status systemd_settings no_str (answering "active" 0) 0
                         initial_panel)))))
  = Ok (status_dict (PBool false) (PStr "inactive")
          "Service: frps | Status: inactive").
Proof.
  rewrite (action_refreshes_status systemd_settings no_str user "stop");
    reflexivity.
Defined.

Lemma logs_cache_ignores_lines_witness :
  let first := api_logs systemd_settings no_str user (Ok 10) (answering "ten lines" 0) 0
                 initial_panel in
  fst (api_logs systemd_settings no_str user (Ok 200) (answering "many lines" 0) 5
         (snd first))
  = fst first.
Proof.
  apply (logs_cache_ignores_lines systemd_settings no_str user
           (answering "ten lines" 0) (answering "many lines" 0) 10 200 0 5 initial_panel);
    [reflexivity | reflexivity |].
  unfold Qle. simpl. lia.
Defined.

Lemma active_iff_status_active_witness :
  exists active status details,
    fst (fetch_frps_status binary_settings no_str (answering "4242" 0) [])
    = Ok (status_dict active status details)
    /\ (truthy active = true <-> status = PStr "active").
Proof.
  apply (active_iff_status_active binary_settings no_str (answering "4242" 0) []).
  apply Forall_nil_2.
Defined.

(** ** [lightweight_cache]: what a stored result is worth *)

Section LightweightCacheUse.

Context {V : Type}.
Variable maxsize : Z.
Variable ttl : Q.

Implicit Types (cache : @Cache V) (k key : string) (entry : V * Q).

Lemma insert_sorted_last {A} (f : A -> Q) (x k : A) (l : list A) :
  (f x <= f k)%Q -> insert_sorted f x (l ++ [k]) = insert_sorted f x l ++ [k].
Proof.
  intros Hx. induction l as [| y l IH]; simpl.
  - apply Qle_bool_iff in Hx. now rewrite Hx.
  - destruct (Qle_bool (f x) (f y)); [reflexivity |]. now rewrite IH.
Qed.

(** A key that is last in the list and no earlier in time than the
    others is last in the sorted list. *)
Lemma sorted_last {A} (f : A -> Q) (k : A) (l : list A) :
  (forall x, x ∈ l -> (f x <= f k)%Q) -> sorted f (l ++ [k]) = sorted f l ++ [k].
Proof.
  induction l as [| x l IH]; intros Hl; simpl; [reflexivity |].
  rewrite IH by (intros y Hy; apply Hl; now right).
  apply insert_sorted_last, Hl. now left.
Qed.

Lemma cache_get_app_absent k entry cache :
  k ∉ keys cache -> cache_get k (cache ++ [(k, entry)]) = Some entry.
Proof.
  induction cache as [| [k0 e0] rest IH]; simpl; intros Hk.
  - now rewrite String.eqb_refl.
  - unfold keys in Hk. simpl in Hk. apply not_elem_of_cons in Hk as [Hne Hk].
    destruct (String.eqb_spec k0 k) as [-> | _]; [contradiction |]. now apply IH.
Qed.

Lemma cache_get_app_other k k' entry cache :
  k' <> k -> cache_get k' (cache ++ [(k, entry)]) = cache_get k' cache.
Proof.
  intros Hne. induction cache as [| [k0 e0] rest IH]; simpl.
  - destruct (String.eqb_spec k k') as [-> | _]; [contradiction | reflexivity].
  - now destruct (String.eqb k0 k').
Qed.

Lemma cache_get_cache_del k k' cache :
  k' <> k -> cache_get k (cache_del k' cache) = cache_get k cache.
Proof.
  intros Hne. induction cache as [| [k0 e0] rest IH]; [reflexivity |].
  rewrite cache_del_cons. simpl.
  destruct (String.eqb_spec k0 k') as [-> | Hk0]; simpl.
  - destruct (String.eqb_spec k' k) as [-> | _]; [contradiction | exact IH].
  - now rewrite IH.
Qed.

Lemma cache_get_delete_keys k ks cache :
  k ∉ ks -> cache_get k (delete_keys ks cache) = cache_get k cache.
Proof.
  revert cache. induction ks as [| k' ks IH]; intros cache Hk; [reflexivity |].
  apply not_elem_of_cons in Hk as [Hne Hk]. unfold delete_keys in *. simpl.
  rewrite IH by assumption. apply cache_get_cache_del. congruence.
Qed.

(** The entry just stored survives the size limit when the limit is at
    least 2 and no entry has a later timestamp. *)
Lemma limit_cache_size_keeps_new k entry cache :
  2 <= maxsize -> NoDup (keys cache) -> k ∉ keys cache ->
  (forall k', k' ∈ keys cache -> (cached_time cache k' <= snd entry)%Q) ->
  cache_get k (limit_cache_size maxsize (cache ++ [(k, entry)])) = Some entry.
Proof.
  intros Hmax Hnd Hk Htime.
  destruct (Z_le_gt_dec (cache_size (cache ++ [(k, entry)])) maxsize) as [H | H].
  - rewrite limit_cache_size_small by assumption. now apply cache_get_app_absent.
  - rewrite limit_cache_size_over by assumption.
    rewrite cache_get_delete_keys; [now apply cache_get_app_absent |].
    unfold oldest_keys, keys. rewrite fmap_app. simpl.
    rewrite sorted_last.
    + unfold cache_size in *. rewrite length_app in *. simpl in *.
      rewrite take_app_le.
      * intros Hin. apply subseteq_take in Hin.
        rewrite sorted_perm in Hin. contradiction.
      * rewrite (Permutation_length (sorted_perm _ _)), length_fmap. lia.
    + intros k' Hk'. unfold cached_time at 2.
      rewrite cache_get_app_absent by assumption.
      unfold cached_time. rewrite cache_get_app_other.
      * destruct entry as [v t]. apply (Htime k' Hk').
      * intros ->. contradiction.
Qed.

Lemma cache_get_sublist k cache cache' :
  NoDup (keys cache) -> cache' `sublist_of` cache -> k ∈ keys cache' ->
  cache_get k cache' = cache_get k cache.
Proof.
  intros Hnd Hsub. unfold keys in *.
  induction Hsub as [| [k0 e0] l1 l2 Hsub IH | [k0 e0] l1 l2 Hsub IH]; intros Hk.
  - reflexivity.
  - rewrite fmap_cons in Hnd, Hk. apply NoDup_cons in Hnd as [_ Hnd]. simpl.
    destruct (String.eqb_spec k0 k) as [-> | Hne]; [reflexivity |].
    apply IH; [assumption |].
    apply elem_of_cons in Hk as [-> | Hk]; [contradiction | assumption].
  - rewrite fmap_cons in Hnd. apply NoDup_cons in Hnd as [Hk0 Hnd]. simpl.
    destruct (String.eqb_spec k0 k) as [-> | Hne]; [| now apply IH].
    exfalso. apply Hk0. apply (fmap_sublist fst) in Hsub.
    now apply (elem_of_sublist _ _ k Hk).
Qed.

Lemma cached_time_sublist k cache cache' :
  NoDup (keys cache) -> cache' `sublist_of` cache -> k ∈ keys cache' ->
  cached_time cache' k = cached_time cache k.
Proof.
  intros Hnd Hsub Hk. unfold cached_time. now rewrite (cache_get_sublist k cache cache').
Qed.

(** The wrapper after a miss that stores. *)
Lemma wrapper_stores (c : Call) cache cache1 result :
  2 <= maxsize -> NoDup (keys cache) ->
  (forall k', k' ∈ keys cache -> (cached_time cache k' <= call_time c)%Q) ->
  cache_lookup ttl c cache = inr cache1 -> call_func c = Ok result ->
  cache_get (call_key c) (snd (wrapper maxsize ttl c cache))
  = Some (result, call_time c).
Proof.
  intros Hmax Hnd Htime Hlook Hfunc.
  destruct (cache_lookup_miss ttl c cache cache1 Hnd Hlook) as (Hnd1 & Hkey & Hsub).
  unfold wrapper. rewrite Hlook, Hfunc. simpl.
  rewrite cache_set_absent by assumption.
  apply limit_cache_size_keeps_new; try assumption.
  intros k' Hk'. simpl. rewrite (cached_time_sublist k' cache cache1) by assumption.
  apply Htime. apply (fmap_sublist fst) in Hsub.
  now apply (elem_of_sublist _ _ k' Hk').
Qed.

End LightweightCacheUse.

(** X23. A result that [lightweight_cache] stores is served from the
    cache until its TTL runs out: when [maxsize] is at least 2 and no
    entry carries a timestamp later than the call's, a call that runs the
    function keeps its result, and a later call with the same key less
    than [ttl] after it returns that result without running the function
    and leaves the cache as it is. *)
Theorem stored_result_is_served_within_ttl {V : Type} (maxsize : Z) (ttl : Q)
    (ops : list (@Op V)) (c c' : Call) (cache1 : @Cache V) (result : V)
    (Hmax : 2 <= maxsize)
    (Hmiss : cache_lookup ttl c (run_ops maxsize ttl ops) = inr cache1)
    (Hfunc : call_func c = Ok result)
    (Hclock : forall k, k ∈ keys (run_ops maxsize ttl ops) ->
                (cached_time (run_ops maxsize ttl ops) k <= call_time c)%Q)
    (Hkey : call_key c' = call_key c)
    (Hsoon : (call_time c' - call_time c < ttl)%Q) :
  let stored := wrapper maxsize ttl c (run_ops maxsize ttl ops) in
  fst stored = Ok result
  /\ wrapper maxsize ttl c' (snd stored) = (Ok result, snd stored).
Proof.
  cbv zeta.
  destruct (run_ops_bounded maxsize ttl ops) as [Hnd _]; [lia |].
  pose proof (wrapper_stores maxsize ttl c _ cache1 result Hmax Hnd Hclock Hmiss Hfunc)
    as Hget.
  split.
  - unfold wrapper. now rewrite Hmiss, Hfunc.
  - unfold wrapper at 1. unfold cache_lookup. rewrite Hkey, Hget.
    apply Qltb_spec in Hsoon. now rewrite Hsoon.
Qed.

(** X24. Storing into a full cache evicts two entries where one would
    do: when the cache holds [maxsize] entries and a call stores a
    result under a new key, [maxsize - 1] entries are left. With
    [maxsize = 1] the cache is then empty, so the result just computed is
    not kept. *)
Theorem storing_into_a_full_cache_evicts_two {V : Type} (maxsize : Z) (ttl : Q)
    (ops : list (@Op V)) (c : Call) (result : V)
    (Hmax : 1 <= maxsize)
    (Hfull : cache_size (run_ops maxsize ttl ops) = maxsize)
    (Hnew : call_key c ∉ keys (run_ops maxsize ttl ops))
    (Hfunc : call_func c = Ok result) :
  let stored := wrapper maxsize ttl c (run_ops maxsize ttl ops) in
  fst stored = Ok result
  /\ cache_size (snd stored) = maxsize - 1
  /\ (maxsize = 1 -> snd stored = []).
Proof.
  cbv zeta.
  destruct (run_ops_bounded maxsize ttl ops) as [Hnd _]; [lia |].
  assert (Hlook : cache_lookup ttl c (run_ops maxsize ttl ops)
                  = inr (run_ops maxsize ttl ops)).
  { unfold cache_lookup. apply cache_get_None in Hnew. now rewrite Hnew. }
  destruct (stored_NoDup (run_ops maxsize ttl ops) (call_key c) (result, call_time c)
              Hnd Hnew) as [Hnd2 Hsize2].
  assert (Hsize : cache_size (snd (wrapper maxsize ttl c (run_ops maxsize ttl ops)))
                  = maxsize - 1).
  { unfold wrapper. rewrite Hlook, Hfunc. simpl.
    rewrite limit_cache_size_over_length; [lia | assumption | lia | lia]. }
  split; [unfold wrapper; now rewrite Hlook, Hfunc |].
  split; [exact Hsize |].
  intros ->. unfold cache_size in Hsize.
  destruct (snd _); [reflexivity | simpl in Hsize; lia].
Qed.

Lemma stored_result_is_served_within_ttl_witness :
  wrapper 2 300 {| call_key := "(2,)[]"; call_time := 200; call_func := Ok 0 |}
    (snd (wrapper 2 300 {| call_key := "(2,)[]"; call_time := 11; call_func := Ok 4 |}
            (run_ops 2 300 [call_at "(1,)[]" 10 1])))
  = (Ok 4, [("(1,)[]", (1, 10%Q)); ("(2,)[]", (4, 11%Q))]).
Proof.
  destruct (stored_result_is_served_within_ttl 2 300 [call_at "(1,)[]" 10 1]
              {| call_key := "(2,)[]"; call_time := 11; call_func := Ok 4 |}
              {| call_key := "(2,)[]"; call_time := 200; call_func := Ok 0 |}
              [("(1,)[]", (1, 10%Q))] 4) as [_ Hserved].
  - lia.
  - reflexivity.
  - reflexivity.
  - intros k Hk. apply list_elem_of_singleton in Hk as ->. vm_compute. discriminate.
  - reflexivity.
  - reflexivity.
  - rewrite Hserved. reflexivity.
Defined.

Lemma storing_into_a_full_cache_evicts_two_witness :
  snd (wrapper 1 300 {| call_key := "(2,)[]"; call_time := 11; call_func := Ok 4 |}
         (run_ops 1 300 [call_at "(1,)[]" 10 1]))
  = [].
Proof.
  destruct (storing_into_a_full_cache_evicts_two 1 300 [call_at "(1,)[]" 10 1]
              {| call_key := "(2,)[]"; call_time := 11; call_func := Ok 4 |} 4)
    as (_ & _ & Hempty).
  - lia.
  - reflexivity.
  - intros Hin. apply list_elem_of_singleton in Hin. discriminate.
  - reflexivity.
  - now apply Hempty.
Defined.

(** ** The performance monitor *)

Lemma slice_last_length {A} (n : nat) (l : list A) :
  length (Performance.slice_last n l) = Nat.min n (length l).
Proof. unfold Performance.slice_last. rewrite length_drop. lia. Qed.

Lemma slice_last_snoc {A} (n : nat) (l : list A) (x : A) :
  Performance.slice_last (S n) (l ++ [x]) = Performance.slice_last n l ++ [x].
Proof.
  unfold Performance.slice_last. rewrite length_app. simpl.
  replace (length l + 1 - S n)%nat with (length l - n)%nat by lia.
  rewrite drop_app_le by lia. reflexivity.
Qed.

Lemma slice_last_slice_last {A} (n m : nat) (l : list A) :
  (n <= m)%nat ->
  Performance.slice_last n (Performance.slice_last m l) = Performance.slice_last n l.
Proof.
  intros H. unfold Performance.slice_last. rewrite length_drop, drop_drop.
  f_equal. lia.
Qed.

Lemma slice_last_fmap {A B} (f : A -> B) (n : nat) (l : list A) :
  f <$> Performance.slice_last n l = Performance.slice_last n (f <$> l).
Proof. unfold Performance.slice_last. now rewrite fmap_drop, length_fmap. Qed.

Lemma readings_snoc (ops : list MonitorOp) (op : MonitorOp) :
  readings (ops ++ [op])
  = readings ops ++ match op with
                    | LogStats (Ok system_stats) => [system_stats]
                    | _ => []
                    end.
Proof.
  unfold readings. rewrite omap_app. f_equal.
  destruct op as [[s | e] | rss iso]; reflexivity.
Qed.

Lemma monitor_run_snoc (memory_limit_mb : Z) (now : Q) (ops : list MonitorOp)
    (op : MonitorOp) :
  monitor_run memory_limit_mb now (ops ++ [op])
  = monitor_step (monitor_run memory_limit_mb now ops) op.
Proof. unfold monitor_run. now rewrite fold_left_app. Qed.

(** Both histories are the last [n] readings, for one [n] that is at
    most 100 and at least 50 once 50 readings were taken. *)
Lemma monitor_run_history (memory_limit_mb : Z) (now : Q) (ops : list MonitorOp) :
  exists n : nat,
    (Nat.min 50 (length (readings ops)) <= n <= Nat.min 100 (length (readings ops)))%nat
    /\ Performance.memory_usage (Performance.stats (monitor_run memory_limit_mb now ops))
       = Performance.slice_last n (Performance.memory_percent <$> readings ops)
    /\ Performance.cpu_usage (Performance.stats (monitor_run memory_limit_mb now ops))
       = Performance.slice_last n (Performance.cpu_percent <$> readings ops).
Proof.
  induction ops as [| op ops IH] using rev_ind.
  - exists 0%nat. simpl. split; [lia |]. split; reflexivity.
  - destruct IH as (n & Hn & Hmem & Hcpu).
    rewrite monitor_run_snoc, readings_snoc.
    destruct op as [[s | e] | rss iso].
    + rewrite length_app, !fmap_app.
      change (length [s]) with 1%nat.
      change (Performance.memory_percent <$> [s]) with [Performance.memory_percent s].
      change (Performance.cpu_percent <$> [s]) with [Performance.cpu_percent s].
      unfold monitor_step, Performance.log_stats, Performance.get_system_stats.
      cbv beta iota zeta. rewrite Hmem, Hcpu.
      rewrite length_app, slice_last_length, length_fmap.
      change (length [Performance.memory_percent s]) with 1%nat.
      destruct (100 <? _)%nat eqn:Hfull.
      * apply Nat.ltb_lt in Hfull. exists 50%nat.
        split; [lia |]. cbn [Performance.stats Performance.memory_usage
                             Performance.cpu_usage].
        rewrite <- !slice_last_snoc, !slice_last_slice_last by lia.
        split; reflexivity.
      * apply Nat.ltb_ge in Hfull. exists (S n).
        split; [lia |]. cbn [Performance.stats Performance.memory_usage
                             Performance.cpu_usage].
        rewrite !slice_last_snoc. split; reflexivity.
    + rewrite app_nil_r. exists n. simpl. auto.
    + rewrite app_nil_r. exists n. simpl.
      unfold Performance.check_memory_usage.
      destruct (_ >? _); simpl; auto.
Qed.

(** X17. The two histories of the monitor hold the same readings: after
    any sequence of [log_stats] and [check_memory_usage] calls they are
    the memory and the CPU percentages of the last [n] readings, in
    order, where [n] is at most 100 and, once 50 readings were taken, at
    least 50. *)
Theorem histories_hold_the_latest_readings (memory_limit_mb : Z) (now : Q)
    (ops : list MonitorOp) :
  let self := monitor_run memory_limit_mb now ops in
  exists (n : nat) (older latest : list Performance.SystemStats),
    readings ops = older ++ latest
    /\ length latest = n
    /\ (n <= 100)%nat
    /\ (Nat.min 50 (length (readings ops)) <= n)%nat
    /\ Performance.memory_usage (Performance.stats self)
       = Performance.memory_percent <$> latest
    /\ Performance.cpu_usage (Performance.stats self)
       = Performance.cpu_percent <$> latest.
Proof.
  cbv zeta.
  destruct (monitor_run_history memory_limit_mb now ops) as (n & Hn & Hmem & Hcpu).
  exists n, (take (length (readings ops) - n) (readings ops)),
    (Performance.slice_last n (readings ops)).
  split; [unfold Performance.slice_last; now rewrite take_drop |].
  split; [rewrite slice_last_length; lia |].
  split; [lia |]. split; [lia |].
  rewrite !slice_last_fmap. auto.
Qed.

Lemma monitor_run_aligned (memory_limit_mb : Z) (now : Q) (ops : list MonitorOp) :
  aligned (monitor_run memory_limit_mb now ops).
Proof.
  destruct (monitor_run_history memory_limit_mb now ops) as (n & _ & Hmem & Hcpu).
  unfold aligned. rewrite Hmem, Hcpu, !slice_last_length, !length_fmap. reflexivity.
Qed.

Lemma monitor_run_empty_iff (memory_limit_mb : Z) (now : Q) (ops : list MonitorOp) :
  Performance.memory_usage (Performance.stats (monitor_run memory_limit_mb now ops)) = []
  <-> readings ops = [].
Proof.
  destruct (monitor_run_history memory_limit_mb now ops) as (n & Hn & Hmem & _).
  rewrite Hmem. split; intros H.
  - apply (f_equal length) in H. rewrite slice_last_length, length_fmap in H.
    simpl in H. apply length_zero_iff_nil. lia.
  - rewrite H. reflexivity.
Qed.

(** X18. [get_performance_report] returns a report for every monitor
    that [log_stats] and [check_memory_usage] can produce: the two
    averages are taken over histories of the same length, so neither
    division is by zero. The report has the averages exactly when some
    reading was taken. *)
Theorem report_has_averages_iff_a_reading_was_taken (memory_limit_mb : Z)
    (start now : Q) (ops : list MonitorOp) (rss : Res Z)
    (query : Res Performance.SystemStats) :
  exists report,
    Performance.get_performance_report now rss query
      (monitor_run memory_limit_mb start ops) = Ok report
    /\ (is_Some (Performance.avg_memory_percent report) <-> readings ops <> [])
    /\ (is_Some (Performance.avg_cpu_percent report) <-> readings ops <> []).
Proof.
  pose proof (monitor_run_aligned memory_limit_mb start ops) as Hal.
  pose proof (monitor_run_empty_iff memory_limit_mb start ops) as Hempty.
  unfold aligned in Hal. unfold Performance.get_performance_report.
  destruct (Performance.memory_usage _) as [| m ms] eqn:Hmem.
  - eexists. split; [reflexivity |]. simpl.
    split; (split; [intros [x Hx]; discriminate | intros H; tauto]).
  - destruct (Performance.cpu_usage _) as [| c cs] eqn:Hcpu; [discriminate |].
    simpl. eexists. split; [reflexivity |]. simpl.
    assert (Hne : readings ops <> []) by (intros H; apply Hempty in H; discriminate).
    split; (split; [intros _; exact Hne | intros _; eauto]).
Qed.

Lemma monitor_step_limit (self : Performance.PerformanceMonitor) (op : MonitorOp) :
  Performance.memory_limit (monitor_step self op) = Performance.memory_limit self.
Proof.
  destruct op as [[s | e] | rss iso]; simpl; try reflexivity.
  - unfold Performance.log_stats. simpl. now destruct (_ <? _)%nat.
  - unfold Performance.check_memory_usage. now destruct (_ >? _).
Qed.

Lemma monitor_run_limit (memory_limit_mb : Z) (now : Q) (ops : list MonitorOp) :
  Performance.memory_limit (monitor_run memory_limit_mb now ops)
  = memory_limit_mb * 1024 * 1024.
Proof.
  induction ops as [| op ops IH] using rev_ind; [reflexivity |].
  now rewrite monitor_run_snoc, monitor_step_limit.
Qed.

Lemma monitor_run_warnings (memory_limit_mb : Z) (now : Q) (ops : list MonitorOp) :
  length (Performance.warnings (Performance.stats (monitor_run memory_limit_mb now ops)))
  = length (filter (over_limit (memory_limit_mb * 1024 * 1024)) ops).
Proof.
  induction ops as [| op ops IH] using rev_ind; [reflexivity |].
  rewrite monitor_run_snoc, filter_app, length_app, <- IH.
  pose proof (monitor_run_limit memory_limit_mb now ops) as Hlimit.
  rewrite filter_cons, filter_nil.
  destruct op as [[s | e] | rss iso]; simpl.
  - unfold Performance.log_stats. simpl. destruct (_ <? _)%nat; simpl; lia.
  - unfold Performance.log_stats. simpl. lia.
  - unfold Performance.check_memory_usage. rewrite Hlimit.
    destruct (Performance.get_current_memory rss >? memory_limit_mb * 1024 * 1024);
      simpl; rewrite ?length_app; simpl; lia.
Qed.

Lemma get_performance_report_fields (now : Q) (rss : Res Z)
    (query : Res Performance.SystemStats) (self : Performance.PerformanceMonitor)
    (report : Performance.Report) :
  Performance.get_performance_report now rss query self = Ok report ->
  Performance.memory_usage_ok report
  = (Performance.get_current_memory rss <? Performance.memory_limit self)
  /\ Performance.current_memory_mb report
     = Performance.megabytes (Performance.get_current_memory rss)
  /\ Performance.warnings_count report
     = Z.of_nat (length (Performance.warnings (Performance.stats self)))
  /\ length (Performance.recent_warnings report)
     = Nat.min 5 (length (Performance.warnings (Performance.stats self))).
Proof.
  unfold Performance.get_performance_report. intros Hreport.
  assert (Hrecent : length match Performance.warnings (Performance.stats self) with
                           | [] => []
                           | _ => Performance.slice_last 5
                                    (Performance.warnings (Performance.stats self))
                           end
                    = Nat.min 5 (length (Performance.warnings (Performance.stats self)))).
  { destruct (Performance.warnings _) eqn:Hw; [reflexivity |].
    now rewrite slice_last_length. }
  destruct (Performance.memory_usage _).
  - injection Hreport as <-. simpl. auto.
  - destruct (Performance.average _); [| discriminate].
    destruct (Performance.average _); [| discriminate].
    injection Hreport as <-. simpl. auto.
Qed.

(** X19. The warnings are never trimmed: after any sequence of
    [log_stats] and [check_memory_usage] calls, [warnings_count] of a
    report is the number of checks so far that found the process over the
    limit, and [recent_warnings] holds five of them, or all when there
    are fewer. *)
Theorem warnings_count_is_the_number_of_checks_over_the_limit (memory_limit_mb : Z)
    (start now : Q) (ops : list MonitorOp) (rss : Res Z)
    (query : Res Performance.SystemStats) (report : Performance.Report)
    (Hreport : Performance.get_performance_report now rss query
                 (monitor_run memory_limit_mb start ops) = Ok report) :
  let checks := filter (over_limit (memory_limit_mb * 1024 * 1024)) ops in
  Performance.warnings_count report = Z.of_nat (length checks)
  /\ length (Performance.recent_warnings report) = Nat.min 5 (length checks).
Proof.
  cbv zeta. rewrite <- (monitor_run_warnings memory_limit_mb start ops).
  destruct (get_performance_report_fields _ _ _ _ _ Hreport) as (_ & _ & Hcount & Hrecent).
  auto.
Qed.

(** X20. The check and the report draw the line at different places: a
    process using exactly [memory_limit] bytes passes
    [check_memory_usage], which warns above the limit only, and is
    reported with [memory_usage_ok] false, which holds below the limit
    only. At every other reading the two agree. *)
Theorem check_and_report_differ_at_the_limit (now : Q) (rss : Res Z)
    (query : Res Performance.SystemStats) (now_iso : string)
    (self : Performance.PerformanceMonitor) (report : Performance.Report)
    (Hreport : Performance.get_performance_report now rss query self = Ok report) :
  (fst (Performance.check_memory_usage rss now_iso self)
   <> Performance.memory_usage_ok report
   <-> Performance.get_current_memory rss = Performance.memory_limit self)
  /\ (Performance.get_current_memory rss = Performance.memory_limit self ->
      Performance.check_memory_usage rss now_iso self = (true, self)
      /\ Performance.memory_usage_ok report = false).
Proof.
  destruct (get_performance_report_fields _ _ _ _ _ Hreport) as (Hok & _).
  rewrite Hok. unfold Performance.check_memory_usage.
  destruct (Z.gtb_spec (Performance.get_current_memory rss)
              (Performance.memory_limit self)) as [Hgt | Hle];
    destruct (Z.ltb_spec (Performance.get_current_memory rss)
                (Performance.memory_limit self)) as [Hlt | Hge]; simpl.
  - lia.
  - split; [split; [congruence | lia] | lia].
  - split; [split; [congruence | lia] | lia].
  - split; [split; [lia | congruence] | auto].
Qed.

(** X21. A memory reading that fails counts as 0 bytes. With a positive
    limit the check then passes without a warning and the report says
    [memory_usage_ok] with 0 MB in use, however much memory the process
    holds. *)
Theorem failed_reading_is_reported_as_fine (e : PyExc) (now : Q)
    (query : Res Performance.SystemStats) (now_iso : string)
    (self : Performance.PerformanceMonitor) (report : Performance.Report)
    (Hlimit : 0 < Performance.memory_limit self)
    (Hreport : Performance.get_performance_report now (Raise e) query self = Ok report) :
  Performance.check_memory_usage (Raise e) now_iso self = (true, self)
  /\ Performance.memory_usage_ok report = true
  /\ (Performance.current_memory_mb report == 0)%Q.
Proof.
  destruct (get_performance_report_fields _ _ _ _ _ Hreport) as (Hok & Hmb & _).
  rewrite Hok, Hmb. unfold Performance.check_memory_usage. simpl.
  destruct (Z.gtb_spec 0 (Performance.memory_limit self)); [lia |].
  destruct (Z.ltb_spec 0 (Performance.memory_limit self)); [| lia].
  repeat split.
Qed.

(** X22. [memory_usage_decorator] is transparent: the wrapper returns
    what the function returns and raises what it raises, and leaves the
    monitor as the function left it but for one warning, which it adds
    exactly when the function returned and the second memory reading
    is more than 10 MiB above the first. A reading that fails counts
    as 0. *)
Theorem memory_usage_decorator_is_transparent {V : Type}
    (c : Performance.Decorated V) (monitor : Performance.PerformanceMonitor) :
  let inner := Performance.func c monitor in
  let outer := Performance.memory_usage_wrapper c monitor in
  let growth := Performance.get_current_memory (Performance.rss_after c)
                - Performance.get_current_memory (Performance.rss_before c) in
  fst outer = fst inner
  /\ Performance.memory_usage (Performance.stats (snd outer))
     = Performance.memory_usage (Performance.stats (snd inner))
  /\ Performance.cpu_usage (Performance.stats (snd outer))
     = Performance.cpu_usage (Performance.stats (snd inner))
  /\ (raised (fst inner) = false /\ growth > 10485760 ->
      Performance.warnings (Performance.stats (snd outer))
      = Performance.warnings (Performance.stats (snd inner))
          ++ [Performance.function_memory_warning (Performance.func_name c)
                (Performance.megabytes growth) (Performance.warning_time c)])
  /\ (raised (fst inner) = true \/ growth <= 10485760 -> snd outer = snd inner).
Proof.
  cbv zeta. unfold Performance.memory_usage_wrapper.
  destruct (Performance.func c monitor) as [[result | e] monitor1]; simpl.
  - change (10 * 1024 * 1024) with 10485760.
    destruct (Z.gtb_spec (Performance.get_current_memory (Performance.rss_after c)
                          - Performance.get_current_memory (Performance.rss_before c))
                10485760); simpl.
    + repeat split; auto. intros [? | ?]; [discriminate | lia].
    + repeat split; auto. intros [_ ?]; lia.
  - repeat split; auto. intros [? _]; discriminate.
Qed.

(** ** The performance monitor: the theorems on sample runs *)

Lemma warnings_count_is_the_number_of_checks_over_the_limit_witness :
  exists report,
    Performance.get_performance_report 60 (Ok 1048576) (reading 50 10)
      (monitor_run 1 0 [CheckMemory (Ok 2097152) "t1"; LogStats (reading 40 5);
                        CheckMemory (Ok 1048576) "t2"; CheckMemory (Ok 3145728) "t3"])
    = Ok report
    /\ Performance.warnings_count report = 2
    /\ length (Performance.recent_warnings report) = 2%nat.
Proof.
  eexists. split; [reflexivity |].
  apply (warnings_count_is_the_number_of_checks_over_the_limit 1 0 60
           [CheckMemory (Ok 2097152) "t1"; LogStats (reading 40 5);
            CheckMemory (Ok 1048576) "t2"; CheckMemory (Ok 3145728) "t3"]
           (Ok 1048576) (reading 50 10)).
  reflexivity.
Defined.

Lemma check_and_report_differ_at_the_limit_witness :
  exists report,
    Performance.get_performance_report 60 (Ok 1048576) (reading 50 10)
      (Performance.init 1 0) = Ok report
    /\ Performance.check_memory_usage (Ok 1048576) "t" (Performance.init 1 0)
       = (true, Performance.init 1 0)
    /\ Performance.memory_usage_ok report = false.
Proof.
  eexists. split; [reflexivity |].
  apply (check_and_report_differ_at_the_limit 60 (Ok 1048576) (reading 50 10) "t"
           (Performance.init 1 0));
    reflexivity.
Defined.

Lemma failed_reading_is_reported_as_fine_witness :
  exists report,
    Performance.get_performance_report 60
      (Raise (mkExc NoSuchProcess "process no longer exists")) (reading 50 10)
      (Performance.init 400 0) = Ok report
    /\ Performance.memory_usage_ok report = true.
Proof.
  eexists. split; [reflexivity |].
  apply (failed_reading_is_reported_as_fine
           (mkExc NoSuchProcess "process no longer exists") 60 (reading 50 10) "t"
           (Performance.init 400 0));
    [simpl; lia | reflexivity].
Defined.
